(** * ToxiGuard: the violation-scoring and enforcement pipeline

    A shallow embedding of [src/services/analyzer.py], [src/bot/handlers.py]
    and [src/data/manager.py].

    Conventions of the embedding:
    - Python numbers are exact rationals ([Q]); an [int] is the rational
      [inject_Z n].  The binary64 rounding of [float] is not modelled.
    - A Python [dict] with string keys is a [gmap string _]; the state of the
      [DataManager] is a record of records.
    - [async] methods run to completion one after the other (no interleaving
      of two messages, no cancellation); every call that leaves the process
      (Telegram, the classifier, the data file) is answered by an environment
      [Env] and recorded in a trace of events.
    - Exceptions are the subclasses of [Exception], which is what the
      [except] clauses of the code catch. *)

From Stdlib Require Import QArith Qminmax ZArith Lia Lqa Ascii String.
From stdpp Require Import gmap strings list fin_maps pretty.

Local Open Scope Q_scope.

(** ** The Violation Scorer ([OpenAIAnalyzer._calculate_violation_score]) *)

Module Scorer.

(** [min(max(x / 100, 0), 1)] *)
Definition norm (x : Q) : Q := Qmin (Qmax (x / 100) 0) 1.

Definition _calculate_violation_score (spam toxic danger : Q) : Q :=
  let spam_norm := norm spam in
  let toxic_norm := norm toxic in
  let danger_norm := norm danger in
  let base_score := Qmax (Qmax toxic_norm danger_norm) spam_norm in
  let additional_impact :=
    (1#2) * (toxic_norm + danger_norm + spam_norm - base_score) in
  Qmin (base_score + additional_impact) 1 * 100.

(** [(1.01 - settings['sensitivity']/100) * 100] *)
Definition sensitivity_threshold (sensitivity : Z) : Q :=
  ((101#100) - inject_Z sensitivity / 100) * 100.

(** [result['violation_score'] >= sensitivity_threshold] *)
Definition is_violation (violation_score : Q) (sensitivity : Z) : bool :=
  Qle_bool (sensitivity_threshold sensitivity) violation_score.

(** The scorer as section 4.3 of the specification words it. *)
Module Spec.

Definition clamp01 (x : Q) : Q :=
  if Qle_bool x 0 then 0 else if Qle_bool 1 x then 1 else x.

Definition max3 (a b c : Q) : Q := Qmax a (Qmax b c).

Definition composite (spam toxic danger : Q) : Q :=
  let spam_n := clamp01 (spam / 100) in
  let toxic_n := clamp01 (toxic / 100) in
  let danger_n := clamp01 (danger / 100) in
  let base := max3 spam_n toxic_n danger_n in
  let extra := (1#2) * (spam_n + toxic_n + danger_n - base) in
  Qmin (base + extra) 1 * 100.

Definition threshold (s : Z) : Q := ((101#100) - inject_Z s / 100) * 100.

Definition violation (spam toxic danger : Q) (s : Z) : bool :=
  Qle_bool (threshold s) (composite spam toxic danger).

End Spec.

End Scorer.

Local Close Scope Q_scope.
Local Open Scope Z_scope.
Local Open Scope string_scope.
Local Open Scope list_scope.

Set Warnings "-register-all".

(** ** Python values, exceptions and formatted text *)

Module Py.

(** The exceptions ([Exception] subclasses) the pipeline can meet. *)
Inductive exn :=
| ValueError (msg : string)
| KeyError (key : string)
| TypeError
| AttributeError
| JSONDecodeError
| IOError
| APIError (detail : string)        (* raised by the OpenAI client *)
| TelegramError (detail : string).  (* raised by the Telegram client *)

(** What [json.loads] can return, which is also what a result dict holds. *)
Inductive value :=
| VNone
| VBool (b : bool)
| VNum (q : Q)
| VStr (s : string)
| VList (l : list value)
| VDict (d : gmap string value).

(** [bool(v)] *)
Definition truthy (v : value) : bool :=
  match v with
  | VNone => false
  | VBool b => b
  | VNum q => negb (Qeq_bool q 0)
  | VStr s => negb (String.eqb s "")
  | VList l => match l with [] => false | _ => true end
  | VDict d => negb (bool_decide (d = ∅))
  end.

(** The operand of an arithmetic operator: numbers, and [bool] as 0 or 1;
    anything else is a [TypeError]. *)
Definition as_number (v : value) : option Q :=
  match v with
  | VNum q => Some q
  | VBool b => Some (if b then 1%Q else 0%Q)
  | _ => None
  end.

(** An f-string, kept as its literal parts and its formatted values. *)
Inductive piece :=
| Lit (s : string)
| Fmt (v : value)
| FmtExn (e : exn).

Definition text := list piece.

Definition int (n : Z) : value := VNum (inject_Z n).

Definition opt_str (s : option string) : value :=
  match s with Some s => VStr s | None => VNone end.

(** [needle in haystack] for two [str] *)
Fixpoint contains (needle haystack : string) : bool :=
  String.prefix needle haystack ||
  match haystack with
  | EmptyString => false
  | String _ rest => contains needle rest
  end.

End Py.

Export Py.

(** ** The data store ([DataManager]) *)

Record Settings := {
  sensitivity : Z;
  ban_words : list string;
  auto_delete : bool;
  warn_before_ban : Z
}.

Record UserRecord := {
  username : option string;
  first_name : option string;
  last_name : option string;
  warnings : Z;
  messages : Z
}.

Record Stats := {
  messages_checked : Z;
  violations_found : Z;
  deleted_messages : Z;
  banned_users : Z
}.

Record DataManager := {
  settings : Settings;
  users : gmap string UserRecord;
  stats : Stats
}.

(** [DataManager._default_data] *)
Definition _default_data : DataManager :=
  {| settings := {| sensitivity := 70;
                    ban_words := ["реклама"; "купить"; "http://";
                                  "telegram.me"; "оскорбление"];
                    auto_delete := true;
                    warn_before_ban := 3 |};
     users := ∅;
     stats := {| messages_checked := 0; violations_found := 0;
                 deleted_messages := 0; banned_users := 0 |} |}.

(** ** What the handlers receive from Telegram *)

Record User := {
  id : Z;
  is_bot : bool;
  user_username : option string;
  user_first_name : option string;
  user_last_name : option string
}.

Record Message := {
  message_id : Z;
  msg_text : option string;
  from_user : option User;
  chat_id : Z
}.

Record Update := { message : option Message }.

(** The [Message] object [send_message] returns. *)
Record SentMessage := {
  sent_chat_id : Z;
  sent_message_id : Z;
  sent_text : text
}.

(** ** Events and the environment *)

Inductive level := DEBUG | INFO | ERROR.

(** What a handler does that can be seen from outside: log lines, calls to
    the classifier and to Telegram, and writes of the data file.
    [CheckBanWords] and [CalculateScore] mark the entry into the rule filter
    and into the scorer, which have no effect of their own. *)
Inductive event :=
| Log (lvl : level) (msg : text)
| CheckBanWords (txt : string)
| CreateCompletion (message_text : string)
| CalculateScore (spam toxic danger : value)
| SendMessage (chat : Z) (txt : text) (reply_to_message_id : option Z)
| DeleteMessage (chat msg : Z)
| EditText (chat msg : Z) (txt : text)
| BanChatMember (chat user : Z)
| ReplyText (chat msg : Z) (txt : text)
| SaveData (snapshot : DataManager).

(** The answer of the classifier to [chat.completions.create] followed by
    [json.loads] of the content: the call raises, or the content cannot be
    parsed, or it parses to a value. *)
Inductive completion :=
| CreateRaises (e : exn)
| Malformed
| Parsed (v : value).

(** How the outside world answers each call.  [None] in an [option exn]
    means the call returns; [Some e] means it raises [e]. *)
Record Env := {
  create_completion : string → completion;
  send_message : Z → text → option Z → exn + Z;
  delete_message : Z → Z → option exn;
  edit_text : Z → Z → text → option exn;
  ban_chat_member : Z → Z → option exn;
  reply_text : Z → Z → text → option exn;
  write_file : DataManager → bool
}.

(** ** The monad of the handlers: state, trace and exceptions *)

Record World := { data : DataManager; trace : list event }.

Inductive outcome (A : Type) :=
| Return (a : A)
| Raise (e : exn).
Arguments Return {A} a.
Arguments Raise {A} e.

Definition M (A : Type) : Type := World → outcome A * World.

Definition ret {A} (a : A) : M A := fun w => (Return a, w).

Definition raise {A} (e : exn) : M A := fun w => (Raise e, w).

Definition bind {A B} (m : M A) (k : A → M B) : M B :=
  fun w =>
    match m w with
    | (Return a, w') => k a w'
    | (Raise e, w') => (Raise e, w')
    end.

(** [try: body  except Exception as e: handler e] *)
Definition try_except {A} (body : M A) (handler : exn → M A) : M A :=
  fun w =>
    match body w with
    | (Return a, w') => (Return a, w')
    | (Raise e, w') => handler e w'
    end.

Notation "'let!' x ':=' m 'in' k" := (bind m (fun x => k))
  (at level 10, x name, m at level 100, k at level 200).
Notation "m >> k" := (bind m (fun _ => k))
  (at level 100, k at level 200, right associativity).

Definition emit (e : event) : M unit :=
  fun w => (Return tt, {| data := data w; trace := trace w ++ [e] |}).

Definition get_data : M DataManager := fun w => (Return (data w), w).

Definition put_data (d : DataManager) : M unit :=
  fun w => (Return tt, {| data := d; trace := trace w |}).

Definition lift_option {A} (o : option A) (e : exn) : M A :=
  match o with Some a => ret a | None => raise e end.

Definition lift_call (o : option exn) : M unit :=
  match o with None => ret tt | Some e => raise e end.

Definition when (b : bool) (m : M unit) : M unit := if b then m else ret tt.

(** [d[key]] on a dict *)
Definition getitem (d : gmap string value) (key : string) : M value :=
  lift_option (d !! key) (KeyError key).

(** The dict behind [result[...]]: indexing anything else that
    [json.loads] can return by a string raises [TypeError]. *)
Definition as_dict (v : value) : M (gmap string value) :=
  match v with
  | VDict d => ret d
  | _ => raise TypeError
  end.

(** State updates of the store. *)
Definition set_stats (s : Stats) (d : DataManager) : DataManager :=
  {| settings := settings d; users := users d; stats := s |}.

Definition set_users (u : gmap string UserRecord) (d : DataManager) : DataManager :=
  {| settings := settings d; users := u; stats := stats d |}.

Definition incr_messages_checked (s : Stats) : Stats :=
  {| messages_checked := messages_checked s + 1;
     violations_found := violations_found s;
     deleted_messages := deleted_messages s;
     banned_users := banned_users s |}.

Definition incr_violations_found (s : Stats) : Stats :=
  {| messages_checked := messages_checked s;
     violations_found := violations_found s + 1;
     deleted_messages := deleted_messages s;
     banned_users := banned_users s |}.

Definition incr_deleted_messages (s : Stats) : Stats :=
  {| messages_checked := messages_checked s;
     violations_found := violations_found s;
     deleted_messages := deleted_messages s + 1;
     banned_users := banned_users s |}.

Definition incr_banned_users (s : Stats) : Stats :=
  {| messages_checked := messages_checked s;
     violations_found := violations_found s;
     deleted_messages := deleted_messages s;
     banned_users := banned_users s + 1 |}.

Definition incr_warnings (u : UserRecord) : UserRecord :=
  {| username := username u; first_name := first_name u;
     last_name := last_name u;
     warnings := warnings u + 1; messages := messages u |}.

Definition incr_messages (u : UserRecord) : UserRecord :=
  {| username := username u; first_name := first_name u;
     last_name := last_name u;
     warnings := warnings u; messages := messages u + 1 |}.

Definition modify_stats (f : Stats → Stats) : M unit :=
  let! d := get_data in put_data (set_stats (f (stats d)) d).

(** [self.data_manager.users[user_id][field] += 1]: [KeyError] when the
    user has no record. *)
Definition modify_user (user_id : string) (f : UserRecord → UserRecord) : M unit :=
  let! d := get_data in
  let! u := lift_option (users d !! user_id) (KeyError user_id) in
  put_data (set_users (<[user_id := f u]> (users d)) d).

(** [str(user.id)] *)
Definition str (n : Z) : string := pretty n.

Definition NL : string := String "010"%char "".

(** ** The analyzer and the handlers *)

Section Pipeline.

(** [str.lower] of the Python runtime. *)
Variable str_lower : string → string.

(** The answers of the classifier, of Telegram and of the file system. *)
Variable env : Env.

(** Whether [set_data_manager] was called on the analyzer. The analyzer's
    [data_manager] is the very object the handlers mutate, so the analyzer
    reads the settings of the current world. *)
Variable analyzer_data_manager : bool.

(** *** [OpenAIAnalyzer] *)

(** The call [self._calculate_violation_score(spam, toxic, danger)] on the
    values found in the response. *)
Definition call_calculate_violation_score (spam toxic danger : value) : M Q :=
  emit (CalculateScore spam toxic danger) >>
  let! spam := lift_option (as_number spam) TypeError in
  let! toxic := lift_option (as_number toxic) TypeError in
  let! danger := lift_option (as_number danger) TypeError in
  ret (Scorer._calculate_violation_score spam toxic danger).

Definition analysis_error : gmap string value :=
  <["spam" := int 0]> (<["toxic" := int 0]> (<["danger" := int 0]>
  (<["violation_score" := int 0]> (<["violation" := VBool false]>
  (<["reason" := VStr "Ошибка анализа"]> ∅))))).

(** The body of the [try] of [analyze_message]. *)
Definition analyze_body (message_text : string) : M (gmap string value) :=
  let! d := get_data in
  emit (Log INFO [Lit "Analyzing message with sensitivity ";
                  Fmt (int (sensitivity (settings d))); Lit "%"]) >>
  emit (CreateCompletion message_text) >>
  let! parsed :=
    match create_completion env message_text with
    | CreateRaises e => raise e
    | Malformed => raise JSONDecodeError
    | Parsed v => ret v
    end in
  let! result := as_dict parsed in
  let! spam := getitem result "spam" in
  let! toxic := getitem result "toxic" in
  let! danger := getitem result "danger" in
  let! violation_score := call_calculate_violation_score spam toxic danger in
  let result := <["violation_score" := VNum violation_score]> result in
  let! d := get_data in
  let result :=
    <["violation" :=
        VBool (Scorer.is_violation violation_score (sensitivity (settings d)))]>
      result in
  ret result.

Definition analyze_message (message_text : string) : M (gmap string value) :=
  if negb analyzer_data_manager then raise (ValueError "DataManager not set!")
  else
    try_except (analyze_body message_text)
      (fun e =>
         emit (Log ERROR [Lit "Analysis error: "; FmtExn e]) >>
         ret analysis_error).

(** *** [DataManager.save_data] *)

Definition save_data : M unit :=
  let! d := get_data in
  emit (SaveData d) >>
  if write_file env d then ret tt
  else emit (Log ERROR [Lit "Failed to save data: "; FmtExn IOError]).

(** *** [Handlers] *)

Definition _init_user_data (user : User) : M unit :=
  let! d := get_data in
  put_data (set_users
    (<[str (id user) :=
         {| username := user_username user;
            first_name := user_first_name user;
            last_name := user_last_name user;
            warnings := 0; messages := 0 |}]> (users d)) d).

Definition _update_user_stats (user_id : string) : M unit :=
  modify_user user_id incr_messages.

(** [any(word in text.lower() for word in ban_words)] *)
Definition check_ban_words (words : list string) (txt : string) : bool :=
  existsb (fun word => contains word (str_lower txt)) words.

Definition _check_ban_words (txt : string) : M bool :=
  emit (CheckBanWords txt) >>
  let! d := get_data in
  ret (check_ban_words (ban_words (settings d)) txt).

Definition _create_ban_word_violation : gmap string value :=
  <["spam" := int 90]> (<["toxic" := int 40]> (<["danger" := int 70]>
  (<["violation_score" := int 90]> (<["violation" := VBool true]>
  (<["reason" := VStr "Запрещенное слово"]> ∅))))).

Definition send (chat : Z) (txt : text) (reply_to : option Z) : M SentMessage :=
  emit (SendMessage chat txt reply_to) >>
  match send_message env chat txt reply_to with
  | inl e => raise e
  | inr mid =>
      ret {| sent_chat_id := chat; sent_message_id := mid; sent_text := txt |}
  end.

(** The f-string of [_send_warning], given the values it formats. *)
Definition format_warning (reason violation_score spam toxic danger : value)
    (user_warnings limit : Z) : text :=
  [Lit ("🚨 Нарушение правил!" +:+ NL +:+ "▫️ Причина: "); Fmt reason;
   Lit (NL +:+ "▫️ Общий балл: "); Fmt violation_score;
   Lit ("%" +:+ NL +:+ "▫️ Спам: "); Fmt spam;
   Lit ("%" +:+ NL +:+ "▫️ Токсичность: "); Fmt toxic;
   Lit ("%" +:+ NL +:+ "▫️ Опасность: "); Fmt danger;
   Lit ("%" +:+ NL +:+ NL +:+ "Предупреждение "); Fmt (int user_warnings);
   Lit "/"; Fmt (int limit)].

(** The lookups the f-string makes, in the order it makes them. *)
Definition warning_text (user : User) (violation : gmap string value) : M text :=
  let! reason := getitem violation "reason" in
  let! violation_score := getitem violation "violation_score" in
  let! spam := getitem violation "spam" in
  let! toxic := getitem violation "toxic" in
  let! danger := getitem violation "danger" in
  let! d := get_data in
  let! u := lift_option (users d !! str (id user)) (KeyError (str (id user))) in
  ret (format_warning reason violation_score spam toxic danger
         (warnings u) (warn_before_ban (settings d))).

Definition _send_warning (update : Update) (user : User)
    (violation : gmap string value) : M SentMessage :=
  let! txt := warning_text user violation in
  let! message := lift_option (message update) AttributeError in
  send (chat_id message) txt (Some (message_id message)).

Definition deletion_failed_note : piece :=
  Lit (NL +:+ NL +:+ "⚠️ Не удалось удалить сообщение").

Definition _delete_violation_message (message : option Message)
    (warning_msg : SentMessage) : M unit :=
  try_except
    (let! message := lift_option message AttributeError in
     emit (DeleteMessage (chat_id message) (message_id message)) >>
     lift_call (delete_message env (chat_id message) (message_id message)) >>
     modify_stats incr_deleted_messages)
    (fun e =>
       emit (Log ERROR [Lit "Failed to delete message: "; FmtExn e]) >>
       let txt := (sent_text warning_msg ++ [deletion_failed_note])%list in
       emit (EditText (sent_chat_id warning_msg) (sent_message_id warning_msg) txt) >>
       lift_call (edit_text env (sent_chat_id warning_msg)
                    (sent_message_id warning_msg) txt)).

Definition ban_announcement (user : User) : text :=
  [Lit "🚫 Пользователь @"; Fmt (opt_str (user_username user));
   Lit " забанен за повторные нарушения!"].

Definition _ban_user (update : Update) (user : User)
    (violation : gmap string value) : M unit :=
  try_except
    (let! message := lift_option (message update) AttributeError in
     emit (BanChatMember (chat_id message) (id user)) >>
     lift_call (ban_chat_member env (chat_id message) (id user)) >>
     modify_stats incr_banned_users >>
     send (chat_id message) (ban_announcement user) None >>
     ret tt)
    (fun e =>
       emit (Log ERROR [Lit "Failed to ban user "; Fmt (int (id user));
                        Lit ": "; FmtExn e]) >>
       raise e).

Definition _process_violation (update : Update) (user : User)
    (violation : gmap string value) : M unit :=
  modify_stats incr_violations_found >>
  let user_id := str (id user) in
  modify_user user_id incr_warnings >>
  let! warning_msg := _send_warning update user violation in
  let! d := get_data in
  when (auto_delete (settings d))
       (_delete_violation_message (message update) warning_msg) >>
  let! d := get_data in
  let! u := lift_option (users d !! user_id) (KeyError user_id) in
  when (warn_before_ban (settings d) <=? warnings u)%Z
       (_ban_user update user violation).

Definition failure_notice : text :=
  [Lit "⚠️ Произошла ошибка при обработке сообщения"].

(** [not update.message.text]: the text is [None] or empty. *)
Definition text_of (m : Message) : option string :=
  match msg_text m with
  | Some "" => None
  | t => t
  end.

(** Lines 160-166 of [handle_message]: the sender gets a record on first
    sight, and both message counters grow. *)
Definition register_sender (user : User) : M unit :=
  let user_id := str (id user) in
  let! d := get_data in
  when (negb (bool_decide (is_Some (users d !! user_id))))
       (_init_user_data user) >>
  _update_user_stats user_id >>
  modify_stats incr_messages_checked.

(** Lines 168-171: the rule filter first, the classifier only when the
    filter does not trigger. *)
Definition detect (txt : string) : M (gmap string value) :=
  let! ban_word_violation := _check_ban_words txt in
  if ban_word_violation then ret _create_ban_word_violation
  else analyze_message txt.

(** The body of the [try] of [handle_message], past the first [return]. *)
Definition handle_text (update : Update) (message : Message) (txt : string) : M unit :=
  let! user := lift_option (from_user message) AttributeError in
  emit (Log INFO [Lit "New message from "; Fmt (int (id user));
                  Lit " in chat "; Fmt (int (chat_id message))]) >>
  if is_bot user then emit (Log DEBUG [Lit "Ignoring message from bot"])
  else
    register_sender user >>
    let! violation := detect txt in
    let! verdict := getitem violation "violation" in
    when (truthy verdict) (_process_violation update user violation) >>
    save_data.

Definition handle_body (update : Update) : M unit :=
  match message update with
  | None => ret tt
  | Some message =>
      match text_of message with
      | None => ret tt
      | Some txt => handle_text update message txt
      end
  end.

(** The [except Exception as e] clause of [handle_message]. *)
Definition on_error (update : Update) (e : exn) : M unit :=
  emit (Log ERROR [Lit "Error in handle_message: "; FmtExn e]) >>
  match message update with
  | Some m =>
      emit (ReplyText (chat_id m) (message_id m) failure_notice) >>
      lift_call (reply_text env (chat_id m) (message_id m) failure_notice)
  | None => ret tt
  end.

Definition handle_message (update : Update) : M unit :=
  try_except (handle_body update) (on_error update).

End Pipeline.

(** ** Concrete environments, used to run the model *)

Module Run.

(** [str.lower] on ASCII text: [A]-[Z] become [a]-[z], every other byte is
    kept. *)
Definition lower_char (c : ascii) : ascii :=
  let n := nat_of_ascii c in
  if ((65 <=? n) && (n <=? 90))%nat then ascii_of_nat (n + 32) else c.

Fixpoint ascii_lower (s : string) : string :=
  match s with
  | EmptyString => EmptyString
  | String c rest => String (lower_char c) (ascii_lower rest)
  end.

(** An environment in which every call returns; the classifier answers with
    [answer] and sent messages get the identifier 1000. *)
Definition calm (answer : completion) : Env :=
  {| create_completion := fun _ => answer;
     send_message := fun _ _ _ => inr 1000;
     delete_message := fun _ _ => None;
     edit_text := fun _ _ _ => None;
     ban_chat_member := fun _ _ => None;
     reply_text := fun _ _ _ => None;
     write_file := fun _ => true |}.

Definition with_send (f : Z → text → option Z → exn + Z) (e : Env) : Env :=
  {| create_completion := create_completion e;
     send_message := f;
     delete_message := delete_message e;
     edit_text := edit_text e;
     ban_chat_member := ban_chat_member e;
     reply_text := reply_text e;
     write_file := write_file e |}.

Definition with_delete (f : Z → Z → option exn) (e : Env) : Env :=
  {| create_completion := create_completion e;
     send_message := send_message e;
     delete_message := f;
     edit_text := edit_text e;
     ban_chat_member := ban_chat_member e;
     reply_text := reply_text e;
     write_file := write_file e |}.

Definition with_edit (f : Z → Z → text → option exn) (e : Env) : Env :=
  {| create_completion := create_completion e;
     send_message := send_message e;
     delete_message := delete_message e;
     edit_text := f;
     ban_chat_member := ban_chat_member e;
     reply_text := reply_text e;
     write_file := write_file e |}.

Definition with_ban (f : Z → Z → option exn) (e : Env) : Env :=
  {| create_completion := create_completion e;
     send_message := send_message e;
     delete_message := delete_message e;
     edit_text := edit_text e;
     ban_chat_member := f;
     reply_text := reply_text e;
     write_file := write_file e |}.

Definition with_settings (s : Settings) (d : DataManager) : DataManager :=
  {| settings := s; users := users d; stats := stats d |}.

Definition start (d : DataManager) : World := {| data := d; trace := [] |}.

Definition alice : User :=
  {| id := 7; is_bot := false; user_username := Some "alice";
     user_first_name := Some "Alice"; user_last_name := None |}.

Definition says (mid : Z) (u : User) (txt : string) : Update :=
  {| message := Some {| message_id := mid; msg_text := Some txt;
                        from_user := Some u; chat_id := 1 |} |}.

(** The scenario of section 8: one ban word, sensitivity 70, ban at the
    second warning. *)
Definition strict : DataManager :=
  with_settings {| sensitivity := 70; ban_words := ["spam"];
                   auto_delete := true; warn_before_ban := 2 |} _default_data.

(** The world after the first message of that scenario: one warning. *)
Definition one_strike : World :=
  {| data :=
       data (snd (handle_message ascii_lower (calm Malformed) true
                    (says 10 alice "this is spam") (start strict)));
     trace := [] |}.

(** Telegram refuses calls. *)
Definition refuses {A} (what : string) : A → Z → option exn :=
  fun _ _ => Some (TelegramError what).

End Run.

(** * The vocabulary of the statements *)

Import Run.

(** ** Worlds and traces *)

(** The events a computation adds to the trace. *)
Definition new_events {A} (m : M A) (w : World) : list event :=
  drop (length (trace w)) (trace (snd (m w))).

(** The world [w] with the events [evs] added to its trace. *)
Definition heard (w : World) (evs : list event) : World :=
  {| data := data w; trace := trace w ++ evs |}.

(** The world [w] with its store changed by [f]. *)
Definition stored (f : DataManager → DataManager) (w : World) : World :=
  {| data := f (data w); trace := trace w |}.

(** What a call to Telegram leaves as the outcome of the step that made it. *)
Definition outcome_of_call (o : option exn) : outcome unit :=
  match o with None => Return tt | Some e => Raise e end.

(** ** Results *)

(** The result [analyze_message] builds from the dict [d] of the classifier:
    both derived fields are written over whatever [d] held under them. *)
Definition rescored (d : gmap string value) (spam toxic danger : Q)
    (sensitivity : Z) : gmap string value :=
  let violation_score := Scorer._calculate_violation_score spam toxic danger in
  <["violation" := VBool (Scorer.is_violation violation_score sensitivity)]>
    (<["violation_score" := VNum violation_score]> d).

(** The numeric value found under a key of a result. *)
Definition number_at (r : gmap string value) (key : string) : option Q :=
  match r !! key with
  | Some v => as_number v
  | None => None
  end.

(** [violation_score] is what the scorer computes from the result's own
    sub-scores. *)
Definition score_recomputed (r : gmap string value) : bool :=
  match number_at r "spam", number_at r "toxic", number_at r "danger",
        number_at r "violation_score" with
  | Some spam, Some toxic, Some danger, Some violation_score =>
      Qeq_bool violation_score
               (Scorer._calculate_violation_score spam toxic danger)
  | _, _, _, _ => false
  end.

(** A classifier that supplies its own [violation_score] and [violation]. *)
Definition opinionated : gmap string value :=
  <["spam" := int 10]> (<["toxic" := int 20]> (<["danger" := int 5]>
  (<["violation_score" := int 99]> (<["violation" := VBool true]>
  (<["reason" := VStr "rude"]> ∅))))).

(** The violation dict holds the five values the warning formats. *)
Record carries (violation : gmap string value)
    (reason violation_score spam toxic danger : value) : Prop := {
  carries_reason : violation !! "reason" = Some reason;
  carries_violation_score : violation !! "violation_score" = Some violation_score;
  carries_spam : violation !! "spam" = Some spam;
  carries_toxic : violation !! "toxic" = Some toxic;
  carries_danger : violation !! "danger" = Some danger
}.

(** Matching without regard to case: both sides are folded to lower case. *)
Definition contains_ignoring_case (lower : string → string)
    (word txt : string) : bool :=
  contains (lower word) (lower txt).

(** ** The steps of the enforcement engine *)

(** The store after the two increments that open [_process_violation]. *)
Definition count_violation (user_id : string) (u : UserRecord)
    (d : DataManager) : DataManager :=
  set_users (<[user_id := incr_warnings u]> (users d))
            (set_stats (incr_violations_found (stats d)) d).

Definition count_deletion (d : DataManager) : DataManager :=
  set_stats (incr_deleted_messages (stats d)) d.

Definition count_ban (d : DataManager) : DataManager :=
  set_stats (incr_banned_users (stats d)) d.

(** The log line of a ban that failed. *)
Definition ban_failed (user : User) (e : exn) : event :=
  Log ERROR [Lit "Failed to ban user "; Fmt (int (id user)); Lit ": ";
             FmtExn e].

(** The failure of the ban step: the ban call raises, or it returns and the
    announcement raises. *)
Definition ban_step_fails (env : Env) (m : Message) (user : User) (e : exn)
    : Prop :=
  ban_chat_member env (chat_id m) (id user) = Some e ∨
  (ban_chat_member env (chat_id m) (id user) = None ∧
   send_message env (chat_id m) (ban_announcement user) None = inl e).

(** Alice's record after her first warning. *)
Definition alice_warned_once : UserRecord :=
  {| username := Some "alice"; first_name := Some "Alice"; last_name := None;
     warnings := 1; messages := 1 |}.

(** ** Relations between the statistics before and after a computation *)

(** [steps R m]: whatever the world, and whether [m] returns or raises, the
    statistics before and after [m] are related by [R]. *)
Definition steps {A} (R : Stats → Stats → Prop) (m : M A) : Prop :=
  ∀ w, R (stats (data w)) (stats (data (snd (m w)))).

(** Relations between the statistics before and after. *)
Definition untouched : Stats → Stats → Prop := eq.

Definition message_counted (s s' : Stats) : Prop :=
  violations_found s' = violations_found s ∧
  deleted_messages s' = deleted_messages s ∧
  banned_users s' = banned_users s.

Definition one_more_violation (s s' : Stats) : Prop :=
  violations_found s' = violations_found s + 1 ∧
  deleted_messages s' = deleted_messages s ∧
  banned_users s' = banned_users s.

Definition at_most_one_deletion (s s' : Stats) : Prop :=
  violations_found s' = violations_found s ∧
  deleted_messages s <= deleted_messages s' <= deleted_messages s + 1 ∧
  banned_users s' = banned_users s.

Definition at_most_one_ban (s s' : Stats) : Prop :=
  violations_found s' = violations_found s ∧
  deleted_messages s' = deleted_messages s ∧
  banned_users s <= banned_users s' <= banned_users s + 1.

Definition delete_then_ban (s s' : Stats) : Prop :=
  violations_found s' = violations_found s ∧
  deleted_messages s <= deleted_messages s' <= deleted_messages s + 1 ∧
  banned_users s <= banned_users s' <= banned_users s + 1.

Definition one_violation_enforced (s s' : Stats) : Prop :=
  violations_found s' = violations_found s + 1 ∧
  deleted_messages s <= deleted_messages s' <= deleted_messages s + 1 ∧
  banned_users s <= banned_users s' <= banned_users s + 1.

(** What one incoming message can do: bans and deletions never outgrow the
    violations found. *)
Definition covered_by_violations (s s' : Stats) : Prop :=
  0 <= violations_found s' - violations_found s ∧
  0 <= banned_users s' - banned_users s
    <= violations_found s' - violations_found s ∧
  0 <= deleted_messages s' - deleted_messages s
    <= violations_found s' - violations_found s.

(** ** Predicates on the events a computation adds *)

(** [emits P m]: from any world, [m] only appends events to the trace, and
    every event it appends satisfies [P]. *)
Definition emits_at {A} (P : event → Prop) (m : M A) (w : World) : Prop :=
  ∃ evs, trace (snd (m w)) = trace w ++ evs ∧ Forall P evs.

Definition emits {A} (P : event → Prop) (m : M A) : Prop :=
  ∀ w, emits_at P m w.

(** The events that show the classifier or the scorer at work. *)
Definition is_classifier_event (e : event) : bool :=
  match e with
  | CreateCompletion _ | CalculateScore _ _ _ => true
  | _ => false
  end.

Definition not_classifier (e : event) : Prop := is_classifier_event e = false.

(** ** Reachable worlds *)

Section Reachable.
Variable str_lower : string → string.
Variable flag : bool.

(** The worlds the bot can be in: it starts with zeroed statistics, handles
    one incoming message after the other, each in an environment of its
    own, and between two messages a command may change the settings. *)
Inductive reachable : World → Prop :=
| reach_start (d : DataManager) :
    stats d = stats _default_data →
    reachable {| data := d; trace := [] |}
| reach_message (env : Env) (update : Update) (w : World) :
    reachable w →
    reachable (snd (handle_message str_lower env flag update w))
| reach_command (s : Settings) (w : World) :
    reachable w →
    reachable {| data := with_settings s (data w); trace := trace w |}.

End Reachable.

(** The world after the two messages of the scenario of section 8. *)
Definition two_strikes : World :=
  snd (handle_message ascii_lower (calm Malformed) true
         (says 11 alice "spam again")
         (snd (handle_message ascii_lower (calm Malformed) true
                 (says 10 alice "this is spam") (start strict)))).

(** * More of the code: vocabulary and models *)

(** ** Words for the scorer *)

(** [base_score + additional_impact], from the three normalised values. *)
Definition blend (a b c : Q) : Q :=
  (Qmax (Qmax b c) a + (1#2) * (b + c + a - Qmax (Qmax b c) a))%Q.


(** ** Words for the orchestrator *)

(** What [handle_message] does with a text message once its sender has been
    registered and counted (lines 168-176 of [handlers.py]). *)
Definition moderate (str_lower : string → string) (env : Env) (flag : bool)
    (update : Update) (user : User) (txt : string) : M unit :=
  let! violation := detect str_lower env flag txt in
  let! verdict := getitem violation "violation" in
  when (truthy verdict) (_process_violation env update user violation) >>
  save_data env.

(** The log line that opens the handling of a text message. *)
Definition greeting (user : User) (m : Message) : event :=
  Log INFO [Lit "New message from "; Fmt (int (id user));
            Lit " in chat "; Fmt (int (chat_id m))].

(** The sender of an update, when it has one. *)
Definition sender (update : Update) : option User :=
  match message update with
  | Some m => from_user m
  | None => None
  end.

(** [relates R m]: whatever the world, and whether [m] returns or raises,
    the worlds before and after [m] are related by [R]. *)
Definition relates {A} (R : World → World → Prop) (m : M A) : Prop :=
  ∀ w, R w (snd (m w)).

(** The settings are the same. *)
Definition same_settings (w w' : World) : Prop :=
  settings (data w') = settings (data w).

(** Every record is still there, with the same identity, and its counters
    have not gone down. *)
Definition records_grow (w w' : World) : Prop :=
  ∀ k u, users (data w) !! k = Some u →
    ∃ u', users (data w') !! k = Some u' ∧
          username u' = username u ∧ first_name u' = first_name u ∧
          last_name u' = last_name u ∧
          warnings u <= warnings u' ∧ messages u <= messages u'.

(** The record under [k] is the same (or still missing). *)
Definition record_untouched (k : string) (w w' : World) : Prop :=
  users (data w') !! k = users (data w) !! k.

(** The message counters are the same: the global one and each user's. *)
Definition same_message_counts (w w' : World) : Prop :=
  messages_checked (stats (data w')) = messages_checked (stats (data w)) ∧
  ∀ k, messages <$> (users (data w') !! k) = messages <$> (users (data w) !! k).

(** The store is the same (the trace may have grown). *)
Definition same_data (w w' : World) : Prop := data w' = data w.

(** Events that reach a chat. *)
Definition is_telegram_call (e : event) : bool :=
  match e with
  | SendMessage _ _ _ | DeleteMessage _ _ | EditText _ _ _
  | BanChatMember _ _ | ReplyText _ _ _ => true
  | _ => false
  end.

Definition is_save (e : event) : bool :=
  match e with SaveData _ => true | _ => false end.

Definition is_completion (e : event) : bool :=
  match e with CreateCompletion _ => true | _ => false end.

(** What [save_data] leaves at the end of the trace: the snapshot, and the
    error line when the file could not be written. *)
Definition save_tail (env : Env) (d : DataManager) : list event :=
  if write_file env d then [SaveData d]
  else [SaveData d; Log ERROR [Lit "Failed to save data: "; FmtExn IOError]].

(** The record [_init_user_data] writes for a new sender. *)
Definition fresh_record (user : User) : UserRecord :=
  {| username := user_username user; first_name := user_first_name user;
     last_name := user_last_name user; warnings := 0; messages := 0 |}.

(** The store once the sender has been registered and counted. *)
Definition registered (user : User) (d : DataManager) : DataManager :=
  set_stats (incr_messages_checked (stats d))
    (set_users
       (<[str (id user) :=
            incr_messages (default (fresh_record user)
                                   (users d !! str (id user)))]> (users d))
       d).

(** One message was counted, and at most one violation with it. *)
Definition checked_then_found (s s' : Stats) : Prop :=
  0 <= violations_found s' - violations_found s
    <= messages_checked s' - messages_checked s.

Definition only_checked (s s' : Stats) : Prop :=
  messages_checked s' = messages_checked s + 1 ∧
  violations_found s' = violations_found s.

Definition found_not_checked (s s' : Stats) : Prop :=
  messages_checked s' = messages_checked s ∧
  0 <= violations_found s' - violations_found s <= 1.

(** The part of [moderate] that comes before [save_data]. *)
Definition screening (str_lower : string → string) (env : Env) (flag : bool)
    (update : Update) (user : User) (txt : string) : M unit :=
  let! violation := detect str_lower env flag txt in
  let! verdict := getitem violation "violation" in
  when (truthy verdict) (_process_violation env update user violation).

(** The global count of checked messages is the same. *)
Definition same_checked (w w' : World) : Prop :=
  messages_checked (stats (data w')) = messages_checked (stats (data w)).

(** The warnings of all users together. *)
Definition total_warnings (us : gmap string UserRecord) : Z :=
  map_fold (fun _ u acc => warnings u + acc) 0 us.

(** The violations found that no warning accounts for. *)
Definition balance (d : DataManager) : Z :=
  violations_found (stats d) - total_warnings (users d).

Definition same_balance (w w' : World) : Prop :=
  balance (data w') = balance (data w).

(** Another bot in the chat. *)
Definition robot : User :=
  {| id := 9; is_bot := true; user_username := Some "helper_bot";
     user_first_name := Some "Helper"; user_last_name := None |}.
(** ** The command handlers ([handlers.py], lines 15-142 and 270-274) *)

(** What a command handler receives: the update, the user PTB found in it
    ([update.effective_user]) and the words after the command
    ([context.args]). *)
Record Command := {
  update : Update;
  effective_user : option User;
  args : list string
}.

(** [word in words] for a list of [str] *)
Definition mem (word : string) (words : list string) : bool :=
  existsb (String.eqb word) words.

(** [words.remove(word)] once [word in words] is known: the first
    occurrence goes. *)
Fixpoint remove_first (word : string) (words : list string) : list string :=
  match words with
  | [] => []
  | w :: rest => if String.eqb word w then rest else w :: remove_first word rest
  end.

(** [s.lstrip('@')] *)
Fixpoint lstrip_at (s : string) : string :=
  match s with
  | String "@" rest => lstrip_at rest
  | _ => s
  end.

(** ["\n".join(f"• {word}" for word in words)] *)
Definition bullet_lines (words : list string) : string :=
  String.concat NL (map (fun word => "• " +:+ word) words).

Definition set_settings (s : Settings) (d : DataManager) : DataManager :=
  {| settings := s; users := users d; stats := stats d |}.

Definition set_sensitivity_to (level : Z) (s : Settings) : Settings :=
  {| sensitivity := level; ban_words := ban_words s;
     auto_delete := auto_delete s; warn_before_ban := warn_before_ban s |}.

Definition set_ban_words (words : list string) (s : Settings) : Settings :=
  {| sensitivity := sensitivity s; ban_words := words;
     auto_delete := auto_delete s; warn_before_ban := warn_before_ban s |}.

(** [try: body  except ValueError: handler]: any other exception goes
    through. *)
Definition try_except_ValueError {A} (body : M A) (handler : M A) : M A :=
  fun w =>
    match body w with
    | (Raise (ValueError _), w') => handler w'
    | r => r
    end.

Section Commands.

(** [str.lower] of the Python runtime. *)
Variable str_lower : string → string.

(** [int(s)]: [None] when it raises [ValueError]. *)
Variable py_int : string → option Z.

(** The order in which [users.items()] yields the records. *)
Variable items : gmap string UserRecord → list (string * UserRecord).

Variable env : Env.

(** [await update.message.reply_text(txt)] *)
Definition reply (update : Update) (txt : text) : M unit :=
  let! m := lift_option (message update) AttributeError in
  emit (ReplyText (chat_id m) (message_id m) txt) >>
  lift_call (reply_text env (chat_id m) (message_id m) txt).

Definition cmd_start (c : Command) : M unit :=
  let! user := lift_option (effective_user c) AttributeError in
  emit (Log INFO [Lit "Start command from user "; Fmt (int (id user))]) >>
  reply (update c)
    [Lit ("🛡️ Бот-модератор для Telegram" +:+ NL +:+ NL +:+
          "Автоматически удаляет спам, оскорбления и нарушителей." +:+ NL +:+
          "Добавьте меня в группу с правами администратора!")].

Definition commands : list string :=
  ["/start - Информация о боте";
   "/commands - Список всех команд";
   "/settings - Текущие настройки";
   "/set_sensitivity <1-100> - Установить строгость";
   "/add_ban_word <слово> - Добавить запрещенное слово";
   "/remove_ban_word <слово> - Удалить слово из списка";
   "/ban_list - Показать запрещенные слова";
   "/stats - Статистика модерации";
   "/user_info <@username> - Информация о пользователе"].

Definition show_commands (c : Command) : M unit :=
  reply (update c)
    [Lit ("📜 Доступные команды:" +:+ NL +:+ NL +:+ String.concat NL commands)].

Definition show_settings (c : Command) : M unit :=
  let! d := get_data in
  let s := settings d in
  reply (update c)
    [Lit ("⚙️ Текущие настройки:" +:+ NL +:+ NL +:+ "• Чувствительность: ");
     Fmt (int (sensitivity s));
     Lit ("%" +:+ NL +:+ "• Автоудаление: ");
     Fmt (VStr (if auto_delete s then "включено" else "выключено"));
     Lit (NL +:+ "• Предупреждений до бана: ");
     Fmt (int (warn_before_ban s));
     Lit (NL +:+ "• Всего запрещенных слов: ");
     Fmt (int (Z.of_nat (length (ban_words s))))].

Definition set_sensitivity (c : Command) : M unit :=
  match args c with
  | [] => reply (update c) [Lit "Укажите уровень от 1 до 100"]
  | first :: _ =>
      try_except_ValueError
        (let! level :=
           lift_option (py_int first)
                       (ValueError "invalid literal for int()") in
         if ((1 <=? level) && (level <=? 100))%Z then
           let! d := get_data in
           put_data (set_settings (set_sensitivity_to level (settings d)) d) >>
           save_data env >>
           reply (update c)
             [Lit "✅ Чувствительность установлена на "; Fmt (int level);
              Lit "%"]
         else reply (update c) [Lit "Уровень должен быть от 1 до 100"])
        (reply (update c) [Lit "Пожалуйста, укажите число от 1 до 100"])
  end.

Definition add_ban_word (c : Command) : M unit :=
  match args c with
  | [] => reply (update c) [Lit "Укажите слово для добавления"]
  | _ =>
      let word := str_lower (String.concat " " (args c)) in
      let! d := get_data in
      if mem word (ban_words (settings d)) then
        reply (update c)
          [Lit "❌ Слово '"; Fmt (VStr word); Lit "' уже в списке"]
      else
        put_data (set_settings
                    (set_ban_words (ban_words (settings d) ++ [word])
                                   (settings d)) d) >>
        save_data env >>
        reply (update c)
          [Lit "✅ Слово '"; Fmt (VStr word);
           Lit "' добавлено в черный список"]
  end.

Definition remove_ban_word (c : Command) : M unit :=
  match args c with
  | [] => reply (update c) [Lit "Укажите слово для удаления"]
  | _ =>
      let word := str_lower (String.concat " " (args c)) in
      let! d := get_data in
      if negb (mem word (ban_words (settings d))) then
        reply (update c)
          [Lit "❌ Слово '"; Fmt (VStr word); Lit "' не найдено в списке"]
      else
        put_data (set_settings
                    (set_ban_words (remove_first word (ban_words (settings d)))
                                   (settings d)) d) >>
        save_data env >>
        reply (update c)
          [Lit "✅ Слово '"; Fmt (VStr word);
           Lit "' удалено из черного списка"]
  end.

Definition show_ban_list (c : Command) : M unit :=
  let! d := get_data in
  match ban_words (settings d) with
  | [] => reply (update c) [Lit "📭 Список запрещенных слов пуст"]
  | words =>
      reply (update c)
        [Lit ("📋 Запрещенные слова:" +:+ NL +:+ NL);
         Fmt (VStr (bullet_lines words))]
  end.

Definition show_stats (c : Command) : M unit :=
  let! d := get_data in
  let s := stats d in
  reply (update c)
    [Lit ("📊 Статистика модерации:" +:+ NL +:+ NL +:+
          "• Проверено сообщений: ");
     Fmt (int (messages_checked s));
     Lit (NL +:+ "• Нарушений найдено: ");
     Fmt (int (violations_found s));
     Lit (NL +:+ "• Удалено сообщений: ");
     Fmt (int (deleted_messages s));
     Lit (NL +:+ "• Забанено пользователей: ");
     Fmt (int (banned_users s))].

(** The loop of [show_user_info]: the first record whose key is the
    identifier or whose username, in lower case, is the identifier in lower
    case. A record without username ([None]) raises [AttributeError] at
    [.lower()] unless its key already matched. *)
Fixpoint find_user (identifier : string) (records : list (string * UserRecord))
    : exn + option UserRecord :=
  match records with
  | [] => inr None
  | (uid, record) :: rest =>
      if String.eqb uid identifier then inr (Some record)
      else
        match username record with
        | None => inl AttributeError
        | Some name =>
            if String.eqb (str_lower name) (str_lower identifier)
            then inr (Some record)
            else find_user identifier rest
        end
  end.

Definition user_info (record : UserRecord) : text :=
  [Lit ("👤 Информация о пользователе:" +:+ NL +:+ NL +:+ "• Юзернейм: @");
   Fmt (opt_str (username record));
   Lit (NL +:+ "• Имя: "); Fmt (opt_str (first_name record));
   Lit " "; Fmt (opt_str (last_name record));
   Lit (NL +:+ "• Сообщений: "); Fmt (int (messages record));
   Lit (NL +:+ "• Нарушений: "); Fmt (int (warnings record));
   Lit NL].

Definition show_user_info (c : Command) : M unit :=
  match args c with
  | [] => reply (update c) [Lit "Укажите ID или @username пользователя"]
  | first :: _ =>
      let user_identifier := lstrip_at first in
      let! d := get_data in
      match find_user user_identifier (items (users d)) with
      | inl e => raise e
      | inr (Some record) => reply (update c) (user_info record)
      | inr None => reply (update c) [Lit "Пользователь не найден"]
      end
  end.

(** [error_handler(update, context)], with [context.error]. *)
Definition error_handler (update : option Update) (error : exn) : M unit :=
  emit (Log ERROR [Lit "Ошибка: "; FmtExn error]) >>
  match update with
  | Some u =>
      match message u with
      | Some _ =>
          reply u [Lit "❌ Произошла ошибка при обработке команды"]
      | None => ret tt
      end
  | None => ret tt
  end.

End Commands.

(** ** Words for the command handlers *)

(** The level [set_sensitivity] accepts, if any. *)
Definition accepted_level (py_int : string → option Z) (c : Command)
    : option Z :=
  match args c with
  | [] => None
  | first :: _ =>
      match py_int first with
      | Some level =>
          if ((1 <=? level) && (level <=? 100))%Z then Some level else None
      | None => None
      end
  end.

(** The word [add_ban_word] and [remove_ban_word] work on. *)
Definition command_word (str_lower : string → string) (c : Command) : string :=
  str_lower (String.concat " " (args c)).

(** Settings a command may leave behind: the sensitivity within 1..100 and
    no ban word twice. *)
Definition tidy (s : Settings) : Prop :=
  1 <= sensitivity s <= 100 ∧ NoDup (ban_words s).

(** A record matches the identifier of [show_user_info]. *)
Definition matches (str_lower : string → string) (identifier : string)
    (entry : string * UserRecord) : Prop :=
  fst entry = identifier ∨
  ∃ name, username (snd entry) = Some name ∧
          str_lower name = str_lower identifier.

(** Events that only tell something: a log line or a reply. *)
Definition is_answer (e : event) : bool :=
  match e with Log _ _ | ReplyText _ _ _ => true | _ => false end.

(** The store is the same and only log lines and replies were added. *)
Definition only_answers (w w' : World) : Prop :=
  data w' = data w ∧
  ∃ evs, trace w' = trace w ++ evs ∧ Forall (fun e => is_answer e = true) evs.

(** The snapshots written during [m]. *)
Definition new_saves {A} (m : M A) (w : World) : list event :=
  List.filter is_save (new_events m w).

(** An entry [show_user_info] walks past: it has a user name and neither
    its key nor its name is the identifier. *)
Definition passed_over (str_lower : string → string) (identifier : string)
    (entry : string * UserRecord) : Prop :=
  fst entry ≠ identifier ∧
  ∃ name, username (snd entry) = Some name ∧
          str_lower name ≠ str_lower identifier.

(** A store whose only user has no user name, and a request for a name. *)
Definition nameless : UserRecord :=
  {| username := None; first_name := Some "Bob"; last_name := None;
     warnings := 0; messages := 3 |}.

Definition with_users (u : gmap string UserRecord) (d : DataManager)
    : DataManager :=
  {| settings := settings d; users := u; stats := stats d |}.

Definition who_is (name : string) : Command :=
  {| update := says 22 alice ("/user_info " +:+ name);
     effective_user := Some alice; args := [name] |}.

(** Two commands of an administrator, for the examples. *)
Definition shout : Command :=
  {| update := says 20 alice "/add_ban_word Free MONEY";
     effective_user := Some alice; args := ["Free"; "MONEY"] |}.

Definition unspam : Command :=
  {| update := says 21 alice "/remove_ban_word SPAM";
     effective_user := Some alice; args := ["SPAM"] |}.


(** ** The data file ([DataManager._load_data] and what it calls) *)

(** The handlers above see the data file through [write_file] only. Here
    the file itself is modelled, for the code that reads it back. What is
    kept of the file system: whether [user_data.json] exists, whether it can
    be opened for reading and for writing, and what [json.load] makes of its
    content, which is either nothing (the content is not JSON, or not UTF-8)
    or a value. [json.dump] followed by [json.load] is taken to give back the
    value that was dumped; a write that fails leaves the file as it was. *)
Module Manager.

Inductive file :=
| Unparsable
| Document (v : value).

Record Disk := {
  content : option file;      (* [None]: there is no such file *)
  readable : bool;
  writable : bool
}.

(** The attributes of the [DataManager] object; [__init__] only annotates
    them, they are unset until [_load_data] assigns them. *)
Record Instance := {
  self_settings : option value;
  self_users : option value;
  self_stats : option value
}.

Inductive severity := INFO | ERROR | CRITICAL.

Inductive entry :=
| Wrote (v : value)
| Logged (lvl : severity) (msg : text).

Record Files := {
  disk : Disk;
  self : Instance;
  journal : list entry
}.

Definition F (A : Type) : Type := Files → outcome A * Files.

Definition unit_ {A} (a : A) : F A := fun f => (Return a, f).

Definition fail {A} (e : exn) : F A := fun f => (Raise e, f).

Definition and_then {A B} (m : F A) (k : A → F B) : F B :=
  fun f =>
    match m f with
    | (Return a, f') => k a f'
    | (Raise e, f') => (Raise e, f')
    end.

Notation "'do!' x ':=' m 'in' k" := (and_then m (fun x => k))
  (at level 10, x name, m at level 100, k at level 200).
Notation "m 'then!' k" := (and_then m (fun _ => k))
  (at level 100, k at level 200, right associativity).

Definition note (e : entry) : F unit :=
  fun f => (Return tt,
            {| disk := disk f; self := self f; journal := journal f ++ [e] |}).

Definition the_disk : F Disk := fun f => (Return (disk f), f).

Definition the_self : F Instance := fun f => (Return (self f), f).

Definition assign (update : Instance → Instance) : F unit :=
  fun f => (Return tt,
            {| disk := disk f; self := update (self f);
               journal := journal f |}).

Definition set_self_settings (v : value) (i : Instance) : Instance :=
  {| self_settings := Some v; self_users := self_users i;
     self_stats := self_stats i |}.

Definition set_self_users (v : value) (i : Instance) : Instance :=
  {| self_settings := self_settings i; self_users := Some v;
     self_stats := self_stats i |}.

Definition set_self_stats (v : value) (i : Instance) : Instance :=
  {| self_settings := self_settings i; self_users := self_users i;
     self_stats := Some v |}.

(** [self.settings] and the like: an attribute that was never assigned
    raises [AttributeError]. *)
Definition attribute (get : Instance → option value) : F value :=
  do! i := the_self in
  match get i with Some v => unit_ v | None => fail AttributeError end.

(** [os.path.exists(self.DATA_FILE)] *)
Definition path_exists : F bool :=
  do! d := the_disk in
  unit_ (match content d with Some _ => true | None => false end).

(** [with open(self.DATA_FILE, 'w', encoding='utf-8') as f:
       json.dump(v, f, ensure_ascii=False, indent=2)] *)
Definition dump_to_file (v : value) : F unit :=
  fun f =>
    if writable (disk f) then
      (Return tt,
       {| disk := {| content := Some (Document v);
                     readable := readable (disk f);
                     writable := writable (disk f) |};
          self := self f;
          journal := journal f ++ [Wrote v] |})
    else (Raise IOError, f).

(** [with open(self.DATA_FILE, 'r', encoding='utf-8') as f:
       data = json.load(f)] *)
Definition load_from_file : F value :=
  do! d := the_disk in
  if negb (readable d) then fail IOError
  else match content d with
       | None => fail IOError
       | Some Unparsable => fail JSONDecodeError
       | Some (Document v) => unit_ v
       end.

(** [key in data], for a [str] key and whatever [json.load] returned: a
    key of a dict, an element of a list, a substring of a string; anything
    else is not iterable. *)
Definition py_in (key : string) (data : value) : exn + bool :=
  match data with
  | VDict d => inr (bool_decide (is_Some (d !! key)))
  | VList l =>
      inr (existsb (fun x => match x with
                             | VStr s => String.eqb s key
                             | _ => false
                             end) l)
  | VStr s => inr (contains key s)
  | VNone | VBool _ | VNum _ => inl TypeError
  end.

(** [all(key in data for key in keys)] *)
Fixpoint all_in (keys : list string) (data : value) : exn + bool :=
  match keys with
  | [] => inr true
  | key :: rest =>
      match py_in key data with
      | inl e => inl e
      | inr false => inr false
      | inr true => all_in rest data
      end
  end.

(** [data[key]] for a [str] key: only a dict can be indexed by it. *)
Definition subscript (data : value) (key : string) : F value :=
  match data with
  | VDict d =>
      match d !! key with Some v => unit_ v | None => fail (KeyError key) end
  | _ => fail TypeError
  end.

(** [DataManager._default_data], as the dict it returns. *)
Definition default_settings : value :=
  VDict {[ "sensitivity" := int 70;
           "ban_words" := VList [VStr "реклама"; VStr "купить";
                                 VStr "http://"; VStr "telegram.me";
                                 VStr "оскорбление"];
           "auto_delete" := VBool true;
           "warn_before_ban" := int 3 ]}.

Definition default_users : value := VDict ∅.

Definition default_stats : value :=
  VDict {[ "messages_checked" := int 0;
           "violations_found" := int 0;
           "deleted_messages" := int 0;
           "banned_users" := int 0 ]}.

Definition _default_data : value :=
  VDict {[ "settings" := default_settings;
           "users" := default_users;
           "stats" := default_stats ]}.

(** [DataManager._create_default_data_file] *)
Definition _create_default_data_file : F unit :=
  fun f =>
    match dump_to_file _default_data f with
    | (Return _, f') =>
        note (Logged INFO [Lit "Created new data file with default settings"])
             f'
    | (Raise IOError, f') =>
        (note (Logged CRITICAL [Lit "Failed to create data file: ";
                                FmtExn IOError]) then!
         fail IOError) f'
    | (Raise e, f') => (Raise e, f')
    end.

(** The body of the [try] of [_load_data]. *)
Definition load_body : F unit :=
  do! data := load_from_file in
  match all_in ["settings"; "users"; "stats"] data with
  | inl e => fail e
  | inr false => fail (ValueError "Invalid data structure")
  | inr true =>
      do! v := subscript data "settings" in
      assign (set_self_settings v) then!
      do! v := subscript data "users" in
      assign (set_self_users v) then!
      do! v := subscript data "stats" in
      assign (set_self_stats v)
  end.

(** [except (json.JSONDecodeError, ValueError)] *)
Definition is_decode_or_value_error (e : exn) : bool :=
  match e with
  | JSONDecodeError | ValueError _ => true
  | _ => false
  end.

(** [if not os.path.exists(self.DATA_FILE):
       self._create_default_data_file()] *)
Definition ensure_file : F unit :=
  do! there := path_exists in
  if negb there then _create_default_data_file else unit_ tt.

(** What the [except] clause does before it calls [_load_data] again. *)
Definition recover (e : exn) : F unit :=
  note (Logged ERROR [Lit "Error loading data: "; FmtExn e;
                      Lit ", creating new file"]) then!
  _create_default_data_file.

(** [DataManager._load_data]. The method calls itself from its [except]
    clause; [fuel] bounds the depth of these calls, and [None] says that the
    bound was hit. *)
Fixpoint _load_data (fuel : nat) (f : Files) : option (outcome unit * Files) :=
  match fuel with
  | O => None
  | S fuel =>
      match ensure_file f with
      | (Raise e, f1) => Some (Raise e, f1)
      | (Return _, f1) =>
          match load_body f1 with
          | (Return _, f2) => Some (Return tt, f2)
          | (Raise e, f2) =>
              if is_decode_or_value_error e then
                match recover e f2 with
                | (Raise e', f3) => Some (Raise e', f3)
                | (Return _, f3) => _load_data fuel f3
                end
              else Some (Raise e, f2)
          end
      end
  end.

Definition unset : Instance :=
  {| self_settings := None; self_users := None; self_stats := None |}.

(** [DataManager.__init__] on a given disk. *)
Definition __init__ (fuel : nat) (d : Disk) : option (outcome unit * Files) :=
  _load_data fuel {| disk := d; self := unset; journal := [] |}.

(** [DataManager.save_data] *)
Definition save_data : F unit :=
  do! settings := attribute self_settings in
  do! users := attribute self_users in
  do! stats := attribute self_stats in
  let data := VDict {[ "settings" := settings; "users" := users;
                       "stats" := stats ]} in
  fun f =>
    match dump_to_file data f with
    | (Raise IOError, f') =>
        note (Logged ERROR [Lit "Failed to save data: "; FmtExn IOError]) f'
    | r => r
    end.

(** *** Words for the statements about the file *)

(** The attributes after a load of the default file. *)
Definition defaults : Instance :=
  {| self_settings := Some default_settings;
     self_users := Some default_users;
     self_stats := Some default_stats |}.

(** The three attributes hold the three top-level values of [v]. *)
Definition holds (i : Instance) (v : value) : Prop :=
  ∃ d, v = VDict d ∧ self_settings i = d !! "settings"
       ∧ self_users i = d !! "users" ∧ self_stats i = d !! "stats"
       ∧ is_Some (d !! "settings") ∧ is_Some (d !! "users")
       ∧ is_Some (d !! "stats").

(** A file [_load_data] throws away: it is not there, it is not JSON, or
    the structure check says no. *)
Definition discarded (c : option file) : Prop :=
  match c with
  | None | Some Unparsable => True
  | Some (Document v) => all_in ["settings"; "users"; "stats"] v = inr false
  end.

(** A document [_load_data] cannot digest: the structure check itself
    fails, or it passes on something that is not a dict. *)
Definition indigestible (v : value) : Prop :=
  match v with
  | VDict _ => False
  | _ => all_in ["settings"; "users"; "stats"] v ≠ inr false
  end.

Definition wrote (e : entry) : bool :=
  match e with Wrote _ => true | Logged _ _ => false end.

(** The disk [d] holding the document [v]. *)
Definition holding (v : value) (d : Disk) : Disk :=
  {| content := Some (Document v); readable := readable d;
     writable := writable d |}.

(** The file [_create_default_data_file] leaves, and what it logs. *)
Definition created (f : Files) : Files :=
  {| disk := holding _default_data (disk f); self := self f;
     journal := journal f ++
       [Wrote _default_data;
        Logged INFO [Lit "Created new data file with default settings"]] |}.

Definition not_created (f : Files) : Files :=
  {| disk := disk f; self := self f;
     journal := journal f ++
       [Logged CRITICAL [Lit "Failed to create data file: ";
                         FmtExn IOError]] |}.

(** The attributes after a load of the dict with these three values. *)
Definition loaded (s u t : value) : Instance :=
  {| self_settings := Some s; self_users := Some u; self_stats := Some t |}.

(** What the [except] clause of [_load_data] logs for the content [c]. *)
Definition load_error (c : file) : exn :=
  match c with
  | Unparsable => JSONDecodeError
  | Document _ => ValueError "Invalid data structure"
  end.

Definition complained (c : file) (f : Files) : Files :=
  {| disk := disk f; self := self f;
     journal := journal f ++
       [Logged ERROR [Lit "Error loading data: "; FmtExn (load_error c);
                      Lit ", creating new file"]] |}.

(** The object and the journal of a process that has just started. *)
Definition boot (d : Disk) : Files :=
  {| disk := d; self := unset; journal := [] |}.

(** The dict [save_data] dumps. *)
Definition snapshot (s u t : value) : value :=
  VDict {[ "settings" := s; "users" := u; "stats" := t ]}.


(** Disks for the examples. *)
Definition empty_disk : Disk :=
  {| content := None; readable := true; writable := true |}.

Definition read_only (c : option file) : Disk :=
  {| content := c; readable := true; writable := false |}.

Definition half_a_store : value :=
  VDict {[ "settings" := VDict ∅; "users" := VDict ∅ ]}.

Definition three_names : value :=
  VList [VStr "stats"; VStr "users"; VStr "settings"].

End Manager.
(** * Properties *)

(** ** The scorer *)

Module ScorerFacts.
Import Scorer.
Local Open Scope Q_scope.





(** The threshold decreases as the sensitivity grows. *)
Lemma threshold_antitone (s1 s2 : Z) :
  (s1 <= s2)%Z → sensitivity_threshold s2 <= sensitivity_threshold s1.
Proof.
  intros H. unfold sensitivity_threshold.
  assert (inject_Z s1 <= inject_Z s2) by (rewrite <- Zle_Qle; exact H).
  unfold Qdiv. change (/ 100) with (1 # 100). lra.
Qed.

(** [extra] is half the sum of the two values that are not the maximum. *)
Lemma additional_impact_two_smaller (a b c : Q) :
  c <= a → b <= a →
  (1#2) * (b + c + a - Qmax (Qmax b c) a) == (1#2) * (b + c).
Proof.
  intros Hc Hb.
  rewrite (Q.max_r (Qmax b c) a) by (apply Q.max_lub; assumption).
  ring.
Qed.

(** The worked numbers of section 8 of the specification. *)
Example threshold_70 : sensitivity_threshold 70 == 31.
Proof. reflexivity. Qed.

Example threshold_50 : sensitivity_threshold 50 == 51.
Proof. reflexivity. Qed.

Example threshold_100 : sensitivity_threshold 100 == 1.
Proof. reflexivity. Qed.

Example score_10_20_5 : _calculate_violation_score 10 20 5 == 275 # 10.
Proof. reflexivity. Qed.

Example verdict_10_20_5 :
  is_violation (_calculate_violation_score 10 20 5) 50 = false.
Proof. reflexivity. Qed.

Example score_all_100 : _calculate_violation_score 100 100 100 == 100.
Proof. reflexivity. Qed.

Example score_all_0 : _calculate_violation_score 0 0 0 == 0.
Proof. reflexivity. Qed.


(** C7. With the three sub-scores fixed, a verdict of violation at
    sensitivity [s1] is still a violation at every sensitivity [s2 >= s1]. *)
Theorem verdict_monotone_in_sensitivity (spam toxic danger : Q) (s1 s2 : Z) :
  (1 <= s1)%Z → (s1 <= s2)%Z → (s2 <= 100)%Z →
  is_violation (_calculate_violation_score spam toxic danger) s1 = true →
  is_violation (_calculate_violation_score spam toxic danger) s2 = true.
Proof.
  intros _ H12 _. unfold is_violation. rewrite !Qle_bool_iff.
  intros H. eapply Qle_trans; [apply threshold_antitone; exact H12 | exact H].
Qed.

Lemma verdict_monotone_in_sensitivity_witness :
  is_violation (_calculate_violation_score 10 60 20) 50 = true ∧
  is_violation (_calculate_violation_score 10 60 20) 80 = true.
Proof.
  split; [reflexivity|].
  apply (verdict_monotone_in_sensitivity 10 60 20 50 80);
    [lia | lia | lia | reflexivity].
Defined.

End ScorerFacts.

(** ** The rule filter *)

Module RuleFilterFacts.
Import Run.

Lemma append_String (c : ascii) (a b : string) :
  String c a +:+ b = String c (a +:+ b).
Proof. reflexivity. Qed.

Lemma append_empty (b : string) : "" +:+ b = b.
Proof. reflexivity. Qed.

Lemma prefix_spec (a b : string) :
  String.prefix a b = true ↔ ∃ post, b = a +:+ post.
Proof.
  revert b. induction a as [|c a IH]; intros b.
  - split; [intros _; exists b; reflexivity | intros _; destruct b; reflexivity].
  - destruct b as [|c' b]; simpl.
    + split; [discriminate | intros [post H]; discriminate].
    + destruct (Ascii.ascii_dec c c') as [->|Hne].
      * rewrite IH. split; intros [post H]; exists post.
        -- rewrite append_String. f_equal. exact H.
        -- rewrite append_String in H. injection H as H. exact H.
      * split; [discriminate | intros [post H]].
        rewrite append_String in H. injection H as H _. congruence.
Qed.

(** [needle in haystack] holds exactly when the haystack is some prefix,
    then the needle, then some suffix. *)
Lemma contains_spec (needle haystack : string) :
  contains needle haystack = true ↔
  ∃ pre post, haystack = pre +:+ needle +:+ post.
Proof.
  induction haystack as [|c h IH].
  - change (contains needle "") with (String.prefix needle "" || false).
    rewrite orb_false_r, prefix_spec. split.
    + intros [post H]. exists "", post. exact H.
    + intros [pre [post H]]. destruct pre; [exists post; exact H | discriminate].
  - change (contains needle (String c h))
      with (String.prefix needle (String c h) || contains needle h).
    rewrite orb_true_iff, prefix_spec, IH. split.
    + intros [[post H] | [pre [post H]]].
      * exists "", post. exact H.
      * exists (String c pre), post. rewrite append_String. f_equal. exact H.
    + intros [pre [post H]]. destruct pre as [|c' pre].
      * left. exists post. exact H.
      * right. rewrite append_String in H. injection H as _ H.
        exists pre, post. exact H.
Qed.

Lemma check_ban_words_spec (lower : string → string) (words : list string)
    (txt : string) :
  check_ban_words lower words txt = true ↔
  ∃ word, In word words ∧ contains word (lower txt) = true.
Proof. unfold check_ban_words. apply existsb_exists. Qed.

Example check_buy_cheap_stuff :
  check_ban_words ascii_lower ["cheap"] "Buy CHEAP stuff" = true.
Proof. reflexivity. Qed.

Example check_concatenate :
  check_ban_words ascii_lower ["cat"] "concatenate" = true.
Proof. reflexivity. Qed.

End RuleFilterFacts.

(** ** How a computation moves the statistics *)

Module Counters.

Arguments str : simpl never.

Ltac relate :=
  unfold untouched, message_counted, one_more_violation,
    at_most_one_deletion, at_most_one_ban, delete_then_ban,
    one_violation_enforced, covered_by_violations in *;
  intros; subst; simpl in *; intuition lia.

Section Rules.
Context {A B : Type}.

Lemma steps_weaken (R R' : Stats → Stats → Prop) (m : M A) :
  steps R m → (∀ x y, R x y → R' x y) → steps R' m.
Proof. intros H HR w. apply HR, H. Qed.

Lemma steps_bind (R1 R2 R : Stats → Stats → Prop) (m : M A) (k : A → M B) :
  steps R1 m → (∀ a, steps R2 (k a)) →
  (∀ x y, R1 x y → R x y) →
  (∀ x y z, R1 x y → R2 y z → R x z) →
  steps R (bind m k).
Proof.
  intros Hm Hk Hraise Hseq w. unfold bind.
  specialize (Hm w). destruct (m w) as [[a|e] w1]; simpl in *.
  - eapply Hseq; [exact Hm | apply Hk].
  - apply Hraise, Hm.
Qed.

Lemma steps_try_except (R1 R2 R : Stats → Stats → Prop) (body : M A)
    (handler : exn → M A) :
  steps R1 body → (∀ e, steps R2 (handler e)) →
  (∀ x y, R1 x y → R x y) →
  (∀ x y z, R1 x y → R2 y z → R x z) →
  steps R (try_except body handler).
Proof.
  intros Hm Hk Hret Hseq w. unfold try_except.
  specialize (Hm w). destruct (body w) as [[a|e] w1]; simpl in *.
  - apply Hret, Hm.
  - eapply Hseq; [exact Hm | apply Hk].
Qed.

(** Sequencing after a computation that leaves the statistics alone. *)
Lemma steps_after (R : Stats → Stats → Prop) (m : M A) (k : A → M B) :
  steps untouched m → (∀ a, steps R (k a)) → (∀ x, R x x) →
  steps R (bind m k).
Proof.
  intros Hm Hk Hrefl. apply (steps_bind untouched R R); try assumption.
  - intros x y ->. apply Hrefl.
  - intros x y z -> H. exact H.
Qed.

Lemma steps_ret (a : A) : steps untouched (ret a).
Proof. intros w. reflexivity. Qed.

Lemma steps_raise (e : exn) : steps untouched (raise (A := A) e).
Proof. intros w. reflexivity. Qed.

Lemma steps_lift_option (o : option A) (e : exn) :
  steps untouched (lift_option o e).
Proof. destruct o; [apply steps_ret | apply steps_raise]. Qed.

End Rules.

Lemma steps_emit (e : event) : steps untouched (emit e).
Proof. intros w. reflexivity. Qed.

Lemma steps_get_data : steps untouched get_data.
Proof. intros w. reflexivity. Qed.

Lemma steps_lift_call (o : option exn) : steps untouched (lift_call o).
Proof. destruct o; [apply steps_raise | apply steps_ret]. Qed.

Lemma steps_when (R : Stats → Stats → Prop) (b : bool) (m : M unit) :
  steps R m → (∀ x, R x x) → steps R (when b m).
Proof.
  intros Hm Hrefl. destruct b; [exact Hm|].
  intros w. apply Hrefl.
Qed.

Lemma steps_modify_user (user_id : string) (f : UserRecord → UserRecord) :
  steps untouched (modify_user user_id f).
Proof.
  intros w. unfold modify_user, bind, get_data, lift_option, put_data.
  destruct (users (data w) !! user_id); reflexivity.
Qed.

Lemma steps_modify_stats (R : Stats → Stats → Prop) (f : Stats → Stats) :
  (∀ s, R s (f s)) → steps R (modify_stats f).
Proof. intros H w. apply H. Qed.

Lemma steps_getitem (d : gmap string value) (key : string) :
  steps untouched (getitem d key).
Proof. apply steps_lift_option. Qed.

(** A sequence of computations that all leave the statistics alone. *)
Ltac quiet :=
  repeat first
    [ apply steps_ret | apply steps_raise | apply steps_emit
    | apply steps_get_data | apply steps_lift_option | apply steps_lift_call
    | apply steps_getitem | apply steps_modify_user
    | apply (steps_after untouched); [| intros ? | reflexivity]
    | apply (steps_when untouched); [| reflexivity]
    | match goal with
      | |- steps _ (match ?x with _ => _ end) => destruct x
      | |- steps _ (if ?x then _ else _) => destruct x
      end ].

Section Handlers.
Variable str_lower : string → string.
Variable env : Env.
Variable analyzer_data_manager : bool.

Lemma steps_analyze_message (txt : string) :
  steps untouched (analyze_message env analyzer_data_manager txt).
Proof.
  unfold analyze_message.
  destruct analyzer_data_manager; simpl; [|apply steps_raise].
  apply (steps_try_except untouched untouched); [| intros e | relate | relate].
  - unfold analyze_body, call_calculate_violation_score, as_dict. quiet.
  - quiet.
Qed.

Lemma steps_save_data : steps untouched (save_data env).
Proof. unfold save_data. quiet. Qed.

Lemma steps_send (chat : Z) (txt : text) (reply_to : option Z) :
  steps untouched (send env chat txt reply_to).
Proof. unfold send. quiet. Qed.

Lemma steps_send_warning (update : Update) (user : User)
    (violation : gmap string value) :
  steps untouched (_send_warning env update user violation).
Proof. unfold _send_warning, warning_text. quiet. Qed.

Lemma steps_delete_violation_message (message : option Message)
    (warning_msg : SentMessage) :
  steps at_most_one_deletion (_delete_violation_message env message warning_msg).
Proof.
  unfold _delete_violation_message.
  apply (steps_try_except at_most_one_deletion untouched);
    [| intros e; quiet | relate | relate].
  apply (steps_after at_most_one_deletion); [quiet | intros m | relate].
  apply (steps_after at_most_one_deletion); [quiet | intros _ | relate].
  apply (steps_after at_most_one_deletion); [quiet | intros _ | relate].
  apply steps_modify_stats. intros s. relate.
Qed.

Lemma steps_ban_user (update : Update) (user : User)
    (violation : gmap string value) :
  steps at_most_one_ban (_ban_user env update user violation).
Proof.
  unfold _ban_user.
  apply (steps_try_except at_most_one_ban untouched);
    [| intros e; quiet | relate | relate].
  apply (steps_after at_most_one_ban); [quiet | intros m | relate].
  apply (steps_after at_most_one_ban); [quiet | intros _ | relate].
  apply (steps_after at_most_one_ban); [quiet | intros _ | relate].
  apply (steps_bind at_most_one_ban untouched);
    [apply steps_modify_stats; intros s; relate | intros _ | relate | relate].
  quiet.
Qed.

Lemma steps_process_violation (update : Update) (user : User)
    (violation : gmap string value) :
  steps one_violation_enforced (_process_violation env update user violation).
Proof.
  unfold _process_violation.
  apply (steps_bind one_more_violation delete_then_ban);
    [apply steps_modify_stats; intros s; relate | intros _ | relate | relate].
  apply (steps_after delete_then_ban); [quiet | intros _ | relate].
  apply (steps_after delete_then_ban);
    [apply steps_send_warning | intros warning_msg | relate].
  apply (steps_after delete_then_ban); [quiet | intros d | relate].
  apply (steps_bind at_most_one_deletion at_most_one_ban);
    [| intros _ | relate | relate].
  - apply steps_when; [apply steps_delete_violation_message | relate].
  - apply (steps_after at_most_one_ban); [quiet | intros d' | relate].
    apply (steps_after at_most_one_ban); [quiet | intros u | relate].
    apply steps_when; [apply steps_ban_user | relate].
Qed.

Lemma steps_register_sender (user : User) :
  steps message_counted (register_sender user).
Proof.
  unfold register_sender, _update_user_stats, _init_user_data.
  apply (steps_after message_counted); [quiet | intros d | relate].
  apply (steps_after message_counted); [| intros _ | relate].
  - apply (steps_when untouched); [| reflexivity].
    intros w. reflexivity.
  - apply (steps_after message_counted); [quiet | intros _ | relate].
    apply steps_modify_stats. intros s. relate.
Qed.

Lemma steps_detect (txt : string) :
  steps untouched (detect str_lower env analyzer_data_manager txt).
Proof.
  unfold detect, _check_ban_words.
  apply (steps_after untouched); [quiet | intros b | reflexivity].
  destruct b; [apply steps_ret | apply steps_analyze_message].
Qed.

Lemma steps_handle_message (update : Update) :
  steps covered_by_violations
        (handle_message str_lower env analyzer_data_manager update).
Proof.
  unfold handle_message.
  apply (steps_try_except covered_by_violations untouched);
    [| intros e; unfold on_error; quiet | relate | relate].
  unfold handle_body.
  destruct (message update) as [m|];
    [| eapply steps_weaken; [apply steps_ret | relate]].
  destruct (text_of m) as [txt|];
    [| eapply steps_weaken; [apply steps_ret | relate]].
  unfold handle_text.
  apply (steps_after covered_by_violations); [quiet | intros user | relate].
  apply (steps_after covered_by_violations); [quiet | intros _ | relate].
  destruct (is_bot user);
    [eapply steps_weaken; [apply steps_emit | relate]|].
  apply (steps_bind message_counted covered_by_violations);
    [apply steps_register_sender | intros _ | relate | relate].
  apply (steps_after covered_by_violations);
    [apply steps_detect | intros violation | relate].
  apply (steps_after covered_by_violations); [quiet | intros verdict | relate].
  apply (steps_bind covered_by_violations untouched);
    [| intros _; apply steps_save_data | relate | relate].
  apply steps_when; [| relate].
  eapply steps_weaken; [apply steps_process_violation | relate].
Qed.

End Handlers.

End Counters.

(** ** Running the monad by hand *)

Ltac exec :=
  unfold handle_message, handle_body, on_error, handle_text, register_sender,
    detect, _check_ban_words, _update_user_stats, _init_user_data,
    _process_violation, _send_warning, warning_text, send,
    _delete_violation_message, _ban_user, save_data,
    analyze_message, analyze_body, call_calculate_violation_score, as_dict,
    getitem, modify_stats, modify_user, when, lift_option, lift_call,
    try_except, bind, get_data, put_data, emit, ret, raise in *;
  cbn in *.

(** Case analysis on every answer the goal still waits for. *)
Ltac branches :=
  repeat (case_match; cbn in *; simplify_eq; cbn in *).

Lemma drop_old_events (old new : list event) :
  drop (length old) (old ++ new) = new.
Proof. induction old; [reflexivity | assumption]. Qed.

Lemma bind_return {A B} (m : M A) (k : A → M B) (w : World) (a : A)
    (w' : World) :
  m w = (Return a, w') → bind m k w = k a w'.
Proof. intros H. unfold bind. rewrite H. reflexivity. Qed.

Lemma bind_raise {A B} (m : M A) (k : A → M B) (w : World) (e : exn)
    (w' : World) :
  m w = (Raise e, w') → bind m k w = (Raise e, w').
Proof. intros H. unfold bind. rewrite H. reflexivity. Qed.

(** ** The analyzer *)

Module AnalyzerFacts.
Import Run.

Arguments str : simpl never.

Section Analyzer.
Variable env : Env.

Lemma analyze_body_keeps_data (txt : string) (w : World) :
  data (snd (analyze_body env txt w)) = data w.
Proof. exec. branches; reflexivity. Qed.

(** When the body of the [try] returns, the classifier answered with a dict
    that holds three numbers, and the result is that dict rescored. *)
Lemma analyze_body_returns (txt : string) (w : World)
    (r : gmap string value) (w' : World) :
  analyze_body env txt w = (Return r, w') →
  ∃ d vs vt vd spam toxic danger,
    create_completion env txt = Parsed (VDict d) ∧
    d !! "spam" = Some vs ∧ d !! "toxic" = Some vt ∧ d !! "danger" = Some vd ∧
    as_number vs = Some spam ∧ as_number vt = Some toxic ∧
    as_number vd = Some danger ∧
    r = rescored d spam toxic danger (sensitivity (settings (data w))).
Proof.
  exec. intros H. branches.
  eexists _, _, _, _, _, _, _. repeat split; eassumption.
Qed.

Lemma analyze_message_never_raises (txt : string) (w : World) :
  ∃ r w', analyze_message env true txt w = (Return r, w').
Proof.
  unfold analyze_message, try_except. simpl.
  destruct (analyze_body env txt w) as [[r|e] w']; eauto.
Qed.

(** The three kinds of failure the [try] covers. *)
Lemma classifier_call_raises (txt : string) (w : World) (e : exn) :
  create_completion env txt = CreateRaises e →
  fst (analyze_body env txt w) = Raise e.
Proof. intros H. exec. rewrite H. reflexivity. Qed.

Lemma response_parsing_raises (txt : string) (w : World) :
  create_completion env txt = Malformed →
  fst (analyze_body env txt w) = Raise JSONDecodeError.
Proof. intros H. exec. rewrite H. reflexivity. Qed.

Lemma key_missing_raises (txt : string) (w : World) (d : gmap string value) :
  create_completion env txt = Parsed (VDict d) →
  d !! "spam" = None ∨ d !! "toxic" = None ∨ d !! "danger" = None →
  ∃ key, fst (analyze_body env txt w) = Raise (KeyError key).
Proof.
  intros H Hk. exec. rewrite H. cbn.
  destruct (d !! "spam"); cbn; [|eauto].
  destruct (d !! "toxic"); cbn; [|eauto].
  destruct (d !! "danger"); cbn; [|eauto].
  exfalso. destruct Hk as [?|[?|?]]; discriminate.
Qed.

Lemma score_computation_raises (txt : string) (w : World)
    (d : gmap string value) (vs vt vd : value) :
  create_completion env txt = Parsed (VDict d) →
  d !! "spam" = Some vs → d !! "toxic" = Some vt → d !! "danger" = Some vd →
  as_number vs = None ∨ as_number vt = None ∨ as_number vd = None →
  fst (analyze_body env txt w) = Raise TypeError.
Proof.
  intros H Hs Ht Hd Hn. exec. rewrite H. cbn. rewrite Hs, Ht, Hd. cbn.
  destruct (as_number vs); cbn; [|reflexivity].
  destruct (as_number vt); cbn; [|reflexivity].
  destruct (as_number vd); cbn; [|reflexivity].
  exfalso. destruct Hn as [?|[?|?]]; discriminate.
Qed.

End Analyzer.

Example number_as_text_is_an_analysis_error :
  fst (analyze_message
         (calm (Parsed (VDict (<["spam" := VStr "10"]> (<["toxic" := int 0]>
                                (<["danger" := int 0]> ∅))))))
         true "hello" (start _default_data))
  = Return analysis_error.
Proof. vm_compute. reflexivity. Qed.

(** C3. Whatever the message text, if the body of the [try] raises an
    exception [e] (the classifier call, the parsing of its response or the
    score computation), [analyze_message] does not raise: it logs the error
    and returns the safe default, all three sub-scores and the composite 0,
    no violation, reason "analysis error"; the store is left as it was. *)
Theorem analyze_message_fails_open (env : Env) (txt : string) (w : World)
    (e : exn) (w' : World) :
  analyze_body env txt w = (Raise e, w') →
  analyze_message env true txt w =
    (Return analysis_error,
     {| data := data w;
        trace := trace w' ++ [Log ERROR [Lit "Analysis error: "; FmtExn e]] |})
  ∧ analysis_error !! "spam" = Some (int 0)
  ∧ analysis_error !! "toxic" = Some (int 0)
  ∧ analysis_error !! "danger" = Some (int 0)
  ∧ analysis_error !! "violation_score" = Some (int 0)
  ∧ analysis_error !! "violation" = Some (VBool false)
  ∧ analysis_error !! "reason" = Some (VStr "Ошибка анализа").
Proof.
  intros H. split; [|repeat split; vm_compute; reflexivity].
  pose proof (analyze_body_keeps_data env txt w) as Hdata.
  unfold analyze_message, try_except. simpl. rewrite H in *. simpl in Hdata.
  unfold bind, emit, ret. simpl. rewrite Hdata. reflexivity.
Qed.

Lemma analyze_message_fails_open_witness :
  analyze_message (calm (CreateRaises (APIError "timeout"))) true "hello"
                  (start _default_data)
  = (Return analysis_error,
     {| data := _default_data;
        trace := [Log INFO [Lit "Analyzing message with sensitivity ";
                            Fmt (int 70); Lit "%"];
                  CreateCompletion "hello";
                  Log ERROR [Lit "Analysis error: ";
                             FmtExn (APIError "timeout")]] |}).
Proof.
  apply (analyze_message_fails_open
           (calm (CreateRaises (APIError "timeout"))) "hello"
           (start _default_data) (APIError "timeout")
           {| data := _default_data;
              trace := [Log INFO [Lit "Analyzing message with sensitivity ";
                                  Fmt (int 70); Lit "%"];
                        CreateCompletion "hello"] |}).
  reflexivity.
Defined.

(** C2, as stated, fails on the ban-word path: the fixed result carries
    [violation_score = 90], while the scorer gives 100 for its sub-scores
    90, 40 and 70. *)
Lemma ban_word_result_not_rescored :
  fst (detect ascii_lower (calm Malformed) true "this is spam" (start strict))
    = Return _create_ban_word_violation
  ∧ _create_ban_word_violation !! "violation_score" = Some (int 90)
  ∧ (Scorer._calculate_violation_score 90 40 70 == 100)%Q
  ∧ score_recomputed _create_ban_word_violation = false.
Proof. repeat split; vm_compute; reflexivity. Qed.

Lemma score_recomputed_rescored (d : gmap string value) (vs vt vd : value)
    (spam toxic danger : Q) (s : Z) :
  d !! "spam" = Some vs → d !! "toxic" = Some vt → d !! "danger" = Some vd →
  as_number vs = Some spam → as_number vt = Some toxic →
  as_number vd = Some danger →
  score_recomputed (rescored d spam toxic danger s) = true.
Proof.
  intros Hs Ht Hd Ns Nt Nd. unfold score_recomputed, number_at, rescored.
  cbv zeta.
  rewrite !(lookup_insert_ne _ "violation") by discriminate.
  rewrite !(lookup_insert_ne _ "violation_score") by discriminate.
  rewrite lookup_insert_eq, Hs, Ht, Hd, Ns, Nt, Nd. simpl.
  apply Qeq_bool_iff. reflexivity.
Qed.

(** C2, amended. Every result that comes out of the classifier path (the
    rule filter did not trigger) has a [violation_score] equal to the
    scorer's value for its own sub-scores: it is either the analysis-error
    default, or the dict of the classifier with [violation_score] and
    [violation] written over whatever the classifier supplied. *)
Theorem classifier_result_rescored (str_lower : string → string) (env : Env)
    (flag : bool) (txt : string) (w : World) (r : gmap string value)
    (w' : World) :
  check_ban_words str_lower (ban_words (settings (data w))) txt = false →
  detect str_lower env flag txt w = (Return r, w') →
  score_recomputed r = true ∧
  (r = analysis_error ∨
   ∃ d spam toxic danger,
     create_completion env txt = Parsed (VDict d) ∧
     number_at d "spam" = Some spam ∧ number_at d "toxic" = Some toxic ∧
     number_at d "danger" = Some danger ∧
     r = rescored d spam toxic danger (sensitivity (settings (data w))) ∧
     r !! "violation_score"
       = Some (VNum (Scorer._calculate_violation_score spam toxic danger)) ∧
     r !! "violation"
       = Some (VBool (Scorer.is_violation
                        (Scorer._calculate_violation_score spam toxic danger)
                        (sensitivity (settings (data w)))))).
Proof.
  intros Hcheck. unfold detect, _check_ban_words, bind, emit, get_data, ret.
  simpl. rewrite Hcheck.
  unfold analyze_message. destruct flag; simpl; [|discriminate].
  unfold try_except.
  destruct (analyze_body env txt _) as [[r0|e] w0] eqn:Hbody.
  - intros [= <- <-].
    apply analyze_body_returns in Hbody
      as (d & vs & vt & vd & spam & toxic & danger
          & Hc & Hs & Ht & Hd & Ns & Nt & Nd & ->).
    simpl. split; [eapply score_recomputed_rescored; eassumption|].
    right. exists d, spam, toxic, danger.
    unfold number_at. rewrite Hs, Ht, Hd.
    repeat split; try assumption.
    + unfold rescored. cbv zeta.
      rewrite lookup_insert_ne by discriminate. apply lookup_insert_eq.
    + unfold rescored. cbv zeta. apply lookup_insert_eq.
  - unfold bind, emit, ret. simpl. intros [= <- <-].
    split; [vm_compute; reflexivity | left; reflexivity].
Qed.

Lemma classifier_result_rescored_witness :
  score_recomputed (rescored opinionated 10 20 5 70) = true ∧
  rescored opinionated 10 20 5 70 !! "violation" = Some (VBool false).
Proof.
  split; [|vm_compute; reflexivity].
  apply (classifier_result_rescored ascii_lower
           (calm (Parsed (VDict opinionated))) true "hello" (start strict)
           (rescored opinionated 10 20 5 70)
           {| data := strict;
              trace := [CheckBanWords "hello";
                        Log INFO [Lit "Analyzing message with sensitivity ";
                                  Fmt (int 70); Lit "%"];
                        CreateCompletion "hello";
                        CalculateScore (int 10) (int 20) (int 5)] |}).
  - reflexivity.
  - vm_compute. reflexivity.
Defined.

End AnalyzerFacts.

(** ** What a computation adds to the trace *)

Module Traces.

Arguments str : simpl never.

Lemma emits_at_new_events {A} (P : event → Prop) (m : M A) (w : World) :
  emits_at P m w → Forall P (new_events m w).
Proof.
  intros (evs & Heq & HP). unfold new_events.
  rewrite Heq, drop_old_events. exact HP.
Qed.

Section Rules.
Context {A B : Type} (P : event → Prop).

Lemma emits_at_bind (m : M A) (k : A → M B) (w : World) :
  emits_at P m w →
  (∀ a w', m w = (Return a, w') → emits_at P (k a) w') →
  emits_at P (bind m k) w.
Proof.
  intros (evs & Heq & HP) Hk. unfold emits_at, bind.
  destruct (m w) as [[a|e] w1] eqn:Hm; simpl in *.
  - destruct (Hk a w1 eq_refl) as (evs' & Heq' & HP').
    exists (evs ++ evs'). split.
    + rewrite Heq', Heq, app_assoc. reflexivity.
    + apply Forall_app. split; assumption.
  - exists evs. split; assumption.
Qed.

Lemma emits_bind (m : M A) (k : A → M B) :
  emits P m → (∀ a, emits P (k a)) → emits P (bind m k).
Proof.
  intros Hm Hk w. apply emits_at_bind; [apply Hm | intros a w' _; apply Hk].
Qed.

Lemma emits_try_except (body : M A) (handler : exn → M A) :
  emits P body → (∀ e, emits P (handler e)) →
  emits P (try_except body handler).
Proof.
  intros Hm Hk w. destruct (Hm w) as (evs & Heq & HP).
  unfold emits_at, try_except.
  destruct (body w) as [[a|e] w1]; simpl in *.
  - exists evs. split; assumption.
  - destruct (Hk e w1) as (evs' & Heq' & HP').
    exists (evs ++ evs'). split.
    + rewrite Heq', Heq, app_assoc. reflexivity.
    + apply Forall_app. split; assumption.
Qed.

Lemma emits_nothing (m : M A) :
  (∀ w, trace (snd (m w)) = trace w) → emits P m.
Proof. intros H w. exists []. rewrite H, app_nil_r. split; constructor. Qed.

Lemma emits_ret (a : A) : emits P (ret a).
Proof. apply emits_nothing. reflexivity. Qed.

Lemma emits_raise (e : exn) : emits P (raise (A := A) e).
Proof. apply emits_nothing. reflexivity. Qed.

Lemma emits_lift_option (o : option A) (e : exn) : emits P (lift_option o e).
Proof. destruct o; [apply emits_ret | apply emits_raise]. Qed.

End Rules.

Section More.
Context (P : event → Prop).

Lemma emits_emit (e : event) : P e → emits P (emit e).
Proof. intros H w. exists [e]. split; [reflexivity | repeat constructor; exact H]. Qed.

Lemma emits_get_data : emits P get_data.
Proof. apply emits_nothing. reflexivity. Qed.

Lemma emits_put_data (d : DataManager) : emits P (put_data d).
Proof. apply emits_nothing. reflexivity. Qed.

Lemma emits_lift_call (o : option exn) : emits P (lift_call o).
Proof. destruct o; [apply emits_raise | apply emits_ret]. Qed.

Lemma emits_when (b : bool) (m : M unit) : emits P m → emits P (when b m).
Proof. intros H. destruct b; [exact H | apply emits_ret]. Qed.

End More.

(** Goals [emits P m] for a sequence of primitive steps; what is left are
    the side conditions [P e] of the events. *)
Ltac audible :=
  repeat first
    [ apply emits_ret | apply emits_raise | apply emits_get_data
    | apply emits_put_data | apply emits_lift_option | apply emits_lift_call
    | apply emits_emit
    | apply emits_bind; [| intros ?]
    | apply emits_try_except; [| intros ?]
    | apply emits_when
    | match goal with
      | |- emits _ (match ?x with _ => _ end) => destruct x
      | |- emits _ (if ?x then _ else _) => destruct x
      end ].

Section Handlers.
Variable env : Env.

Lemma process_violation_not_classifier (update : Update) (user : User)
    (violation : gmap string value) :
  emits not_classifier (_process_violation env update user violation).
Proof.
  unfold _process_violation, _send_warning, warning_text, send,
    _delete_violation_message, _ban_user, modify_stats, modify_user, getitem.
  audible; reflexivity.
Qed.

Lemma save_data_not_classifier : emits not_classifier (save_data env).
Proof. unfold save_data. audible; reflexivity. Qed.

Lemma on_error_not_classifier (update : Update) (e : exn) :
  emits not_classifier (on_error env update e).
Proof. unfold on_error. audible; reflexivity. Qed.

Lemma register_sender_silent (user : User) (w : World) :
  trace (snd (register_sender user w)) = trace w ∧
  settings (data (snd (register_sender user w))) = settings (data w).
Proof.
  unfold register_sender, _update_user_stats, _init_user_data, modify_stats,
    modify_user, when, lift_option, bind, get_data, put_data, ret, raise.
  cbn. branches; split; reflexivity.
Qed.

End Handlers.

End Traces.

(** ** The orchestrator ([handle_message]) *)

Module Orchestrator.
Import Run Traces RuleFilterFacts.

Arguments str : simpl never.

Lemma emits_at_try_except {A} (P : event → Prop) (body : M A)
    (handler : exn → M A) (w : World) :
  emits_at P body w → (∀ e, emits P (handler e)) →
  emits_at P (try_except body handler) w.
Proof.
  intros (evs & Heq & HP) Hk. unfold emits_at, try_except.
  destruct (body w) as [[a|e] w1]; simpl in *.
  - exists evs. split; assumption.
  - destruct (Hk e w1) as (evs' & Heq' & HP').
    exists (evs ++ evs'). split.
    + rewrite Heq', Heq, app_assoc. reflexivity.
    + apply Forall_app. split; assumption.
Qed.

Section Filter.
Variable str_lower : string → string.
Variable env : Env.
Variable flag : bool.

(** When the filter triggers, [detect] hands out the fixed result and the
    analyzer is not entered. *)
Lemma detect_filter_hit (txt : string) (w : World) :
  check_ban_words str_lower (ban_words (settings (data w))) txt = true →
  detect str_lower env flag txt w =
    (Return _create_ban_word_violation,
     {| data := data w; trace := trace w ++ [CheckBanWords txt] |}).
Proof.
  intros H. unfold detect, _check_ban_words, bind, emit, get_data, ret.
  simpl. rewrite H. reflexivity.
Qed.

Lemma detect_filter_miss (txt : string) (w : World) :
  check_ban_words str_lower (ban_words (settings (data w))) txt = false →
  detect str_lower env flag txt w =
    analyze_message env flag txt
      {| data := data w; trace := trace w ++ [CheckBanWords txt] |}.
Proof.
  intros H. unfold detect, _check_ban_words, bind, emit, get_data, ret.
  simpl. rewrite H. reflexivity.
Qed.

Lemma filter_hit_skips_classifier (update : Update) (m : Message)
    (txt : string) (w : World) :
  message update = Some m → text_of m = Some txt →
  check_ban_words str_lower (ban_words (settings (data w))) txt = true →
  Forall not_classifier
         (new_events (handle_message str_lower env flag update) w).
Proof.
  intros Hm Ht Hc. apply emits_at_new_events.
  unfold handle_message.
  apply emits_at_try_except; [| intros e; apply on_error_not_classifier].
  unfold handle_body. rewrite Hm, Ht. unfold handle_text.
  apply emits_at_bind; [apply emits_lift_option|].
  intros user w0 Hu.
  assert (w0 = w) as ->.
  { destruct (from_user m); [injection Hu as _ <-; reflexivity | discriminate]. }
  clear Hu.
  apply emits_at_bind; [apply emits_emit; reflexivity|].
  intros [] w1 [= <-].
  destruct (is_bot user); [apply emits_emit; reflexivity|].
  apply emits_at_bind.
  { apply emits_nothing. intros w'. apply register_sender_silent. }
  intros [] w2 Hreg.
  assert (Hset : settings (data w2) = settings (data w)).
  { pose proof (register_sender_silent user
      {| data := data w; trace := trace w ++
           [Log INFO [Lit "New message from "; Fmt (int (id user));
                      Lit " in chat "; Fmt (int (chat_id m))]] |}) as [_ H].
    rewrite Hreg in H. exact H. }
  apply emits_at_bind.
  { unfold emits_at. rewrite detect_filter_hit by (rewrite Hset; exact Hc).
    exists [CheckBanWords txt]. split; [reflexivity | repeat constructor]. }
  intros violation w3 Hdet.
  rewrite detect_filter_hit in Hdet by (rewrite Hset; exact Hc).
  injection Hdet as <- <-.
  unfold getitem.
  apply emits_at_bind; [apply emits_lift_option|].
  intros verdict w4 _.
  apply emits_bind;
    [apply emits_when, process_violation_not_classifier
    | intros _; apply save_data_not_classifier].
Qed.

End Filter.

(** C8, as stated, fails for a list that holds a word with an upper-case
    letter: only the text is folded to lower case, the stored words are
    compared as they are. *)
Lemma stored_upper_case_word_never_matches :
  check_ban_words ascii_lower ["CHEAP"] "buy cheap stuff" = false
  ∧ contains_ignoring_case ascii_lower "CHEAP" "buy cheap stuff" = true
  ∧ In "CHEAP" ["CHEAP"].
Proof. repeat split; vm_compute; auto. Qed.

(** C8, amended. The rule filter triggers exactly when some ban word, as it
    is stored, is a substring of the lower-cased text (no word boundaries);
    for a list stored in lower case this is matching without regard to case.
    Whenever it triggers, the orchestrator uses the fixed result (spam 90,
    toxic 40, danger 70, violation_score 90, violation true, reason "banned
    word"), and neither the classifier nor the scorer is entered while the
    message is handled. *)
Theorem rule_filter_on_stored_words (str_lower : string → string)
    (env : Env) (flag : bool) :
  (∀ words txt,
     check_ban_words str_lower words txt = true ↔
     ∃ word pre post,
       In word words ∧ str_lower txt = pre +:+ word +:+ post)
  ∧ (∀ words txt,
       Forall (λ word, str_lower word = word) words →
       (check_ban_words str_lower words txt = true ↔
        ∃ word, In word words ∧
                contains_ignoring_case str_lower word txt = true))
  ∧ (∀ txt w,
       check_ban_words str_lower (ban_words (settings (data w))) txt = true →
       detect str_lower env flag txt w =
         (Return _create_ban_word_violation,
          {| data := data w; trace := trace w ++ [CheckBanWords txt] |}))
  ∧ (∀ update m txt w,
       message update = Some m → text_of m = Some txt →
       check_ban_words str_lower (ban_words (settings (data w))) txt = true →
       Forall not_classifier
              (new_events (handle_message str_lower env flag update) w))
  ∧ _create_ban_word_violation !! "spam" = Some (int 90)
  ∧ _create_ban_word_violation !! "toxic" = Some (int 40)
  ∧ _create_ban_word_violation !! "danger" = Some (int 70)
  ∧ _create_ban_word_violation !! "violation_score" = Some (int 90)
  ∧ _create_ban_word_violation !! "violation" = Some (VBool true)
  ∧ _create_ban_word_violation !! "reason" = Some (VStr "Запрещенное слово").
Proof.
  split; [|split; [|split; [|split]]].
  - intros words txt. rewrite check_ban_words_spec. split.
    + intros (word & Hin & Hc). apply contains_spec in Hc as (pre & post & H).
      exists word, pre, post. split; assumption.
    + intros (word & pre & post & Hin & H). exists word. split; [exact Hin|].
      apply contains_spec. exists pre, post. exact H.
  - intros words txt Hlow. rewrite check_ban_words_spec.
    rewrite Forall_forall in Hlow. unfold contains_ignoring_case.
    split; intros (word & Hin & Hc); exists word; (split; [exact Hin|]).
    + rewrite (Hlow word) by (apply list_elem_of_In; exact Hin). exact Hc.
    + rewrite (Hlow word) in Hc by (apply list_elem_of_In; exact Hin). exact Hc.
  - intros txt w. apply detect_filter_hit.
  - intros update m txt w. apply filter_hit_skips_classifier.
  - repeat split; vm_compute; reflexivity.
Qed.

Lemma rule_filter_on_stored_words_witness :
  detect ascii_lower (calm Malformed) true "this is SPAM" (start strict) =
    (Return _create_ban_word_violation,
     {| data := strict; trace := [CheckBanWords "this is SPAM"] |}).
Proof.
  apply (proj1 (proj2 (proj2
           (rule_filter_on_stored_words ascii_lower (calm Malformed) true)))
           "this is SPAM" (start strict)).
  reflexivity.
Defined.

(** C10. An update that carries no message, or a message without text,
    leaves the world exactly as it was: no user record, no counter and no
    setting changes, and nothing is added to the trace, so the rule filter,
    the classifier and [save_data] are not entered. *)
Theorem update_without_text_is_ignored (str_lower : string → string)
    (env : Env) (flag : bool) (update : Update) (w : World) :
  (message update = None ∨
   ∃ m, message update = Some m ∧
        (msg_text m = None ∨ msg_text m = Some "")) →
  handle_message str_lower env flag update w = (Return tt, w) ∧
  new_events (handle_message str_lower env flag update) w = [].
Proof.
  intros H.
  assert (Hrun : handle_message str_lower env flag update w = (Return tt, w)).
  { unfold handle_message, handle_body, try_except.
    destruct H as [-> | (m & -> & Ht)]; [reflexivity|].
    unfold text_of. destruct Ht as [-> | ->]; reflexivity. }
  split; [exact Hrun|].
  unfold new_events. rewrite Hrun. simpl.
  rewrite <- (app_nil_r (trace w)) at 2. apply drop_old_events.
Qed.

Lemma update_without_text_is_ignored_witness :
  handle_message ascii_lower (calm Malformed) true
    {| message := Some {| message_id := 5; msg_text := Some "";
                          from_user := Some alice; chat_id := 1 |} |}
    (start strict)
  = (Return tt, start strict).
Proof.
  apply (update_without_text_is_ignored ascii_lower (calm Malformed) true
           {| message := Some {| message_id := 5; msg_text := Some "";
                                 from_user := Some alice; chat_id := 1 |} |}
           (start strict)).
  right. eexists. split; [reflexivity|]. right. reflexivity.
Defined.

End Orchestrator.

(** ** Invariants of the statistics *)

Module Invariants.
Import Run Counters.

Section Reachable.
Variable str_lower : string → string.
Variable flag : bool.

Lemma reachable_covered (w : World) :
  reachable str_lower flag w →
  0 <= banned_users (stats (data w)) <= violations_found (stats (data w)) ∧
  0 <= deleted_messages (stats (data w)) <= violations_found (stats (data w)).
Proof.
  induction 1 as [d Hd | env update w _ IH | s w _ IH].
  - simpl. rewrite Hd. simpl. lia.
  - pose proof (steps_handle_message str_lower env flag update w) as Hstep.
    unfold covered_by_violations in Hstep. lia.
  - exact IH.
Qed.

End Reachable.

(** C9. In every state reached from zeroed statistics by handling any
    sequence of incoming messages, [violations_found >= banned_users]. *)
Theorem bans_never_exceed_violations (str_lower : string → string)
    (flag : bool) (w : World) :
  reachable str_lower flag w →
  banned_users (stats (data w)) <= violations_found (stats (data w)).
Proof. intros H. apply (reachable_covered str_lower flag w H). Qed.

Lemma bans_never_exceed_violations_witness :
  banned_users (stats (data two_strikes))
    <= violations_found (stats (data two_strikes)).
Proof.
  apply (bans_never_exceed_violations ascii_lower true two_strikes).
  unfold two_strikes.
  apply reach_message, reach_message, (reach_start _ _ strict).
  reflexivity.
Defined.

Example two_strikes_stats :
  stats (data two_strikes) =
    {| messages_checked := 2; violations_found := 2;
       deleted_messages := 2; banned_users := 1 |}.
Proof. vm_compute. reflexivity. Qed.

(** The code gives the same bound for the deletions: a message is deleted
    only while a violation is processed. *)
Lemma deletions_never_exceed_violations (str_lower : string → string)
    (flag : bool) (w : World) :
  reachable str_lower flag w →
  deleted_messages (stats (data w)) <= violations_found (stats (data w)).
Proof. intros H. apply (reachable_covered str_lower flag w H). Qed.

End Invariants.

(** ** The enforcement engine ([_process_violation]) *)

Module Enforcement.
Import Run.

Arguments str : simpl never.

Section Engine.
Variable env : Env.

Lemma send_warning_run (update : Update) (m : Message) (user : User)
    (violation : gmap string value) (u : UserRecord)
    (reason violation_score spam toxic danger : value) (w : World) :
  message update = Some m →
  users (data w) !! str (id user) = Some u →
  carries violation reason violation_score spam toxic danger →
  let notice := format_warning reason violation_score spam toxic danger
                  (warnings u) (warn_before_ban (settings (data w))) in
  let asked := SendMessage (chat_id m) notice (Some (message_id m)) in
  _send_warning env update user violation w =
    match send_message env (chat_id m) notice (Some (message_id m)) with
    | inl e => (Raise e, heard w [asked])
    | inr k => (Return {| sent_chat_id := chat_id m; sent_message_id := k;
                          sent_text := notice |}, heard w [asked])
    end.
Proof.
  intros Hm Hu [Hr Hv Hs Ht Hd]. exec.
  rewrite Hr, Hv, Hs, Ht, Hd. cbn. rewrite Hu. cbn. rewrite Hm. cbn.
  destruct (send_message env _ _ _); reflexivity.
Qed.

(** The delete step: one attempt; on failure a log line and one edit of the
    warning, whose outcome is the outcome of the step. *)
Lemma delete_violation_message_run (m : Message) (warning_msg : SentMessage)
    (w : World) :
  _delete_violation_message env (Some m) warning_msg w =
    match delete_message env (chat_id m) (message_id m) with
    | None =>
        (Return tt,
         stored count_deletion
                (heard w [DeleteMessage (chat_id m) (message_id m)]))
    | Some e =>
        (outcome_of_call
           (edit_text env (sent_chat_id warning_msg)
                      (sent_message_id warning_msg)
                      (sent_text warning_msg ++ [deletion_failed_note])),
         heard w [DeleteMessage (chat_id m) (message_id m);
                  Log ERROR [Lit "Failed to delete message: "; FmtExn e];
                  EditText (sent_chat_id warning_msg)
                           (sent_message_id warning_msg)
                           (sent_text warning_msg ++ [deletion_failed_note])])
    end.
Proof.
  exec. unfold heard, stored.
  destruct (delete_message env _ _); cbn;
    [destruct (edit_text env _ _ _); cbn|]; rewrite <- ?app_assoc; reflexivity.
Qed.

(** The ban step: the ban call, then the counter, then the announcement;
    whichever of the two calls raises, the exception is logged and raised
    again. *)
Lemma ban_user_run (update : Update) (m : Message) (user : User)
    (violation : gmap string value) (w : World) :
  message update = Some m →
  _ban_user env update user violation w =
    match ban_chat_member env (chat_id m) (id user) with
    | Some e =>
        (Raise e, heard w [BanChatMember (chat_id m) (id user);
                           ban_failed user e])
    | None =>
        match send_message env (chat_id m) (ban_announcement user) None with
        | inl e =>
            (Raise e,
             stored count_ban
               (heard w [BanChatMember (chat_id m) (id user);
                         SendMessage (chat_id m) (ban_announcement user) None;
                         ban_failed user e]))
        | inr _ =>
            (Return tt,
             stored count_ban
               (heard w [BanChatMember (chat_id m) (id user);
                         SendMessage (chat_id m) (ban_announcement user) None]))
        end
    end.
Proof.
  intros Hm. exec. rewrite Hm. cbn. unfold heard, stored.
  destruct (ban_chat_member env _ _); cbn;
    [| destruct (send_message env _ _ _); cbn];
    rewrite <- ?app_assoc; reflexivity.
Qed.

(** [_process_violation] in one equation: the two increments, the warning,
    the delete step when [auto_delete] is set, and the ban check on the
    incremented count. *)
Lemma process_violation_run (update : Update) (m : Message) (user : User)
    (violation : gmap string value) (u : UserRecord)
    (reason violation_score spam toxic danger : value) (w : World) :
  message update = Some m →
  users (data w) !! str (id user) = Some u →
  carries violation reason violation_score spam toxic danger →
  let limit := warn_before_ban (settings (data w)) in
  let notice := format_warning reason violation_score spam toxic danger
                  (warnings u + 1) limit in
  let asked := SendMessage (chat_id m) notice (Some (message_id m)) in
  let w1 := heard (stored (count_violation (str (id user)) u) w) [asked] in
  _process_violation env update user violation w =
    match send_message env (chat_id m) notice (Some (message_id m)) with
    | inl e => (Raise e, w1)
    | inr k =>
        let warning_msg := {| sent_chat_id := chat_id m; sent_message_id := k;
                              sent_text := notice |} in
        match when (auto_delete (settings (data w)))
                   (_delete_violation_message env (Some m) warning_msg) w1 with
        | (Raise e, w2) => (Raise e, w2)
        | (Return _, w2) =>
            when (limit <=? warnings u + 1)%Z
                 (_ban_user env update user violation) w2
        end
    end.
Proof.
  intros Hm Hu Hc. cbv zeta.
  assert (Hu1 : users (data (stored (count_violation (str (id user)) u) w))
                  !! str (id user) = Some (incr_warnings u))
    by apply lookup_insert_eq.
  pose proof (send_warning_run update m user violation (incr_warnings u)
                reason violation_score spam toxic danger _ Hm Hu1 Hc) as Hsend.
  cbv zeta in Hsend. simpl in Hsend.
  unfold _process_violation.
  erewrite bind_return by reflexivity.
  erewrite bind_return
    by (unfold modify_user, bind, get_data, lift_option, put_data; simpl;
        rewrite Hu; reflexivity).
  change {| data := set_users _ _; trace := _ |}
    with (stored (count_violation (str (id user)) u) w).
  unfold bind at 1. rewrite Hsend.
  destruct (send_message env _ _ _) as [e|k]; [reflexivity|].
  erewrite bind_return by reflexivity. simpl settings. rewrite Hm.
  unfold bind at 1.
  destruct (auto_delete (settings (data w))); unfold when at 1 3.
  - rewrite delete_violation_message_run.
    destruct (delete_message env _ _) as [e|]; simpl.
    + destruct (edit_text env _ _ _); simpl; [reflexivity|].
      unfold bind, get_data, lift_option. simpl.
      rewrite lookup_insert_eq. reflexivity.
    + unfold bind, get_data, lift_option. simpl.
      rewrite lookup_insert_eq. reflexivity.
  - unfold ret at 1. unfold bind, get_data, lift_option. simpl.
    rewrite lookup_insert_eq. reflexivity.
Qed.

End Engine.

(** Every way a run of [_process_violation] can go, given that the user
    has a record and the violation its five values. *)
Ltac enforcement_cases Hm Hu Hc :=
  rewrite ?(process_violation_run _ _ _ _ _ _ _ _ _ _ _ _ Hm Hu Hc);
  cbv zeta; unfold when, ret;
  destruct (send_message _ _ _ (Some _)) as [?e|?k] eqn:?Hsend;
    [| try match goal with
           | H : @inr exn Z _ = inr _ |- _ => injection H as ->
           end;
       destruct (auto_delete (settings (data _))) eqn:?Hauto;
       cbv iota beta;
       [ rewrite ?delete_violation_message_run;
         destruct (delete_message _ _ _) as [?e|] eqn:?Hdelete;
           [ simpl sent_chat_id in *; simpl sent_message_id in *;
             simpl sent_text in *;
             destruct (edit_text _ _ _ _) as [?e|] eqn:?Hedit |]
       | ];
       simpl outcome_of_call; cbv iota beta;
       try (destruct (_ <=? _)%Z eqn:?Hlimit; cbv iota beta;
            [ rewrite ?(ban_user_run _ _ _ _ _ _ Hm);
              destruct (ban_chat_member _ _ _) as [?e|] eqn:?Hban;
                [| destruct (send_message _ _ _ None)
                     as [?e|?k'] eqn:?Hannounce ]
            | ]) ].

(** The events added at the end of such a run, read off the trace. *)
Ltac read_trace :=
  unfold new_events; simpl snd; unfold heard, stored; simpl trace;
  rewrite <- ?app_assoc, ?drop_old_events; simpl app.

Lemma process_violation_counts (env : Env) (update : Update) (m : Message) (user : User)
    (violation : gmap string value) (u : UserRecord)
    (reason violation_score spam toxic danger : value) (w : World) :
  message update = Some m →
  users (data w) !! str (id user) = Some u →
  carries violation reason violation_score spam toxic danger →
  let w' := snd (_process_violation env update user violation w) in
  violations_found (stats (data w')) = violations_found (stats (data w)) + 1 ∧
  users (data w') !! str (id user) = Some (incr_warnings u) ∧
  settings (data w') = settings (data w).
Proof.
  intros Hm Hu Hc. cbv zeta.
  enforcement_cases Hm Hu Hc; simpl;
    (split; [reflexivity | split; [apply lookup_insert_eq | reflexivity]]).
Qed.

(** The first thing a run does towards Telegram is to send the warning, as
    a reply to the offending message. *)
Lemma process_violation_warns_first (env : Env) (update : Update) (m : Message)
    (user : User) (violation : gmap string value) (u : UserRecord)
    (reason violation_score spam toxic danger : value) (w : World) :
  message update = Some m →
  users (data w) !! str (id user) = Some u →
  carries violation reason violation_score spam toxic danger →
  ∃ rest,
    new_events (_process_violation env update user violation) w =
      SendMessage (chat_id m)
        (format_warning reason violation_score spam toxic danger
           (warnings u + 1) (warn_before_ban (settings (data w))))
        (Some (message_id m)) :: rest.
Proof.
  intros Hm Hu Hc. unfold new_events.
  enforcement_cases Hm Hu Hc; read_trace; eexists; reflexivity.
Qed.

(** When the warning is delivered and the delete step returns, the ban is
    attempted exactly when the incremented count reaches the limit. *)
Lemma process_violation_ban_check (env : Env) (update : Update) (m : Message)
    (user : User) (violation : gmap string value) (u : UserRecord)
    (reason violation_score spam toxic danger : value) (w : World) (k : Z) :
  message update = Some m →
  users (data w) !! str (id user) = Some u →
  carries violation reason violation_score spam toxic danger →
  let limit := warn_before_ban (settings (data w)) in
  let notice := format_warning reason violation_score spam toxic danger
                  (warnings u + 1) limit in
  send_message env (chat_id m) notice (Some (message_id m)) = inr k →
  (auto_delete (settings (data w)) = false ∨
   delete_message env (chat_id m) (message_id m) = None ∨
   edit_text env (chat_id m) k (notice ++ [deletion_failed_note]) = None) →
  (In (BanChatMember (chat_id m) (id user))
      (new_events (_process_violation env update user violation) w)
   ↔ limit <= warnings u + 1).
Proof.
  intros Hm Hu Hc limit notice Hk Hdel. subst limit notice.
  unfold new_events.
  enforcement_cases Hm Hu Hc; read_trace;
    try apply Z.leb_le in Hlimit; try apply Z.leb_gt in Hlimit;
    simpl; intuition (congruence || lia).
Qed.



(** The warning shows the reason, the composite score, the three
    sub-scores, and ends with the progress "count/limit". *)
Lemma format_warning_shows (reason violation_score spam toxic danger : value)
    (count limit : Z) :
  let notice := format_warning reason violation_score spam toxic danger
                  count limit in
  In (Fmt reason) notice ∧ In (Fmt violation_score) notice ∧
  In (Fmt spam) notice ∧ In (Fmt toxic) notice ∧ In (Fmt danger) notice ∧
  ∃ before, notice = before ++ [Fmt (int count); Lit "/"; Fmt (int limit)].
Proof.
  cbv zeta. unfold format_warning. repeat split; simpl; auto 20.
  eexists [_; _; _; _; _; _; _; _; _; _; _]. reflexivity.
Qed.

Lemma ban_word_violation_carries :
  carries _create_ban_word_violation (VStr "Запрещенное слово")
          (int 90) (int 90) (int 40) (int 70).
Proof. split; vm_compute; reflexivity. Qed.

(** C4, as stated, fails when Telegram refuses the warning: the two
    counters have been incremented, the count has reached the limit
    (1 + 1 >= 2), and yet the exception leaves [_process_violation] before
    the ban check. *)
Lemma undelivered_warning_skips_ban_check :
  let env := with_send (fun _ _ _ => inl (TelegramError "timed out"))
                       (calm Malformed) in
  let run := _process_violation env (says 11 alice "spam again") alice
                                _create_ban_word_violation in
  users (data one_strike) !! str 7 = Some alice_warned_once
  ∧ warn_before_ban (settings (data one_strike)) = 2
  ∧ fst (run one_strike) = Raise (TelegramError "timed out")
  ∧ new_events run one_strike =
      [SendMessage 1 (format_warning (VStr "Запрещенное слово") (int 90)
                        (int 90) (int 40) (int 70) 2 2) (Some 11)]
  ∧ ¬ In (BanChatMember 1 7) (new_events run one_strike).
Proof.
  cbv zeta.
  assert (Hev : new_events
            (_process_violation
               (with_send (fun _ _ _ => inl (TelegramError "timed out"))
                          (calm Malformed))
               (says 11 alice "spam again") alice _create_ban_word_violation)
            one_strike =
          [SendMessage 1 (format_warning (VStr "Запрещенное слово") (int 90)
                            (int 90) (int 40) (int 70) 2 2) (Some 11)])
    by (vm_compute; reflexivity).
  repeat split; try (vm_compute; reflexivity); try exact Hev.
  rewrite Hev. simpl. intros [H|[]]. discriminate H.
Qed.

(** C4, amended. For a violation of a user with a record and a result that
    carries its five values: [violations_found] grows by exactly 1, the
    user's warnings become [w + 1], and the warning (reason, composite
    score, sub-scores, progress [(w+1)/warn_before_ban]) is sent as a reply
    to the offending message; when that delivery and the delete step do not
    raise, a ban is attempted if and only if [w + 1 >= warn_before_ban]. *)
Theorem violation_warned_then_ban_checked (env : Env) (update : Update)
    (m : Message) (user : User) (violation : gmap string value)
    (u : UserRecord) (reason violation_score spam toxic danger : value)
    (w : World) :
  message update = Some m →
  users (data w) !! str (id user) = Some u →
  carries violation reason violation_score spam toxic danger →
  let run := _process_violation env update user violation in
  let limit := warn_before_ban (settings (data w)) in
  let notice := format_warning reason violation_score spam toxic danger
                  (warnings u + 1) limit in
  violations_found (stats (data (snd (run w))))
    = violations_found (stats (data w)) + 1
  ∧ (∃ u', users (data (snd (run w))) !! str (id user) = Some u' ∧
           warnings u' = warnings u + 1)
  ∧ (∃ rest, new_events run w =
               SendMessage (chat_id m) notice (Some (message_id m)) :: rest)
  ∧ (∀ k,
       send_message env (chat_id m) notice (Some (message_id m)) = inr k →
       (auto_delete (settings (data w)) = false ∨
        delete_message env (chat_id m) (message_id m) = None ∨
        edit_text env (chat_id m) k (notice ++ [deletion_failed_note]) = None) →
       (In (BanChatMember (chat_id m) (id user)) (new_events run w)
        ↔ limit <= warnings u + 1)).
Proof.
  intros Hm Hu Hc. cbv zeta.
  destruct (process_violation_counts env update m user violation u
              reason violation_score spam toxic danger w Hm Hu Hc)
    as (Hv & Hw & _).
  split; [exact Hv|]. split; [exists (incr_warnings u); split; [exact Hw|reflexivity]|].
  split; [eapply process_violation_warns_first; eassumption|].
  intros k Hk Hdel.
  eapply process_violation_ban_check; eassumption.
Qed.

Lemma violation_warned_then_ban_checked_witness :
  let run := _process_violation (calm Malformed) (says 11 alice "spam again")
                                alice _create_ban_word_violation in
  violations_found (stats (data (snd (run one_strike)))) = 1 + 1
  ∧ In (BanChatMember 1 7) (new_events run one_strike).
Proof.
  cbv zeta.
  destruct (violation_warned_then_ban_checked (calm Malformed)
              (says 11 alice "spam again")
              {| message_id := 11; msg_text := Some "spam again";
                 from_user := Some alice; chat_id := 1 |}
              alice _create_ban_word_violation alice_warned_once
              (VStr "Запрещенное слово") (int 90) (int 90) (int 40) (int 70)
              one_strike eq_refl eq_refl ban_word_violation_carries)
    as (Hv & _ & _ & Hban).
  split; [exact Hv|].
  apply (Hban 1000); [reflexivity | right; left; reflexivity |].
  vm_compute. discriminate.
Defined.

(** The same happens when the classifier leaves out the reason: the result
    passes [analyze_message], and the warning cannot be formatted. *)
Example result_without_reason_is_not_warned :
  let answer := Parsed (VDict (<["spam" := int 100]> (<["toxic" := int 100]>
                               (<["danger" := int 100]> ∅)))) in
  let w' := snd (handle_message ascii_lower (calm answer) true
                   (says 12 alice "hello") one_strike) in
  violations_found (stats (data w')) = 2
  ∧ List.filter
      (fun e => match e with SendMessage _ _ _ | BanChatMember _ _ => true
                                | _ => false end) (trace w') = []
  ∧ last (trace w') = Some (ReplyText 1 12 failure_notice).
Proof. cbv zeta. repeat split; vm_compute; reflexivity. Qed.

(** C5, as stated, fails when the edit that annotates the warning raises
    too: that exception leaves the delete step and [_process_violation], and
    the ban check is not run although the count has reached the limit. *)
Lemma failed_annotation_aborts_enforcement :
  let env := with_edit (fun _ _ _ => Some (TelegramError "message not found"))
               (with_delete (refuses "no rights") (calm Malformed)) in
  let run := _process_violation env (says 11 alice "spam again") alice
                                _create_ban_word_violation in
  auto_delete (settings (data one_strike)) = true
  ∧ users (data one_strike) !! str 7 = Some alice_warned_once
  ∧ warn_before_ban (settings (data one_strike)) = 2
  ∧ delete_message env 1 11 = Some (TelegramError "no rights")
  ∧ fst (run one_strike) = Raise (TelegramError "message not found")
  ∧ List.filter (fun e => match e with BanChatMember _ _ => true
                                   | _ => false end)
                (new_events run one_strike) = [].
Proof. cbv zeta. repeat split; vm_compute; reflexivity. Qed.

(** C5, amended. With [auto_delete] on, a delivered warning and a deletion
    that raises: [deleted_messages] keeps its value, the failure is logged
    and the edit that appends the note to the sent warning is issued; and
    provided that edit does not raise, the delete step returns and the ban
    check runs in the same cycle. *)
Theorem failed_deletion_is_annotated (env : Env) (update : Update)
    (m : Message) (user : User) (violation : gmap string value)
    (u : UserRecord) (reason violation_score spam toxic danger : value)
    (w : World) (k : Z) (e : exn) :
  message update = Some m →
  users (data w) !! str (id user) = Some u →
  carries violation reason violation_score spam toxic danger →
  let run := _process_violation env update user violation in
  let limit := warn_before_ban (settings (data w)) in
  let notice := format_warning reason violation_score spam toxic danger
                  (warnings u + 1) limit in
  let annotated := notice ++ [deletion_failed_note] in
  let warning_msg := {| sent_chat_id := chat_id m; sent_message_id := k;
                        sent_text := notice |} in
  auto_delete (settings (data w)) = true →
  send_message env (chat_id m) notice (Some (message_id m)) = inr k →
  delete_message env (chat_id m) (message_id m) = Some e →
  deleted_messages (stats (data (snd (run w))))
    = deleted_messages (stats (data w))
  ∧ (∃ rest, new_events run w =
       SendMessage (chat_id m) notice (Some (message_id m))
       :: DeleteMessage (chat_id m) (message_id m)
       :: Log ERROR [Lit "Failed to delete message: "; FmtExn e]
       :: EditText (chat_id m) k annotated
       :: rest)
  ∧ (edit_text env (chat_id m) k annotated = None →
       (∀ w0, fst (_delete_violation_message env (Some m) warning_msg w0)
              = Return tt)
       ∧ (In (BanChatMember (chat_id m) (id user)) (new_events run w)
          ↔ limit <= warnings u + 1)).
Proof.
  intros Hm Hu Hc. cbv zeta. intros Ha Hk He.
  split; [|split].
  - enforcement_cases Hm Hu Hc; try congruence; reflexivity.
  - unfold new_events.
    enforcement_cases Hm Hu Hc; try congruence; read_trace;
      eexists; injection He as <-; reflexivity.
  - intros Hedit. split.
    + intros w0. rewrite delete_violation_message_run, He.
      cbn [fst sent_chat_id sent_message_id sent_text].
      rewrite Hedit. reflexivity.
    + eapply process_violation_ban_check; try eassumption.
      right. right. exact Hedit.
Qed.

Lemma failed_deletion_is_annotated_witness :
  let env := with_delete (refuses "no rights") (calm Malformed) in
  let run := _process_violation env (says 11 alice "spam again") alice
                                _create_ban_word_violation in
  deleted_messages (stats (data (snd (run one_strike)))) = 1
  ∧ In (BanChatMember 1 7) (new_events run one_strike).
Proof.
  cbv zeta.
  destruct (failed_deletion_is_annotated
              (with_delete (refuses "no rights") (calm Malformed))
              (says 11 alice "spam again")
              {| message_id := 11; msg_text := Some "spam again";
                 from_user := Some alice; chat_id := 1 |}
              alice _create_ban_word_violation alice_warned_once
              (VStr "Запрещенное слово") (int 90) (int 90) (int 40) (int 70)
              one_strike 1000 (TelegramError "no rights")
              eq_refl eq_refl ban_word_violation_carries
              eq_refl eq_refl eq_refl)
    as (Hd & _ & Hok).
  split; [exact Hd|].
  apply Hok; [reflexivity|]. vm_compute. discriminate.
Defined.

Section TopLevel.
Variable str_lower : string → string.
Variable env : Env.
Variable flag : bool.

(** Whatever the body of the [try] raises is logged and answered with the
    failure notice; nothing else happens afterwards. *)
Lemma handle_message_catches (update : Update) (m : Message) (w : World)
    (e : exn) (w' : World) :
  message update = Some m →
  handle_body str_lower env flag update w = (Raise e, w') →
  handle_message str_lower env flag update w =
    (outcome_of_call (reply_text env (chat_id m) (message_id m) failure_notice),
     heard w' [Log ERROR [Lit "Error in handle_message: "; FmtExn e];
               ReplyText (chat_id m) (message_id m) failure_notice]).
Proof.
  intros Hm Hbody. unfold handle_message, try_except. rewrite Hbody.
  unfold on_error. rewrite Hm. unfold bind, emit, lift_call, heard. simpl.
  rewrite <- app_assoc.
  destruct (reply_text env _ _ _); reflexivity.
Qed.

(** Registering the sender never raises. *)
Lemma register_sender_returns (user : User) (w : World) :
  ∃ w1, register_sender user w = (Return tt, w1).
Proof.
  unfold register_sender, _update_user_stats, _init_user_data, modify_stats,
    modify_user, when, lift_option, bind, get_data, put_data, ret, raise.
  cbn. destruct (users (data w) !! str (id user)) eqn:Hu; cbn.
  - rewrite Hu. eauto.
  - rewrite lookup_insert_eq. eauto.
Qed.

(** The body of the [try] on a message that is found to be a violation:
    what remains is the enforcement and, if it returns, [save_data]. *)
Lemma handle_body_enforces (update : Update) (m : Message) (txt : string)
    (user : User) (violation : gmap string value) (verdict : value)
    (w w1 w2 : World) :
  message update = Some m → text_of m = Some txt →
  from_user m = Some user → is_bot user = false →
  register_sender user
    (heard w [Log INFO [Lit "New message from "; Fmt (int (id user));
                        Lit " in chat "; Fmt (int (chat_id m))]])
    = (Return tt, w1) →
  detect str_lower env flag txt w1 = (Return violation, w2) →
  violation !! "violation" = Some verdict → truthy verdict = true →
  handle_body str_lower env flag update w =
    bind (_process_violation env update user violation)
         (fun _ => save_data env) w2.
Proof.
  intros Hm Ht Hu Hb Hreg Hdet Hv Htrue.
  unfold handle_body. rewrite Hm, Ht. unfold handle_text. rewrite Hu.
  unfold lift_option. erewrite bind_return by reflexivity.
  erewrite bind_return by reflexivity. rewrite Hb.
  erewrite bind_return by exact Hreg.
  erewrite bind_return by exact Hdet.
  unfold getitem. rewrite Hv. unfold lift_option.
  erewrite bind_return by reflexivity.
  rewrite Htrue. reflexivity.
Qed.

End TopLevel.

(** C6. When the ban step fails, [_ban_user] logs the failure and raises the
    exception again, and it leaves [_process_violation]; a failed deletion,
    in contrast, is swallowed by the delete step. The exception reaches the
    [except] clause of [handle_message], which logs it and replies with the
    failure notice; [handle_message] itself returns once that reply is
    out. *)
Theorem ban_failure_is_raised_and_reported (str_lower : string → string)
    (env : Env) (flag : bool) :
  (∀ update m user violation w e,
     message update = Some m → ban_step_fails env m user e →
     fst (_ban_user env update user violation w) = Raise e ∧
     last (trace (snd (_ban_user env update user violation w)))
       = Some (ban_failed user e))
  ∧ (∀ update m user violation u reason violation_score spam toxic danger
       w k e,
       message update = Some m →
       users (data w) !! str (id user) = Some u →
       carries violation reason violation_score spam toxic danger →
       let limit := warn_before_ban (settings (data w)) in
       let notice := format_warning reason violation_score spam toxic danger
                       (warnings u + 1) limit in
       send_message env (chat_id m) notice (Some (message_id m)) = inr k →
       (auto_delete (settings (data w)) = false ∨
        delete_message env (chat_id m) (message_id m) = None ∨
        edit_text env (chat_id m) k (notice ++ [deletion_failed_note]) = None) →
       limit <= warnings u + 1 →
       ban_step_fails env m user e →
       fst (_process_violation env update user violation w) = Raise e)
  ∧ (∀ m warning_msg w e,
       delete_message env (chat_id m) (message_id m) = Some e →
       edit_text env (sent_chat_id warning_msg) (sent_message_id warning_msg)
                 (sent_text warning_msg ++ [deletion_failed_note]) = None →
       fst (_delete_violation_message env (Some m) warning_msg w) = Return tt)
  ∧ (∀ update m txt user violation verdict w w1 w2 w3 e,
       message update = Some m → text_of m = Some txt →
       from_user m = Some user → is_bot user = false →
       register_sender user
         (heard w [Log INFO [Lit "New message from "; Fmt (int (id user));
                             Lit " in chat "; Fmt (int (chat_id m))]])
         = (Return tt, w1) →
       detect str_lower env flag txt w1 = (Return violation, w2) →
       violation !! "violation" = Some verdict → truthy verdict = true →
       _process_violation env update user violation w2 = (Raise e, w3) →
       handle_message str_lower env flag update w =
         (outcome_of_call
            (reply_text env (chat_id m) (message_id m) failure_notice),
          heard w3 [Log ERROR [Lit "Error in handle_message: "; FmtExn e];
                    ReplyText (chat_id m) (message_id m) failure_notice])).
Proof.
  split; [|split; [|split]].
  - intros update m user violation w e Hm Hfail.
    rewrite (ban_user_run env update m user violation w Hm).
    destruct Hfail as [-> | [-> ->]]; simpl;
      (split; [reflexivity |]); rewrite last_app; reflexivity.
  - intros update m user violation u reason violation_score spam toxic danger
      w k e Hm Hu Hc limit notice Hk Hdel Hlim Hfail.
    subst limit notice. apply Z.leb_le in Hlim.
    enforcement_cases Hm Hu Hc; simpl;
      destruct Hfail as [Hf | [Hf1 Hf2]];
      destruct Hdel as [Hd | [Hd | Hd]]; congruence.
  - intros m warning_msg w e Hd He.
    rewrite delete_violation_message_run, Hd. cbn [fst].
    rewrite He. reflexivity.
  - intros update m txt user violation verdict w w1 w2 w3 e
      Hm Ht Hu Hb Hreg Hdet Hv Htrue Hrun.
    apply handle_message_catches; [exact Hm|].
    erewrite handle_body_enforces by eassumption.
    apply bind_raise. exact Hrun.
Qed.

Lemma ban_failure_is_raised_and_reported_witness :
  fst (_ban_user (with_ban (refuses "not enough rights") (calm Malformed))
                 (says 11 alice "spam again") alice
                 _create_ban_word_violation one_strike)
    = Raise (TelegramError "not enough rights").
Proof.
  apply (proj1 (ban_failure_is_raised_and_reported ascii_lower
                  (with_ban (refuses "not enough rights") (calm Malformed))
                  true)
           (says 11 alice "spam again")
           {| message_id := 11; msg_text := Some "spam again";
              from_user := Some alice; chat_id := 1 |}
           alice _create_ban_word_violation one_strike
           (TelegramError "not enough rights") eq_refl).
  left. reflexivity.
Defined.

(** The whole path on the scenario of section 8, with a ban that Telegram
    refuses: the second message of Alice ends with the two error lines and
    the failure notice, and [save_data] is not reached. *)
Example refused_ban_end_to_end :
  let env := with_ban (refuses "not enough rights") (calm Malformed) in
  let run := handle_message ascii_lower env true (says 11 alice "spam again") in
  fst (run one_strike) = Return tt
  ∧ drop 4 (new_events run one_strike) =
      [BanChatMember 1 7;
       ban_failed alice (TelegramError "not enough rights");
       Log ERROR [Lit "Error in handle_message: ";
                  FmtExn (TelegramError "not enough rights")];
       ReplyText 1 11 failure_notice]
  ∧ banned_users (stats (data (snd (run one_strike)))) = 0
  ∧ warnings <$> (users (data (snd (run one_strike))) !! str 7) = Some 2.
Proof. cbv zeta. repeat split; vm_compute; reflexivity. Qed.

End Enforcement.



(** * Further properties of the code *)

(** ** The scorer beyond the formula *)

Module ScorerMore.
Import Scorer ScorerFacts.
Local Open Scope Q_scope.

Lemma score_blend (spam toxic danger : Q) :
  _calculate_violation_score spam toxic danger
  = Qmin (blend (norm spam) (norm toxic) (norm danger)) 1 * 100.
Proof. reflexivity. Qed.



Lemma blend_monotone (a b c a' b' c' : Q) :
  a <= a' → b <= b' → c <= c' → blend a b c <= blend a' b' c'.
Proof.
  intros Ha Hb Hc. unfold blend.
  assert (Hm : Qmax (Qmax b c) a <= Qmax (Qmax b' c') a').
  { apply Q.max_le_compat; [apply Q.max_le_compat|]; assumption. }
  revert Hm. generalize (Qmax (Qmax b c) a) (Qmax (Qmax b' c') a').
  intros m m' Hm. lra.
Qed.

Lemma norm_monotone (x y : Q) : x <= y → norm x <= norm y.
Proof.
  intros H. unfold norm.
  apply Q.min_le_compat; [|lra].
  apply Q.max_le_compat; [|lra].
  unfold Qdiv. change (/ 100) with (1 # 100). lra.
Qed.





(** X3. Raising a sub-score never lowers the composite. *)
Theorem score_monotone (spam toxic danger spam' toxic' danger' : Q) :
  spam <= spam' → toxic <= toxic' → danger <= danger' →
  _calculate_violation_score spam toxic danger
    <= _calculate_violation_score spam' toxic' danger'.
Proof.
  intros Hs Ht Hd. rewrite !score_blend.
  assert (H : blend (norm spam) (norm toxic) (norm danger)
              <= blend (norm spam') (norm toxic') (norm danger'))
    by (apply blend_monotone; apply norm_monotone; assumption).
  assert (Hmin : Qmin (blend (norm spam) (norm toxic) (norm danger)) 1
                 <= Qmin (blend (norm spam') (norm toxic') (norm danger')) 1)
    by (apply Q.min_le_compat; [exact H | lra]).
  revert Hmin.
  generalize (Qmin (blend (norm spam) (norm toxic) (norm danger)) 1)
             (Qmin (blend (norm spam') (norm toxic') (norm danger')) 1).
  intros x y Hxy. lra.
Qed.

Lemma score_monotone_witness :
  _calculate_violation_score 10 20 5 <= _calculate_violation_score 10 60 20.
Proof.
  apply (score_monotone 10 20 5 10 60 20); vm_compute; discriminate.
Defined.

Lemma blend_swap (a b c : Q) :
  blend a b c == blend b a c ∧ blend a b c == blend a c b.
Proof.
  unfold blend.
  assert (E1 : Qmax (Qmax b c) a == Qmax (Qmax a c) b).
  { rewrite (Q.max_comm b c), <- Q.max_assoc, (Q.max_comm b a), Q.max_assoc.
    rewrite (Q.max_comm c a). reflexivity. }
  assert (E2 : Qmax (Qmax b c) a == Qmax (Qmax c b) a).
  { rewrite (Q.max_comm b c). reflexivity. }
  split; [rewrite E1 | rewrite E2]; ring.
Qed.

(** The composite does not depend on which sub-score is which. *)
Theorem score_symmetric (spam toxic danger : Q) :
  _calculate_violation_score spam toxic danger
    == _calculate_violation_score toxic spam danger ∧
  _calculate_violation_score spam toxic danger
    == _calculate_violation_score spam danger toxic.
Proof.
  rewrite !score_blend.
  destruct (blend_swap (norm spam) (norm toxic) (norm danger)) as [E1 E2].
  split; apply Qmult_comp; try reflexivity; apply Q.min_compat;
    try reflexivity; assumption.
Qed.










End ScorerMore.

(** ** More on the analyzer and the rule filter *)

Module AnalyzerMore.
Import AnalyzerFacts RuleFilterFacts.

Arguments str : simpl never.

(** X6. With its data manager set, [analyze_message] always returns, leaves the
    store as it is and calls the classifier exactly once; without it, it
    raises [ValueError] before anything else happens. *)
Theorem analyzer_calls_classifier_once (env : Env) (txt : string)
    (w : World) :
  (∃ r, fst (analyze_message env true txt w) = Return r)
  ∧ data (snd (analyze_message env true txt w)) = data w
  ∧ length (List.filter is_completion
              (new_events (analyze_message env true txt) w)) = 1%nat
  ∧ analyze_message env false txt w
    = (Raise (ValueError "DataManager not set!"), w).
Proof.
  split; [|split; [|split; [|reflexivity]]].
  - destruct (analyze_message_never_raises env txt w) as (r & w' & H).
    exists r. rewrite H. reflexivity.
  - exec. branches; reflexivity.
  - unfold new_events. exec.
    branches; rewrite <- ?app_assoc, drop_old_events; reflexivity.
Qed.

(** X7. Whatever else the classifier put in its answer (the reason, any extra
    field) reaches the result unchanged: only [violation_score] and
    [violation] are written. *)
Theorem analyzer_keeps_other_fields (env : Env) (txt : string) (w w' : World)
    (d r : gmap string value) (key : string) :
  create_completion env txt = Parsed (VDict d) →
  analyze_body env txt w = (Return r, w') →
  key ≠ "violation_score" → key ≠ "violation" →
  r !! key = d !! key.
Proof.
  intros Hc Hbody H1 H2.
  apply analyze_body_returns in Hbody
    as (d' & vs & vt & vd & spam & toxic & danger
        & Hc' & _ & _ & _ & _ & _ & _ & ->).
  rewrite Hc in Hc'. injection Hc' as <-.
  unfold rescored. cbv zeta.
  rewrite lookup_insert_ne by congruence.
  apply lookup_insert_ne. congruence.
Qed.

Lemma analyzer_keeps_other_fields_witness :
  rescored opinionated 10 20 5 70 !! "reason" = Some (VStr "rude").
Proof.
  apply (analyzer_keeps_other_fields (calm (Parsed (VDict opinionated)))
           "hello" (start strict)
           {| data := strict;
              trace := [Log INFO [Lit "Analyzing message with sensitivity ";
                                  Fmt (int 70); Lit "%"];
                        CreateCompletion "hello";
                        CalculateScore (int 10) (int 20) (int 5)] |}
           opinionated (rescored opinionated 10 20 5 70) "reason").
  - reflexivity.
  - vm_compute. reflexivity.
  - discriminate.
  - discriminate.
Defined.

Lemma contains_empty (txt : string) : contains "" txt = true.
Proof. apply contains_spec. exists "", txt. reflexivity. Qed.

(** X8. The rule filter at its edges: an empty list never triggers; a list that
    holds the empty word triggers on every text; and a longer list triggers
    wherever a shorter one does. *)
Theorem rule_filter_edges (str_lower : string → string)
    (words more : list string) (txt : string) :
  check_ban_words str_lower [] txt = false
  ∧ (In "" words → check_ban_words str_lower words txt = true)
  ∧ (check_ban_words str_lower words txt = true →
     check_ban_words str_lower (words ++ more) txt = true).
Proof.
  split; [reflexivity|]. split.
  - intros Hin. apply check_ban_words_spec. exists "".
    split; [exact Hin | apply contains_empty].
  - rewrite !check_ban_words_spec. intros (word & Hin & Hc).
    exists word. split; [apply in_or_app; left; exact Hin | exact Hc].
Qed.

Lemma rule_filter_edges_witness :
  check_ban_words ascii_lower (["spam"] ++ ["cheap"]) "this is SPAM" = true.
Proof.
  apply (proj2 (proj2 (rule_filter_edges ascii_lower ["spam"] ["cheap"]
                         "this is SPAM"))).
  reflexivity.
Defined.

End AnalyzerMore.

(** ** What every step of the pipeline keeps *)

Module Frame.

Arguments str : simpl never.

Section Rules.
Context {A B : Type} (R : World → World → Prop) `{!PreOrder R}.

Lemma relates_bind (m : M A) (k : A → M B) :
  relates R m → (∀ a, relates R (k a)) → relates R (bind m k).
Proof.
  intros Hm Hk w. unfold bind. specialize (Hm w).
  destruct (m w) as [[a|e] w1]; simpl in *; [|exact Hm].
  etransitivity; [exact Hm | apply Hk].
Qed.

Lemma relates_try_except (body : M A) (handler : exn → M A) :
  relates R body → (∀ e, relates R (handler e)) →
  relates R (try_except body handler).
Proof.
  intros Hm Hk w. unfold try_except. specialize (Hm w).
  destruct (body w) as [[a|e] w1]; simpl in *; [exact Hm|].
  etransitivity; [exact Hm | apply Hk].
Qed.

Lemma relates_bind_ret (a : A) (k : A → M B) :
  relates R (k a) → relates R (bind (ret a) k).
Proof. intros H w. apply H. Qed.

Lemma relates_ret (a : A) : relates R (ret a).
Proof. intros w. reflexivity. Qed.

Lemma relates_raise (e : exn) : relates R (raise (A := A) e).
Proof. intros w. reflexivity. Qed.

Lemma relates_lift_option (o : option A) (e : exn) :
  relates R (lift_option o e).
Proof. destruct o; [apply relates_ret | apply relates_raise]. Qed.

End Rules.

Section Units.
Context (R : World → World → Prop) `{!PreOrder R}.

Lemma relates_get_data : relates R get_data.
Proof. intros w. reflexivity. Qed.

Lemma relates_lift_call (o : option exn) : relates R (lift_call o).
Proof. destruct o; [apply relates_raise | apply relates_ret]; exact _. Qed.

Lemma relates_when (b : bool) (m : M unit) :
  relates R m → relates R (when b m).
Proof. intros H. destruct b; [exact H | apply relates_ret; exact _]. Qed.

End Units.

(** The shape of a goal [relates R m] is followed down to the steps that
    write: [emit], [modify_stats], [modify_user] and [register_sender]. *)
Ltac follow_with leaf :=
  repeat first
    [ leaf
    | apply relates_ret; [exact _]
    | apply relates_raise; [exact _]
    | apply relates_get_data; [exact _]
    | apply relates_lift_option; [exact _]
    | apply relates_lift_call; [exact _]
    | apply relates_bind; [exact _ | | intros ?]
    | apply relates_try_except; [exact _ | | intros ?]
    | apply relates_when; [exact _ |]
    | match goal with
      | |- relates _ (match ?x with _ => _ end) => destruct x
      | |- relates _ (if ?x then _ else _) => destruct x
      end ].

Ltac follow := follow_with fail.

(** A relation that a handler keeps as soon as its writes keep it. *)
Section Components.
Variable str_lower : string → string.
Variable env : Env.
Variable flag : bool.
Context (R : World → World → Prop) `{!PreOrder R}.
Variable writer : User → Prop.

Hypothesis keeps_emit : ∀ e, relates R (emit e).
Hypothesis keeps_violations : relates R (modify_stats incr_violations_found).
Hypothesis keeps_deletions : relates R (modify_stats incr_deleted_messages).
Hypothesis keeps_bans : relates R (modify_stats incr_banned_users).
Hypothesis keeps_warnings :
  ∀ user, writer user → relates R (modify_user (str (id user)) incr_warnings).

Ltac writes :=
  first [ apply keeps_emit | apply keeps_violations | apply keeps_deletions
        | apply keeps_bans | apply keeps_warnings; assumption ].

Lemma relates_analyze_message (txt : string) :
  relates R (analyze_message env flag txt).
Proof.
  unfold analyze_message, analyze_body, call_calculate_violation_score,
    as_dict, getitem.
  follow_with writes.
Qed.

Lemma relates_save_data : relates R (save_data env).
Proof. unfold save_data. follow_with writes. Qed.

Lemma relates_detect (txt : string) :
  relates R (detect str_lower env flag txt).
Proof.
  unfold detect, _check_ban_words.
  follow_with ltac:(first [writes | apply relates_analyze_message]).
Qed.

Lemma relates_process_violation (update : Update) (user : User)
    (violation : gmap string value) :
  writer user → relates R (_process_violation env update user violation).
Proof.
  intros Hw.
  unfold _process_violation, _send_warning, warning_text, send,
    _delete_violation_message, _ban_user, getitem.
  follow_with writes.
Qed.

Lemma relates_on_error (update : Update) (e : exn) :
  relates R (on_error env update e).
Proof. unfold on_error. follow_with writes. Qed.

Lemma relates_moderate (update : Update) (user : User) (txt : string) :
  writer user → relates R (moderate str_lower env flag update user txt).
Proof.
  intros Hw. unfold moderate, getitem.
  follow_with ltac:(first [ apply relates_detect | apply relates_save_data
                          | apply relates_process_violation; assumption ]).
Qed.

Hypothesis keeps_registration :
  ∀ user, writer user → relates R (register_sender user).

Lemma relates_handle_message (update : Update) :
  (∀ user, sender update = Some user → writer user) →
  relates R (handle_message str_lower env flag update).
Proof.
  intros Hsender. unfold handle_message.
  apply relates_try_except; [exact _ | | intros e; apply relates_on_error].
  unfold handle_body, sender in *.
  destruct (message update) as [m|]; [|apply relates_ret; exact _].
  destruct (text_of m) as [txt|]; [|apply relates_ret; exact _].
  unfold handle_text.
  destruct (from_user m) as [user|] eqn:Hfrom.
  2:{ intros w0. unfold bind, lift_option, raise. simpl. reflexivity. }
  specialize (Hsender user eq_refl).
  unfold lift_option. apply relates_bind_ret.
  apply relates_bind; [exact _ | apply keeps_emit | intros _].
  destruct (is_bot user); [apply keeps_emit|].
  apply relates_bind; [exact _ | apply keeps_registration, Hsender | intros _].
  apply (relates_moderate update user txt Hsender).
Qed.

End Components.

End Frame.

(** ** More on the orchestrator *)

Module OrchestratorMore.
Import Frame Traces.

Arguments str : simpl never.

Lemma register_sender_run (user : User) (w : World) :
  register_sender user w = (Return tt, stored (registered user) w).
Proof.
  unfold register_sender, _update_user_stats, _init_user_data, modify_stats,
    modify_user, when, lift_option, bind, get_data, put_data, ret, raise,
    stored, registered, set_users, set_stats.
  cbn. destruct (users (data w) !! str (id user)) as [u|] eqn:Hu; cbn.
  - rewrite Hu. reflexivity.
  - rewrite lookup_insert_eq. cbn. rewrite insert_insert_eq. reflexivity.
Qed.

Section Handle.
Variable str_lower : string → string.
Variable env : Env.
Variable flag : bool.

(** A text message of a sender that is not a bot: after the greeting and
    the registration, what is left is [moderate] under the [try]. *)
Lemma handle_message_registered (update : Update) (m : Message)
    (txt : string) (user : User) (w : World) :
  message update = Some m → text_of m = Some txt →
  from_user m = Some user → is_bot user = false →
  handle_message str_lower env flag update w =
    try_except (moderate str_lower env flag update user txt)
               (on_error env update)
               (stored (registered user) (heard w [greeting user m])).
Proof.
  intros Hm Ht Hu Hb.
  unfold handle_message, try_except, handle_body. rewrite Hm, Ht.
  unfold handle_text. rewrite Hu. unfold lift_option.
  erewrite bind_return by reflexivity.
  erewrite bind_return by reflexivity. rewrite Hb.
  erewrite bind_return by apply register_sender_run.
  reflexivity.
Qed.

Lemma handle_message_of_bot (update : Update) (m : Message) (txt : string)
    (user : User) (w : World) :
  message update = Some m → text_of m = Some txt →
  from_user m = Some user → is_bot user = true →
  handle_message str_lower env flag update w =
    (Return tt,
     heard w [greeting user m; Log DEBUG [Lit "Ignoring message from bot"]]).
Proof.
  intros Hm Ht Hu Hb.
  unfold handle_message, try_except, handle_body. rewrite Hm, Ht.
  unfold handle_text. rewrite Hu. unfold lift_option.
  erewrite bind_return by reflexivity.
  erewrite bind_return by reflexivity. rewrite Hb.
  unfold emit, heard. simpl. rewrite <- app_assoc. reflexivity.
Qed.

(** X9. A text message of a bot is only logged: the handler returns, the store
    is as it was (the bot is not registered, nothing is counted), and the
    two log lines are all that happens: no rule filter, no classifier, no
    call to Telegram, no write of the file. *)
Theorem bot_sender_is_ignored (update : Update) (m : Message) (txt : string)
    (user : User) (w : World) :
  message update = Some m → text_of m = Some txt →
  from_user m = Some user → is_bot user = true →
  let run := handle_message str_lower env flag update in
  fst (run w) = Return tt
  ∧ data (snd (run w)) = data w
  ∧ new_events run w
    = [greeting user m; Log DEBUG [Lit "Ignoring message from bot"]].
Proof.
  intros Hm Ht Hu Hb. cbv zeta. unfold new_events.
  rewrite (handle_message_of_bot update m txt user w Hm Ht Hu Hb).
  simpl. rewrite drop_old_events. auto.
Qed.

End Handle.

Lemma bot_sender_is_ignored_witness :
  data (snd (handle_message ascii_lower (calm Malformed) true
               (says 30 robot "this is spam") (start strict))) = strict.
Proof.
  apply (bot_sender_is_ignored ascii_lower (calm Malformed) true
           (says 30 robot "this is spam")
           {| message_id := 30; msg_text := Some "this is spam";
              from_user := Some robot; chat_id := 1 |}
           "this is spam" robot (start strict)); reflexivity.
Defined.

(** *** Relations every step keeps *)

Global Instance same_settings_preorder : PreOrder same_settings.
Proof.
  split; [intros w; reflexivity|].
  intros x y z H1 H2. unfold same_settings in *. congruence.
Qed.

Global Instance record_untouched_preorder (k : string) :
  PreOrder (record_untouched k).
Proof.
  split; [intros w; reflexivity|].
  intros x y z H1 H2. unfold record_untouched in *. congruence.
Qed.

Global Instance same_message_counts_preorder : PreOrder same_message_counts.
Proof.
  split; [intros w; split; reflexivity|].
  intros x y z [H1 H1'] [H2 H2']. split; [congruence|].
  intros k. rewrite H2', H1'. reflexivity.
Qed.

Global Instance records_grow_preorder : PreOrder records_grow.
Proof.
  split.
  - intros w k u H. exists u. repeat split; (assumption || lia).
  - intros x y z H1 H2 k u H.
    destruct (H1 k u H) as (u1 & L1 & A1 & B1 & C1 & D1 & E1).
    destruct (H2 k u1 L1) as (u2 & L2 & A2 & B2 & C2 & D2 & E2).
    exists u2. repeat split; (assumption || congruence || lia).
Qed.

Lemma modify_user_run (user_id : string) (f : UserRecord → UserRecord)
    (w : World) :
  modify_user user_id f w =
    match users (data w) !! user_id with
    | Some u =>
        (Return tt,
         stored (fun d => set_users (<[user_id := f u]> (users d)) d) w)
    | None => (Raise (KeyError user_id), w)
    end.
Proof.
  unfold modify_user, bind, get_data, lift_option, put_data, stored.
  simpl. destruct (users (data w) !! user_id); reflexivity.
Qed.

Section Kept.
Variable str_lower : string → string.
Variable env : Env.
Variable flag : bool.

Lemma handle_message_same_settings (update : Update) :
  relates same_settings (handle_message str_lower env flag update).
Proof.
  apply (relates_handle_message str_lower env flag same_settings
           (fun _ => True)); try (intros; exact I);
    try (intros; intros w; reflexivity).
  - intros user _ w. rewrite modify_user_run.
    destruct (users (data w) !! _); reflexivity.
  - intros user _ w. rewrite register_sender_run. reflexivity.
Qed.

Lemma handle_message_record_untouched (update : Update) (k : string) :
  (∀ user, sender update = Some user → str (id user) ≠ k) →
  relates (record_untouched k) (handle_message str_lower env flag update).
Proof.
  intros Hk.
  apply (relates_handle_message str_lower env flag (record_untouched k)
           (fun user => str (id user) ≠ k)); try assumption;
    try (intros; intros w; reflexivity).
  - intros user Hne w. rewrite modify_user_run.
    destruct (users (data w) !! _); [|reflexivity].
    unfold record_untouched. simpl. apply lookup_insert_ne. exact Hne.
  - intros user Hne w. rewrite register_sender_run.
    unfold record_untouched. simpl. apply lookup_insert_ne. exact Hne.
Qed.

Lemma records_grow_same_users (w w' : World) :
  users (data w') = users (data w) → records_grow w w'.
Proof.
  intros H k u Hk. exists u. rewrite H.
  repeat split; (assumption || lia).
Qed.

Lemma handle_message_records_grow (update : Update) :
  relates records_grow (handle_message str_lower env flag update).
Proof.
  apply (relates_handle_message str_lower env flag records_grow
           (fun _ => True)); try (intros; exact I);
    try (intros; intros w; apply records_grow_same_users; reflexivity).
  - intros user _ w. rewrite modify_user_run.
    destruct (users (data w) !! str (id user)) as [u0|] eqn:H0;
      [|reflexivity].
    intros k u Hk. simpl.
    destruct (decide (str (id user) = k)) as [<-|Hne].
    + rewrite lookup_insert_eq. rewrite H0 in Hk. injection Hk as <-.
      eexists. split; [reflexivity|]. simpl. repeat split; lia.
    + rewrite lookup_insert_ne by exact Hne.
      exists u. repeat split; (assumption || lia).
  - intros user _ w. rewrite register_sender_run.
    intros k u Hk. simpl.
    destruct (decide (str (id user) = k)) as [<-|Hne].
    + rewrite lookup_insert_eq. rewrite Hk. simpl.
      eexists. split; [reflexivity|]. simpl. repeat split; lia.
    + rewrite lookup_insert_ne by exact Hne.
      exists u. repeat split; (assumption || lia).
Qed.

End Kept.

(** Handling a message never changes the settings. *)
Theorem handle_message_keeps_settings (str_lower : string → string)
    (env : Env) (flag : bool) (update : Update) (w : World) :
  settings (data (snd (handle_message str_lower env flag update w)))
  = settings (data w).
Proof. apply handle_message_same_settings. Qed.

(** X10. Handling a message never removes a record, never changes the identity
    stored in it, and never lowers its warnings or its message count. *)
Theorem handle_message_keeps_records (str_lower : string → string)
    (env : Env) (flag : bool) (update : Update) (w : World) (k : string)
    (u : UserRecord) :
  users (data w) !! k = Some u →
  ∃ u', users (data (snd (handle_message str_lower env flag update w))) !! k
          = Some u' ∧
        username u' = username u ∧ first_name u' = first_name u ∧
        last_name u' = last_name u ∧
        warnings u <= warnings u' ∧ messages u <= messages u'.
Proof. apply handle_message_records_grow. Qed.

Lemma handle_message_keeps_records_witness :
  ∃ u', users (data (snd (handle_message ascii_lower (calm Malformed) true
                            (says 11 alice "spam again") one_strike)))
          !! str 7 = Some u' ∧
        username u' = Some "alice" ∧ 1 <= warnings u'.
Proof.
  destruct (handle_message_keeps_records ascii_lower (calm Malformed) true
              (says 11 alice "spam again") one_strike (str 7)
              alice_warned_once eq_refl)
    as (u' & H & Hn & _ & _ & Hw & _).
  exists u'. repeat split; assumption.
Defined.

(** X11. Handling a message touches no record but the sender's. *)
Theorem handle_message_touches_only_sender (str_lower : string → string)
    (env : Env) (flag : bool) (update : Update) (w : World) (k : string) :
  (∀ user, sender update = Some user → str (id user) ≠ k) →
  users (data (snd (handle_message str_lower env flag update w))) !! k
  = users (data w) !! k.
Proof. intros H. apply handle_message_record_untouched, H. Qed.

Lemma handle_message_touches_only_sender_witness :
  users (data (snd (handle_message ascii_lower (calm Malformed) true
                      (says 11 alice "spam again") one_strike))) !! "8"
  = users (data one_strike) !! "8".
Proof.
  apply (handle_message_touches_only_sender ascii_lower (calm Malformed) true
           (says 11 alice "spam again") one_strike "8").
  intros user [= <-]. vm_compute. discriminate.
Defined.

Global Instance same_checked_preorder : PreOrder same_checked.
Proof.
  split; [intros w; reflexivity|].
  intros x y z H1 H2. unfold same_checked in *. congruence.
Qed.

Section Counting.
Variable str_lower : string → string.
Variable env : Env.
Variable flag : bool.

Lemma moderate_same_message_counts (update : Update) (user : User)
    (txt : string) :
  relates same_message_counts
    (try_except (moderate str_lower env flag update user txt)
                (on_error env update)).
Proof.
  apply relates_try_except; [exact _ | | intros e].
  - apply (relates_moderate str_lower env flag same_message_counts
             (fun _ => True)); try exact I;
      try (intros; intros w; split; reflexivity).
    intros u _ w. rewrite modify_user_run.
    destruct (users (data w) !! str (id u)) as [u0|] eqn:H0;
      [|split; reflexivity].
    split; [reflexivity|]. intros k. simpl.
    destruct (decide (str (id u) = k)) as [<-|Hne].
    + rewrite lookup_insert_eq, H0. reflexivity.
    + rewrite lookup_insert_ne by exact Hne. reflexivity.
  - apply relates_on_error; [exact _|].
    intros e' w. split; reflexivity.
Qed.

Lemma process_violation_same_checked (update : Update) (user : User)
    (violation : gmap string value) :
  relates same_checked (_process_violation env update user violation).
Proof.
  apply (relates_process_violation env same_checked (fun _ => True));
    try exact I; try (intros; intros w; reflexivity).
  intros u _ w. rewrite modify_user_run.
  destruct (users (data w) !! _); reflexivity.
Qed.

End Counting.

(** X12. Every text message of a sender that is not a bot is counted exactly
    once, globally and for the sender, whatever happens to it afterwards
    (violation or not, and whether the enforcement raises or not). *)
Theorem message_counted_once (str_lower : string → string) (env : Env)
    (flag : bool) (update : Update) (m : Message) (txt : string)
    (user : User) (w : World) :
  message update = Some m → text_of m = Some txt →
  from_user m = Some user → is_bot user = false →
  let w' := snd (handle_message str_lower env flag update w) in
  messages_checked (stats (data w')) = messages_checked (stats (data w)) + 1
  ∧ messages <$> (users (data w') !! str (id user))
    = Some (default 0 (messages <$> (users (data w) !! str (id user))) + 1).
Proof.
  intros Hm Ht Hu Hb. cbv zeta.
  rewrite (handle_message_registered str_lower env flag update m txt user w
             Hm Ht Hu Hb).
  destruct (moderate_same_message_counts str_lower env flag update user txt
              (stored (registered user) (heard w [greeting user m])))
    as [Hc Hk].
  split.
  - rewrite Hc. reflexivity.
  - rewrite Hk. simpl. rewrite lookup_insert_eq.
    destruct (users (data w) !! str (id user)); reflexivity.
Qed.

Lemma message_counted_once_witness :
  messages_checked
    (stats (data (snd (handle_message ascii_lower (calm Malformed) true
                         (says 11 alice "spam again") one_strike)))) = 1 + 1.
Proof.
  apply (message_counted_once ascii_lower (calm Malformed) true
           (says 11 alice "spam again")
           {| message_id := 11; msg_text := Some "spam again";
              from_user := Some alice; chat_id := 1 |}
           "spam again" alice one_strike eq_refl eq_refl eq_refl eq_refl).
Defined.

(** *** Fail-open, end to end *)

Lemma analyze_body_no_telegram (env : Env) (txt : string) :
  emits (fun e => is_telegram_call e = false) (analyze_body env txt).
Proof.
  unfold analyze_body, call_calculate_violation_score, as_dict, getitem.
  audible; reflexivity.
Qed.

Lemma save_data_run (env : Env) (w : World) :
  save_data env w = (Return tt, heard w (save_tail env (data w))).
Proof.
  unfold save_data, save_tail, bind, get_data, emit, ret, heard. simpl.
  destruct (write_file env (data w)); simpl; [reflexivity|].
  rewrite <- app_assoc. reflexivity.
Qed.

(** X13. When the rule filter does not trigger and the classifier fails, the
    message goes through: [handle_message] returns, the store only records
    that a message was seen, nothing is sent to the chat, and the store is
    saved. *)
Theorem classifier_failure_lets_message_through
    (str_lower : string → string) (env : Env) (update : Update)
    (m : Message) (txt : string) (user : User) (w : World) :
  message update = Some m → text_of m = Some txt →
  from_user m = Some user → is_bot user = false →
  check_ban_words str_lower (ban_words (settings (data w))) txt = false →
  (∀ w0, ∃ e w1, analyze_body env txt w0 = (Raise e, w1)) →
  let run := handle_message str_lower env true update in
  fst (run w) = Return tt
  ∧ data (snd (run w)) = registered user (data w)
  ∧ Forall (fun e => is_telegram_call e = false) (new_events run w)
  ∧ In (SaveData (registered user (data w))) (new_events run w).
Proof.
  intros Hm Ht Hu Hb Hcheck Hfail. cbv zeta. unfold new_events.
  rewrite (handle_message_registered str_lower env true update m txt user w
             Hm Ht Hu Hb).
  set (w1 := stored (registered user) (heard w [greeting user m])).
  set (w2 := {| data := data w1; trace := trace w1 ++ [CheckBanWords txt] |}).
  destruct (Hfail w2) as (e & w3 & Hbody).
  pose proof (AnalyzerFacts.analyze_body_keeps_data env txt w2) as Hdata.
  destruct (analyze_body_no_telegram env txt w2) as (evs & Htrace & Hquiet).
  rewrite Hbody in Hdata, Htrace. simpl in Hdata, Htrace.
  assert (Hrun : moderate str_lower env true update user txt w1 =
                 save_data env
                   {| data := data w3;
                      trace := trace w3 ++
                        [Log ERROR [Lit "Analysis error: "; FmtExn e]] |}).
  { unfold moderate.
    erewrite bind_return; [|
      rewrite Orchestrator.detect_filter_miss by exact Hcheck;
      unfold analyze_message, try_except; cbn [negb];
      change {| data := data w1; trace := trace w1 ++ [CheckBanWords txt] |}
        with w2;
      rewrite Hbody; reflexivity].
    reflexivity. }
  unfold try_except. rewrite Hrun, save_data_run. simpl.
  rewrite Hdata, Htrace. simpl.
  split; [reflexivity|]. split; [reflexivity|].
  rewrite <- !app_assoc, drop_old_events.
  split.
  - repeat (apply Forall_cons; split; [reflexivity|]).
    apply Forall_app. split; [exact Hquiet|].
    apply Forall_cons. split; [reflexivity|].
    unfold save_tail. destruct (write_file env _); repeat constructor.
  - simpl. right. right. apply in_or_app. right. right.
    unfold save_tail. destruct (write_file env _); left; reflexivity.
Qed.

Lemma classifier_failure_lets_message_through_witness :
  fst (handle_message ascii_lower (calm Malformed) true
         (says 12 alice "hello") one_strike) = Return tt.
Proof.
  apply (classifier_failure_lets_message_through ascii_lower (calm Malformed)
           (says 12 alice "hello")
           {| message_id := 12; msg_text := Some "hello";
              from_user := Some alice; chat_id := 1 |}
           "hello" alice one_strike eq_refl eq_refl eq_refl eq_refl eq_refl).
  intros w0. eexists _, _. reflexivity.
Defined.

(** *** What reaches the data file *)

Section Saving.
Variable str_lower : string → string.
Variable env : Env.
Variable flag : bool.

Lemma moderate_screening (update : Update) (user : User) (txt : string)
    (w : World) :
  moderate str_lower env flag update user txt w =
    bind (screening str_lower env flag update user txt)
         (fun _ => save_data env) w.
Proof.
  unfold moderate, screening, bind.
  destruct (detect str_lower env flag txt w) as [[v|e] w1]; [|reflexivity].
  destruct (getitem v "violation" w1) as [[x|e] w2]; reflexivity.
Qed.

Lemma screening_does_not_save (update : Update) (user : User) (txt : string) :
  emits (fun e => is_save e = false)
        (screening str_lower env flag update user txt).
Proof.
  unfold screening, detect, _check_ban_words, analyze_message, analyze_body,
    call_calculate_violation_score, as_dict,
    _process_violation, _send_warning, warning_text, send,
    _delete_violation_message, _ban_user, modify_stats, modify_user, getitem.
  audible; reflexivity.
Qed.

Lemma on_error_does_not_save (update : Update) (e : exn) :
  emits (fun e => is_save e = false) (on_error env update e).
Proof. unfold on_error. audible; reflexivity. Qed.

Lemma handle_body_registered (update : Update) (m : Message) (txt : string)
    (user : User) (w : World) :
  message update = Some m → text_of m = Some txt →
  from_user m = Some user → is_bot user = false →
  handle_body str_lower env flag update w =
    moderate str_lower env flag update user txt
             (stored (registered user) (heard w [greeting user m])).
Proof.
  intros Hm Ht Hu Hb.
  unfold handle_body. rewrite Hm, Ht.
  unfold handle_text. rewrite Hu. unfold lift_option.
  erewrite bind_return by reflexivity.
  erewrite bind_return by reflexivity. rewrite Hb.
  erewrite bind_return by apply register_sender_run.
  reflexivity.
Qed.

End Saving.

(** X14. For a text message of a sender that is not a bot: when the body of the
    [try] returns, the last thing [handle_message] did was to save the store
    as it is at the end, and it saved only once; when the body raises,
    nothing is saved by this call. *)
Theorem saved_last_or_not_at_all (str_lower : string → string) (env : Env)
    (flag : bool) (update : Update) (m : Message) (txt : string)
    (user : User) (w : World) :
  message update = Some m → text_of m = Some txt →
  from_user m = Some user → is_bot user = false →
  let run := handle_message str_lower env flag update in
  match fst (handle_body str_lower env flag update w) with
  | Return _ =>
      fst (run w) = Return tt ∧
      ∃ before,
        new_events run w = before ++ save_tail env (data (snd (run w))) ∧
        Forall (fun e => is_save e = false) before
  | Raise _ => Forall (fun e => is_save e = false) (new_events run w)
  end.
Proof.
  intros Hm Ht Hu Hb. cbv zeta. unfold new_events.
  rewrite (handle_body_registered str_lower env flag update m txt user w
             Hm Ht Hu Hb).
  rewrite (handle_message_registered str_lower env flag update m txt user w
             Hm Ht Hu Hb).
  unfold try_except. rewrite moderate_screening. unfold bind.
  set (w1 := stored (registered user) (heard w [greeting user m])).
  destruct (screening_does_not_save str_lower env flag update user txt w1)
    as (evs & Htrace & Hquiet).
  destruct (screening str_lower env flag update user txt w1)
    as [[[]|e] w2]; simpl in Htrace.
  - rewrite save_data_run. simpl. split; [reflexivity|].
    exists (greeting user m :: evs). split.
    + rewrite Htrace. subst w1. simpl.
      rewrite <- !app_assoc, drop_old_events. reflexivity.
    + apply Forall_cons. split; [reflexivity | exact Hquiet].
  - simpl.
    destruct (on_error_does_not_save env update e w2)
      as (evs' & Htrace' & Hquiet').
    rewrite Htrace', Htrace. subst w1. simpl.
    rewrite <- !app_assoc, drop_old_events.
    apply Forall_cons. split; [reflexivity|].
    apply Forall_app. split; assumption.
Qed.

Lemma saved_last_or_not_at_all_witness :
  Forall (fun e => is_save e = false)
    (new_events
       (handle_message ascii_lower
          (with_ban (refuses "not enough rights") (calm Malformed)) true
          (says 11 alice "spam again"))
       one_strike).
Proof.
  exact (saved_last_or_not_at_all ascii_lower
           (with_ban (refuses "not enough rights") (calm Malformed)) true
           (says 11 alice "spam again")
           {| message_id := 11; msg_text := Some "spam again";
              from_user := Some alice; chat_id := 1 |}
           "spam again" alice one_strike eq_refl eq_refl eq_refl eq_refl).
Defined.

(** *** Violations and checked messages *)

Section Checked.
Import Counters.
Variable str_lower : string → string.
Variable env : Env.
Variable flag : bool.

Lemma steps_process_violation_checked (update : Update) (user : User)
    (violation : gmap string value) :
  steps found_not_checked (_process_violation env update user violation).
Proof.
  intros w.
  pose proof (steps_process_violation env update user violation w) as H1.
  pose proof (process_violation_same_checked env update user violation w)
    as H2.
  unfold one_violation_enforced, same_checked, found_not_checked in *. lia.
Qed.

Lemma steps_register_sender_checked (user : User) :
  steps only_checked (register_sender user).
Proof.
  intros w. rewrite register_sender_run. split; reflexivity.
Qed.

Lemma steps_handle_message_checked (update : Update) :
  steps checked_then_found (handle_message str_lower env flag update).
Proof.
  assert (Hrefl : ∀ x, checked_then_found x x)
    by (intros x; unfold checked_then_found; lia).
  assert (Hrefl' : ∀ x, found_not_checked x x)
    by (intros x; unfold found_not_checked; lia).
  unfold handle_message.
  apply (steps_try_except checked_then_found untouched);
    [| intros e; unfold on_error; quiet | auto
     | intros x y z H ->; exact H].
  unfold handle_body.
  destruct (message update) as [m|];
    [| eapply steps_weaken; [apply steps_ret | intros x y ->; apply Hrefl]].
  destruct (text_of m) as [txt|];
    [| eapply steps_weaken; [apply steps_ret | intros x y ->; apply Hrefl]].
  unfold handle_text.
  apply (steps_after checked_then_found); [quiet | intros user | exact Hrefl].
  apply (steps_after checked_then_found); [quiet | intros _ | exact Hrefl].
  destruct (is_bot user);
    [eapply steps_weaken; [apply steps_emit | intros x y ->; apply Hrefl]|].
  apply (steps_bind only_checked found_not_checked);
    [apply steps_register_sender_checked | intros _
    | unfold only_checked, checked_then_found; intros; lia
    | unfold only_checked, found_not_checked, checked_then_found;
      intros; lia].
  apply (steps_after found_not_checked);
    [apply steps_detect | intros violation | exact Hrefl'].
  apply (steps_after found_not_checked); [quiet | intros verdict | exact Hrefl'].
  apply (steps_bind found_not_checked untouched);
    [| intros _; apply steps_save_data | auto | intros x y z H ->; exact H].
  apply steps_when; [apply steps_process_violation_checked | exact Hrefl'].
Qed.

End Checked.

(** X15. In every reachable world the violations found do not exceed the
    messages checked. *)
Theorem violations_never_exceed_messages (str_lower : string → string)
    (flag : bool) (w : World) :
  reachable str_lower flag w →
  0 <= violations_found (stats (data w)) <= messages_checked (stats (data w)).
Proof.
  induction 1 as [d Hd | env update w _ IH | s w _ IH].
  - simpl. rewrite Hd. simpl. lia.
  - pose proof (steps_handle_message_checked str_lower env flag update w)
      as Hstep.
    unfold checked_then_found in Hstep. lia.
  - exact IH.
Qed.

Lemma violations_never_exceed_messages_witness :
  violations_found (stats (data two_strikes))
    <= messages_checked (stats (data two_strikes)).
Proof.
  apply (violations_never_exceed_messages ascii_lower true two_strikes).
  unfold two_strikes.
  apply reach_message, reach_message, (reach_start _ _ strict).
  reflexivity.
Defined.

(** *** Warnings account for the violations *)

Lemma total_warnings_insert (us : gmap string UserRecord) (k : string)
    (u : UserRecord) :
  total_warnings (<[k := u]> us)
  = total_warnings us + warnings u - default 0 (warnings <$> (us !! k)).
Proof.
  unfold total_warnings.
  assert (Hcomm : ∀ (m : gmap string UserRecord) (j1 j2 : string)
            (z1 z2 : UserRecord) (y : Z),
            j1 ≠ j2 → m !! j1 = Some z1 → m !! j2 = Some z2 →
            warnings z1 + (warnings z2 + y) = warnings z2 + (warnings z1 + y))
    by (intros; lia).
  destruct (us !! k) as [old|] eqn:Hk; simpl.
  - rewrite <- (insert_delete_eq us k u).
    rewrite (map_fold_insert_L _ _ k u (delete k us) (Hcomm _))
      by apply lookup_delete_eq.
    rewrite (map_fold_delete_L _ _ k old us (Hcomm _) Hk). lia.
  - rewrite (map_fold_insert_L _ _ k u us (Hcomm _) Hk). lia.
Qed.

Global Instance same_balance_preorder : PreOrder same_balance.
Proof.
  split; [intros w; reflexivity|].
  intros x y z H1 H2. unfold same_balance in *. congruence.
Qed.

Global Instance same_data_preorder : PreOrder same_data.
Proof.
  split; [intros w; reflexivity|].
  intros x y z H1 H2. unfold same_data in *. congruence.
Qed.

Section Balance.
Variable str_lower : string → string.
Variable env : Env.
Variable flag : bool.

Lemma same_data_same_balance (w w' : World) :
  same_data w w' → same_balance w w'.
Proof. unfold same_data, same_balance. intros ->. reflexivity. Qed.

Lemma detect_same_data (txt : string) :
  relates same_data (detect str_lower env flag txt).
Proof.
  apply relates_detect; [exact _|]. intros e w. reflexivity.
Qed.

Lemma on_error_same_data (update : Update) (e : exn) :
  relates same_data (on_error env update e).
Proof.
  apply relates_on_error; [exact _|]. intros e' w. reflexivity.
Qed.

(** A violation of a user with a record: the count of violations and the
    user's warnings grow together, and nothing after that touches either. *)
Lemma process_violation_same_balance (update : Update) (user : User)
    (violation : gmap string value) (w : World) :
  is_Some (users (data w) !! str (id user)) →
  same_balance w (snd (_process_violation env update user violation w)).
Proof.
  intros [u Hu]. unfold _process_violation.
  erewrite bind_return by reflexivity.
  erewrite bind_return by (rewrite modify_user_run; simpl; rewrite Hu;
                           reflexivity).
  match goal with
  | |- same_balance _ (snd (?rest ?w1)) =>
      transitivity w1; [| assert (Hrest : relates same_balance rest);
                          [| apply Hrest]]
  end.
  - unfold same_balance, balance. simpl.
    rewrite total_warnings_insert, Hu. simpl. lia.
  - unfold _send_warning, warning_text, send, _delete_violation_message,
      _ban_user, getitem.
    follow_with ltac:(solve [intros w0; reflexivity]).
Qed.

Lemma register_sender_same_balance (user : User) (w : World) :
  same_balance w (stored (registered user) w).
Proof.
  unfold same_balance, balance, stored, registered. simpl.
  rewrite total_warnings_insert.
  destruct (users (data w) !! str (id user)); simpl; lia.
Qed.

Lemma moderate_same_balance (update : Update) (user : User) (txt : string)
    (w : World) :
  is_Some (users (data w) !! str (id user)) →
  same_balance w
    (snd (try_except (moderate str_lower env flag update user txt)
                     (on_error env update) w)).
Proof.
  intros Hu. unfold try_except, moderate, bind.
  pose proof (detect_same_data txt w) as Hd.
  destruct (detect str_lower env flag txt w) as [[v|e] w1]; simpl in Hd.
  2:{ transitivity w1; [apply same_data_same_balance, Hd|].
      apply same_data_same_balance, on_error_same_data. }
  unfold getitem, lift_option.
  destruct (v !! "violation") as [verdict|]; simpl.
  2:{ transitivity w1; [apply same_data_same_balance, Hd|].
      apply same_data_same_balance, on_error_same_data. }
  destruct (truthy verdict); simpl.
  - assert (Hu1 : is_Some (users (data w1) !! str (id user)))
      by (rewrite Hd; exact Hu).
    pose proof (process_violation_same_balance update user v w1 Hu1) as Hp.
    destruct (_process_violation env update user v w1) as [[[]|e] w2];
      simpl in Hp.
    + rewrite save_data_run. simpl.
      transitivity w1; [apply same_data_same_balance, Hd|]. exact Hp.
    + transitivity w1; [apply same_data_same_balance, Hd|].
      transitivity w2; [exact Hp|].
      apply same_data_same_balance, on_error_same_data.
  - rewrite save_data_run. simpl. apply same_data_same_balance, Hd.
Qed.

End Balance.

(** X16. Handling a message keeps the difference between [violations_found] and
    the sum of all users' warnings: every violation found is one warning of
    one user. From the default store, where both are 0, the two are always
    equal. *)
Theorem warnings_account_for_violations (str_lower : string → string)
    (env : Env) (flag : bool) (update : Update) (w : World) :
  balance (data (snd (handle_message str_lower env flag update w)))
  = balance (data w)
  ∧ balance _default_data = 0.
Proof.
  split; [|reflexivity].
  change (same_balance w (snd (handle_message str_lower env flag update w))).
  destruct (message update) as [m|] eqn:Hm.
  2:{ unfold handle_message, try_except, handle_body. rewrite Hm.
      reflexivity. }
  destruct (text_of m) as [txt|] eqn:Ht.
  2:{ unfold handle_message, try_except, handle_body. rewrite Hm, Ht.
      reflexivity. }
  destruct (from_user m) as [user|] eqn:Hu.
  2:{ unfold handle_message, try_except, handle_body. rewrite Hm, Ht.
      unfold handle_text. rewrite Hu. simpl.
      apply same_data_same_balance, on_error_same_data. }
  destruct (is_bot user) eqn:Hb.
  - rewrite (handle_message_of_bot str_lower env flag update m txt user w
               Hm Ht Hu Hb).
    reflexivity.
  - rewrite (handle_message_registered str_lower env flag update m txt user w
               Hm Ht Hu Hb).
    transitivity (stored (registered user) (heard w [greeting user m])).
    + apply (register_sender_same_balance user (heard w [greeting user m])).
    + apply moderate_same_balance. simpl. rewrite lookup_insert_eq. eauto.
Qed.

End OrchestratorMore.

(** ** The command handlers *)

Module CommandFacts.
Import Frame Traces.

Arguments str : simpl never.

Ltac exec_command :=
  unfold set_sensitivity, add_ban_word, remove_ban_word, cmd_start,
    show_commands, show_settings, show_ban_list, show_stats, show_user_info,
    error_handler, reply, try_except_ValueError, save_data,
    lift_option, lift_call, when, try_except, bind, get_data, put_data,
    emit, ret, raise in *;
  cbn in *.

Lemma mem_spec (word : string) (words : list string) :
  mem word words = true ↔ In word words.
Proof.
  unfold mem. rewrite existsb_exists. split.
  - intros (x & Hin & Heq). apply String.eqb_eq in Heq. subst. exact Hin.
  - intros Hin. exists word. split; [exact Hin | apply String.eqb_refl].
Qed.

Lemma mem_false (word : string) (words : list string) :
  mem word words = false ↔ ¬ In word words.
Proof.
  rewrite <- mem_spec. destruct (mem word words); split; congruence.
Qed.

(** The data and the saves of a command that replies at most twice and
    writes at most once. *)
Section Sensitivity.
Variable py_int : string → option Z.
Variable env : Env.

Lemma set_sensitivity_run (c : Command) (w : World) :
  let run := set_sensitivity py_int env c in
  match accepted_level py_int c with
  | Some level =>
      data (snd (run w))
        = set_settings (set_sensitivity_to level (settings (data w))) (data w)
      ∧ In (SaveData (data (snd (run w)))) (new_events run w)
      ∧ 1 <= level <= 100
  | None =>
      data (snd (run w)) = data w
      ∧ Forall (fun e => is_save e = false) (new_events run w)
  end.
Proof.
  cbv zeta. unfold accepted_level, new_events. exec_command.
  destruct (args c) as [|first rest]; cbn.
  - branches; rewrite <- ?app_assoc, ?drop_old_events, ?drop_all;
      (split; [reflexivity | repeat constructor]).
  - destruct (py_int first) as [level|]; cbn.
    + destruct ((1 <=? level) && (level <=? 100))%Z eqn:Hrange; cbn.
      * apply andb_true_iff in Hrange as [H1 H2].
        apply Z.leb_le in H1, H2.
        branches; rewrite <- ?app_assoc, ?drop_old_events, ?drop_all; cbn;
          (split; [reflexivity | split; [auto 10 | lia]]).
      * branches; rewrite <- ?app_assoc, ?drop_old_events, ?drop_all;
          (split; [reflexivity | repeat constructor]).
    + branches; rewrite <- ?app_assoc, ?drop_old_events, ?drop_all;
        (split; [reflexivity | repeat constructor]).
Qed.

(** X17. [/set_sensitivity]: a whole number from 1 to 100 becomes the new
    sensitivity, everything else in the store stays, and the store is
    saved; anything else (no argument, not a number, out of range) is
    answered and changes nothing, on disk either. So the sensitivity never
    leaves 1..100 through this command. *)
Theorem set_sensitivity_effect (c : Command) (w : World) :
  let run := set_sensitivity py_int env c in
  match accepted_level py_int c with
  | Some level =>
      data (snd (run w))
        = set_settings (set_sensitivity_to level (settings (data w))) (data w)
      ∧ In (SaveData (data (snd (run w)))) (new_events run w)
      ∧ 1 <= sensitivity (settings (data (snd (run w)))) <= 100
  | None =>
      data (snd (run w)) = data w
      ∧ Forall (fun e => is_save e = false) (new_events run w)
  end.
Proof.
  pose proof (set_sensitivity_run c w) as H. cbv zeta in *.
  destruct (accepted_level py_int c) as [level|]; [|exact H].
  destruct H as (Hd & Hs & Hr). repeat split; try assumption;
    rewrite Hd; simpl; lia.
Qed.

End Sensitivity.

Lemma remove_first_count (word : string) (words : list string) (x : string) :
  count_occ string_dec (remove_first word words) x
  = (count_occ string_dec words x
     - (if decide (x = word) then 1 else 0))%nat.
Proof.
  induction words as [|w rest IH]; simpl; [destruct (decide _); reflexivity|].
  destruct (String.eqb word w) eqn:E.
  - apply String.eqb_eq in E. subst w.
    destruct (string_dec word x) as [->|Hne].
    + rewrite decide_True by reflexivity. lia.
    + rewrite decide_False by congruence. lia.
  - apply String.eqb_neq in E. simpl. rewrite IH.
    destruct (string_dec w x) as [->|Hne]; [|reflexivity].
    rewrite decide_False by congruence. lia.
Qed.

Lemma remove_first_appended (word : string) (words : list string) :
  ¬ In word words → remove_first word (words ++ [word]) = words.
Proof.
  induction words as [|w rest IH]; simpl; intros Hnot.
  - rewrite String.eqb_refl. reflexivity.
  - destruct (String.eqb word w) eqn:E.
    + apply String.eqb_eq in E. subst w. tauto.
    + rewrite IH by tauto. reflexivity.
Qed.

Section WordData.
Variable str_lower : string → string.
Variable env : Env.

Lemma add_ban_word_data (c : Command) (w : World) :
  args c ≠ [] →
  data (snd (add_ban_word str_lower env c w)) =
    if mem (command_word str_lower c) (ban_words (settings (data w)))
    then data w
    else set_settings
           (set_ban_words (ban_words (settings (data w))
                           ++ [command_word str_lower c])
                          (settings (data w))) (data w).
Proof.
  intros Hargs. unfold command_word, add_ban_word.
  generalize (str_lower (String.concat " " (args c))). intros word.
  destruct (args c) as [|first rest]; [congruence|].
  exec_command.
  destruct (mem word (ban_words (settings (data w)))); branches; reflexivity.
Qed.

Lemma remove_ban_word_data (c : Command) (w : World) :
  args c ≠ [] →
  data (snd (remove_ban_word str_lower env c w)) =
    if mem (command_word str_lower c) (ban_words (settings (data w)))
    then set_settings
           (set_ban_words (remove_first (command_word str_lower c)
                                        (ban_words (settings (data w))))
                          (settings (data w))) (data w)
    else data w.
Proof.
  intros Hargs. unfold command_word, remove_ban_word.
  generalize (str_lower (String.concat " " (args c))). intros word.
  destruct (args c) as [|first rest]; [congruence|].
  exec_command.
  destruct (mem word (ban_words (settings (data w)))); branches; reflexivity.
Qed.

End WordData.

Lemma added_In (word : string) (words : list string) :
  In word (if mem word words then words else words ++ [word]).
Proof.
  destruct (mem word words) eqn:Hmem; [apply mem_spec, Hmem|].
  apply in_or_app. right. left. reflexivity.
Qed.

Lemma added_NoDup (word : string) (words : list string) :
  NoDup words → NoDup (if mem word words then words else words ++ [word]).
Proof.
  intros Hnd. destruct (mem word words) eqn:Hmem; [exact Hnd|].
  apply mem_false in Hmem.
  apply NoDup_app. repeat split; [exact Hnd | | apply NoDup_singleton].
  intros x Hx Hin. apply list_elem_of_In in Hin.
  destruct Hin as [E|[]]. subst x.
  apply Hmem, list_elem_of_In, Hx.
Qed.

Lemma add_ban_word_words (str_lower : string → string) (env : Env)
    (c : Command) (w : World) :
  args c ≠ [] →
  ban_words (settings (data (snd (add_ban_word str_lower env c w))))
  = (if mem (command_word str_lower c) (ban_words (settings (data w)))
     then ban_words (settings (data w))
     else ban_words (settings (data w)) ++ [command_word str_lower c])
  ∧ sensitivity (settings (data (snd (add_ban_word str_lower env c w))))
    = sensitivity (settings (data w)).
Proof.
  intros Hargs. rewrite (add_ban_word_data str_lower env c w Hargs).
  destruct (mem _ _); split; reflexivity.
Qed.

Section WordList.
Variable str_lower : string → string.
Variable env : Env.

(** X18. [/add_ban_word]: the words after the command, joined and in lower case,
    are in the list afterwards; a word already there is not added again, a
    new one goes to the end and the rest of the settings, the users and the
    statistics stay as they are. A list without duplicates stays so, and a
    list in lower case stays so when lowering the word twice gives the same
    as lowering it once. *)
Theorem add_ban_word_effect (c : Command) (w : World) :
  args c ≠ [] →
  let word := command_word str_lower c in
  let words := ban_words (settings (data w)) in
  let d' := data (snd (add_ban_word str_lower env c w)) in
  ban_words (settings d') = (if mem word words then words else words ++ [word])
  ∧ In word (ban_words (settings d'))
  ∧ set_ban_words words (settings d') = settings (data w)
  ∧ users d' = users (data w) ∧ stats d' = stats (data w)
  ∧ (NoDup words → NoDup (ban_words (settings d')))
  ∧ (Forall (fun x => str_lower x = x) words → str_lower word = word →
     Forall (fun x => str_lower x = x) (ban_words (settings d'))).
Proof.
  intros Hargs. cbv zeta. rewrite (add_ban_word_data str_lower env c w Hargs).
  destruct (mem (command_word str_lower c) (ban_words (settings (data w))))
    eqn:Hmem.
  - apply mem_spec in Hmem.
    destruct (settings (data w)) eqn:Hs. simpl in *.
    repeat split; auto.
  - apply mem_false in Hmem.
    destruct (settings (data w)) eqn:Hs. simpl in *.
    repeat split; auto.
    + apply in_or_app. right. left. reflexivity.
    + intros Hnd. apply NoDup_app. repeat split; [exact Hnd | | ].
      * intros x Hx Hin. apply list_elem_of_In in Hin.
        destruct Hin as [E|[]]. subst x.
        apply Hmem, list_elem_of_In, Hx.
      * apply NoDup_singleton.
    + intros Hall Hw. apply Forall_app. split; [exact Hall|].
      apply Forall_cons. split; [exact Hw | constructor].
Qed.

(** X19. [/remove_ban_word] takes out one occurrence of the word, the first:
    every other word keeps its number of occurrences, and a word that is
    not in the list leaves everything as it is. With a list without
    duplicates the word is gone. *)
Theorem remove_ban_word_effect (c : Command) (w : World) (x : string) :
  args c ≠ [] →
  let word := command_word str_lower c in
  let words := ban_words (settings (data w)) in
  let d' := data (snd (remove_ban_word str_lower env c w)) in
  count_occ string_dec (ban_words (settings d')) x
    = (count_occ string_dec words x - (if decide (x = word) then 1 else 0))%nat
  ∧ (NoDup words → ¬ In word (ban_words (settings d')))
  ∧ set_ban_words words (settings d') = settings (data w)
  ∧ users d' = users (data w) ∧ stats d' = stats (data w).
Proof.
  intros Hargs. cbv zeta. rewrite (remove_ban_word_data str_lower env c w Hargs).
  assert (Hcount : ∀ y,
    count_occ string_dec
      (ban_words (settings
         (if mem (command_word str_lower c) (ban_words (settings (data w)))
          then set_settings
                 (set_ban_words
                    (remove_first (command_word str_lower c)
                                  (ban_words (settings (data w))))
                    (settings (data w))) (data w)
          else data w))) y
    = (count_occ string_dec (ban_words (settings (data w))) y
       - (if decide (y = command_word str_lower c) then 1 else 0))%nat).
  { intros y.
    destruct (mem (command_word str_lower c) (ban_words (settings (data w))))
      eqn:Hmem; simpl.
    - apply remove_first_count.
    - apply mem_false in Hmem. destruct (decide _) as [->|]; [|lia].
      apply (count_occ_not_In string_dec) in Hmem. rewrite Hmem. reflexivity. }
  split; [apply Hcount|]. split.
  - intros Hnd Hin.
    apply (count_occ_In string_dec) in Hin. rewrite Hcount in Hin.
    rewrite decide_True in Hin by reflexivity.
    apply NoDup_ListNoDup in Hnd.
    pose proof (proj1 (List.NoDup_count_occ string_dec _) Hnd
                  (command_word str_lower c)).
    lia.
  - destruct (mem _ _); destruct (settings (data w)); repeat split.
Qed.

(** X20. Adding a word that was not in the list and removing it again gives back
    the store as it was. *)
Theorem add_then_remove_restores (c : Command) (w : World) :
  args c ≠ [] →
  ¬ In (command_word str_lower c) (ban_words (settings (data w))) →
  data (snd (remove_ban_word str_lower env c
               (snd (add_ban_word str_lower env c w)))) = data w.
Proof.
  intros Hargs Hnot.
  rewrite (remove_ban_word_data str_lower env c _ Hargs), (add_ban_word_data str_lower env c w Hargs).
  apply mem_false in Hnot. rewrite Hnot. simpl.
  assert (Hmem : mem (command_word str_lower c)
                   (ban_words (settings (data w)) ++ [command_word str_lower c])
                 = true)
    by (apply mem_spec, in_or_app; right; left; reflexivity).
  rewrite Hmem. rewrite remove_first_appended by (apply mem_false, Hnot).
  destruct (data w) as [[] ? ?]. reflexivity.
Qed.

(** X21. A word that was just added is in force: the rule filter triggers on
    every text whose lower-case form contains it. *)
Theorem added_word_triggers_filter (c : Command) (w : World) (txt : string) :
  args c ≠ [] →
  contains (command_word str_lower c) (str_lower txt) = true →
  check_ban_words str_lower
    (ban_words (settings (data (snd (add_ban_word str_lower env c w))))) txt
  = true.
Proof.
  intros Hargs Hc.
  apply RuleFilterFacts.check_ban_words_spec.
  exists (command_word str_lower c). split; [|exact Hc].
  rewrite (proj1 (add_ban_word_words str_lower env c w Hargs)).
  apply added_In.
Qed.

End WordList.

Lemma add_ban_word_effect_witness :
  In "free money"
     (ban_words (settings (data (snd
        (add_ban_word ascii_lower (calm Malformed) shout (start strict)))))).
Proof.
  assert (Hargs : args shout ≠ []) by discriminate.
  pose proof (add_ban_word_effect ascii_lower (calm Malformed) shout
                (start strict) Hargs) as H.
  cbv zeta in H. apply H.
Defined.

Lemma remove_ban_word_effect_witness :
  ¬ In "spam"
      (ban_words (settings (data (snd
         (remove_ban_word ascii_lower (calm Malformed) unspam
            (start strict)))))).
Proof.
  assert (Hargs : args unspam ≠ []) by discriminate.
  pose proof (remove_ban_word_effect ascii_lower (calm Malformed) unspam
                (start strict) "spam" Hargs) as H.
  cbv zeta in H. apply H.
  vm_compute. repeat constructor; rewrite ?list_elem_of_In; simpl; intuition discriminate.
Defined.

Lemma add_then_remove_restores_witness :
  data (snd (remove_ban_word ascii_lower (calm Malformed) shout
               (snd (add_ban_word ascii_lower (calm Malformed) shout
                       (start strict))))) = strict.
Proof.
  apply (add_then_remove_restores ascii_lower (calm Malformed) shout
           (start strict)).
  - discriminate.
  - vm_compute. intuition discriminate.
Defined.

Lemma added_word_triggers_filter_witness :
  check_ban_words ascii_lower
    (ban_words (settings (data (snd
       (add_ban_word ascii_lower (calm Malformed) shout (start strict))))))
    "Get FREE money now" = true.
Proof.
  apply (added_word_triggers_filter ascii_lower (calm Malformed) shout
           (start strict) "Get FREE money now").
  - discriminate.
  - reflexivity.
Defined.

(** *** The commands that only answer *)

#[local] Instance only_answers_preorder : PreOrder only_answers.
Proof.
  split.
  - intros w. split; [reflexivity|]. exists []. split; [|constructor].
    symmetry. apply app_nil_r.
  - intros w1 w2 w3 [Hd1 (e1 & Ht1 & Ha1)] [Hd2 (e2 & Ht2 & Ha2)].
    split; [congruence|]. exists (e1 ++ e2). split.
    + rewrite Ht2, Ht1. symmetry. apply app_assoc.
    + apply Forall_app. split; assumption.
Qed.

Lemma only_answers_emit (e : event) :
  is_answer e = true → relates only_answers (emit e).
Proof.
  intros He w. split; [reflexivity|]. exists [e]. split; [reflexivity|].
  repeat constructor. exact He.
Qed.

Ltac answers := apply only_answers_emit; reflexivity.

Lemma only_answers_reply (env : Env) (u : Update) (txt : text) :
  relates only_answers (reply env u txt).
Proof. unfold reply. follow_with answers. Qed.

Lemma only_answers_new_events {A} (m : M A) :
  relates only_answers m →
  ∀ w, data (snd (m w)) = data w
       ∧ Forall (fun e => is_answer e = true) (new_events m w).
Proof.
  intros H w. destruct (H w) as [Hd (evs & Ht & Ha)]. split; [exact Hd|].
  unfold new_events. rewrite Ht, drop_old_events. exact Ha.
Qed.

Section Informational.
Variable str_lower : string → string.
Variable items : gmap string UserRecord → list (string * UserRecord).
Variable env : Env.

(** X22. [/start], [/commands], [/settings], [/ban_list], [/stats],
    [/user_info] and the error handler never change the store and never
    write the file, whatever Telegram answers: all they leave is log lines
    and replies. *)
Theorem informational_commands_only_answer (c : Command)
    (failed : option Update) (error : exn) :
  Forall (fun m : M unit => ∀ w,
            data (snd (m w)) = data w
            ∧ Forall (fun e => is_answer e = true) (new_events m w))
    [cmd_start env c; show_commands env c; show_settings env c;
     show_ban_list env c; show_stats env c;
     show_user_info str_lower items env c; error_handler env failed error].
Proof.
  repeat apply Forall_cons_2; [.. | apply Forall_nil_2];
    apply only_answers_new_events;
    unfold cmd_start, show_commands, show_settings, show_ban_list, show_stats,
      show_user_info, error_handler;
    follow_with ltac:(first [answers | apply only_answers_reply]).
Qed.

(** *** [/user_info] *)

Lemma find_user_first_match (identifier : string)
    (before after : list (string * UserRecord)) (entry : string * UserRecord) :
  Forall (passed_over str_lower identifier) before →
  matches str_lower identifier entry →
  find_user str_lower identifier (before ++ entry :: after)
  = inr (Some (snd entry)).
Proof.
  intros Hbefore Hmatch. induction Hbefore as [|[uid r] rest Hx _ IH]; simpl.
  - destruct entry as [uid r]. simpl in *.
    destruct (String.eqb uid identifier) eqn:E; [reflexivity|].
    apply String.eqb_neq in E.
    destruct Hmatch as [?|(name & Hn & Hl)]; [contradiction|].
    simpl in Hn. rewrite Hn, Hl, String.eqb_refl. reflexivity.
  - destruct Hx as [Hk (name & Hn & Hl)]. simpl in Hk, Hn.
    apply String.eqb_neq in Hk. rewrite Hk, Hn.
    apply String.eqb_neq in Hl. rewrite Hl. exact IH.
Qed.

Lemma find_user_nameless (identifier : string)
    (before after : list (string * UserRecord)) (entry : string * UserRecord) :
  Forall (passed_over str_lower identifier) before →
  fst entry ≠ identifier → username (snd entry) = None →
  find_user str_lower identifier (before ++ entry :: after)
  = inl AttributeError.
Proof.
  intros Hbefore Hk Hn. induction Hbefore as [|[uid r] rest Hx _ IH]; simpl.
  - destruct entry as [uid r]. simpl in Hk, Hn.
    apply String.eqb_neq in Hk. rewrite Hk, Hn. reflexivity.
  - destruct Hx as [Hk' (name & Hn' & Hl)]. simpl in Hk', Hn'.
    apply String.eqb_neq in Hk'. rewrite Hk', Hn'.
    apply String.eqb_neq in Hl. rewrite Hl. exact IH.
Qed.

Lemma find_user_none (identifier : string)
    (records : list (string * UserRecord)) :
  Forall (passed_over str_lower identifier) records ↔
  find_user str_lower identifier records = inr None.
Proof.
  induction records as [|[uid r] rest IH]; simpl.
  - split; [reflexivity | constructor].
  - split.
    + intros H. apply Forall_cons in H as [[Hk (name & Hn & Hl)] Hrest].
      simpl in Hk, Hn. apply String.eqb_neq in Hk. rewrite Hk, Hn.
      apply String.eqb_neq in Hl. rewrite Hl. apply IH, Hrest.
    + destruct (String.eqb uid identifier) eqn:Hk; [discriminate|].
      destruct (username r) as [name|] eqn:Hn; [|discriminate].
      destruct (String.eqb (str_lower name) (str_lower identifier)) eqn:Hl;
        [discriminate|].
      intros H. apply Forall_cons. split; [|apply IH, H].
      apply String.eqb_neq in Hk, Hl. split; [exact Hk|].
      exists name. split; [exact Hn | exact Hl].
Qed.

(** X23. [/user_info] answers with the first record, in the order the users are
    walked, whose key is the identifier (the argument without its leading
    [@]) or whose user name is the identifier up to case; the records
    before it all have a user name. *)
Theorem user_info_reports_first_match (c : Command) (w : World)
    (first : string) (rest : list string)
    (before after : list (string * UserRecord)) (entry : string * UserRecord) :
  args c = first :: rest →
  items (users (data w)) = before ++ entry :: after →
  Forall (passed_over str_lower (lstrip_at first)) before →
  matches str_lower (lstrip_at first) entry →
  show_user_info str_lower items env c w
  = reply env (update c) (user_info (snd entry)) w.
Proof.
  intros Hargs Hitems Hbefore Hmatch. unfold show_user_info.
  rewrite Hargs. unfold bind at 1, get_data. cbn [fst snd].
  rewrite Hitems, (find_user_first_match _ _ _ _ Hbefore Hmatch).
  reflexivity.
Qed.

(** X24. [/user_info] fails with an [AttributeError], and answers nothing, when
    the walk reaches a record without a user name (a sender who has none)
    whose key is not the identifier before it reaches a match. *)
Theorem user_info_fails_on_nameless_record (c : Command) (w : World)
    (first : string) (rest : list string)
    (before after : list (string * UserRecord)) (entry : string * UserRecord) :
  args c = first :: rest →
  items (users (data w)) = before ++ entry :: after →
  Forall (passed_over str_lower (lstrip_at first)) before →
  fst entry ≠ lstrip_at first → username (snd entry) = None →
  show_user_info str_lower items env c w = (Raise AttributeError, w).
Proof.
  intros Hargs Hitems Hbefore Hk Hn. unfold show_user_info.
  rewrite Hargs. unfold bind at 1, get_data. cbn [fst snd].
  rewrite Hitems, (find_user_nameless _ _ _ _ Hbefore Hk Hn).
  reflexivity.
Qed.

(** [/user_info] answers that the user is not found exactly when every
    record has a user name and none matches the identifier. *)
Theorem user_info_not_found (c : Command) (w : World)
    (first : string) (rest : list string) :
  args c = first :: rest →
  Forall (passed_over str_lower (lstrip_at first)) (items (users (data w))) →
  show_user_info str_lower items env c w
  = reply env (update c) [Lit "Пользователь не найден"] w.
Proof.
  intros Hargs Hall. unfold show_user_info.
  rewrite Hargs. unfold bind at 1, get_data. cbn [fst snd].
  apply find_user_none in Hall. rewrite Hall. reflexivity.
Qed.

End Informational.

Lemma user_info_reports_first_match_witness :
  show_user_info ascii_lower map_to_list (calm Malformed) (who_is "@Alice")
    one_strike
  = reply (calm Malformed) (update (who_is "@Alice"))
      (user_info alice_warned_once) one_strike.
Proof.
  apply (user_info_reports_first_match ascii_lower map_to_list (calm Malformed)
           (who_is "@Alice") one_strike "@Alice" [] [] []
           ("7", alice_warned_once)).
  - reflexivity.
  - vm_compute. reflexivity.
  - constructor.
  - right. exists "alice". split; reflexivity.
Defined.

Lemma user_info_fails_on_nameless_record_witness :
  show_user_info ascii_lower map_to_list (calm Malformed) (who_is "@Alice")
    (start (with_users {["8" := nameless]} strict))
  = (Raise AttributeError, start (with_users {["8" := nameless]} strict)).
Proof.
  apply (user_info_fails_on_nameless_record ascii_lower map_to_list
           (calm Malformed) (who_is "@Alice")
           (start (with_users {["8" := nameless]} strict))
           "@Alice" [] [] [] ("8", nameless)).
  - reflexivity.
  - vm_compute. reflexivity.
  - constructor.
  - discriminate.
  - reflexivity.
Defined.

Lemma user_info_not_found_witness :
  show_user_info ascii_lower map_to_list (calm Malformed) (who_is "@Alice")
    (start strict)
  = reply (calm Malformed) (update (who_is "@Alice"))
      [Lit "Пользователь не найден"] (start strict).
Proof.
  apply (user_info_not_found ascii_lower map_to_list (calm Malformed)
           (who_is "@Alice") (start strict) "@Alice" []).
  - reflexivity.
  - vm_compute. constructor.
Defined.

(** *** What the three writing commands keep and save *)

Lemma remove_first_In (word x : string) (words : list string) :
  In x (remove_first word words) → In x words.
Proof.
  induction words as [|w rest IH]; simpl; [tauto|].
  destruct (String.eqb word w); simpl; tauto.
Qed.

Lemma remove_first_NoDup (word : string) (words : list string) :
  NoDup words → NoDup (remove_first word words).
Proof.
  induction 1 as [|w rest Hw Hrest IH]; simpl; [constructor|].
  destruct (String.eqb word w); [exact Hrest|].
  constructor; [|exact IH].
  rewrite list_elem_of_In. intros Hin. apply remove_first_In in Hin.
  apply Hw, list_elem_of_In, Hin.
Qed.

Section Writing.
Variable str_lower : string → string.
Variable py_int : string → option Z.
Variable env : Env.

Lemma word_commands_without_args (c : Command) (w : World) :
  args c = [] →
  data (snd (add_ban_word str_lower env c w)) = data w
  ∧ data (snd (remove_ban_word str_lower env c w)) = data w.
Proof.
  intros Hargs. unfold add_ban_word, remove_ban_word. rewrite Hargs.
  split; apply (only_answers_reply env (update c) _ w).
Qed.

(** Settings with the sensitivity within 1..100 and no ban word twice stay
    so through [/set_sensitivity], [/add_ban_word] and [/remove_ban_word],
    whatever the arguments are and whatever Telegram and the disk answer. *)
Theorem writing_commands_keep_settings_tidy (c : Command) (w : World) :
  tidy (settings (data w)) →
  tidy (settings (data (snd (set_sensitivity py_int env c w))))
  ∧ tidy (settings (data (snd (add_ban_word str_lower env c w))))
  ∧ tidy (settings (data (snd (remove_ban_word str_lower env c w)))).
Proof.
  intros [Hrange Hnodup]. split; [|split].
  - pose proof (set_sensitivity_run py_int env c w) as H. cbv zeta in H.
    destruct (accepted_level py_int c) as [level|].
    + destruct H as (Hd & _ & Hr). rewrite Hd. split; [exact Hr|].
      exact Hnodup.
    + destruct H as [Hd _]. rewrite Hd. split; assumption.
  - destruct (args c) as [|first rest] eqn:Hargs.
    + destruct (word_commands_without_args c w Hargs) as [Hd _].
      rewrite Hd. split; assumption.
    + assert (Hne : args c ≠ []) by (rewrite Hargs; discriminate).
      destruct (add_ban_word_words str_lower env c w Hne) as [Hw Hs].
      split; [rewrite Hs; exact Hrange|].
      rewrite Hw. apply added_NoDup, Hnodup.
  - destruct (args c) as [|first rest] eqn:Hargs.
    + destruct (word_commands_without_args c w Hargs) as [_ Hd].
      rewrite Hd. split; assumption.
    + assert (Hne : args c ≠ []) by (rewrite Hargs; discriminate).
      rewrite (remove_ban_word_data str_lower env c w Hne).
      destruct (mem _ _); [|split; assumption].
      split; [exact Hrange | apply remove_first_NoDup, Hnodup].
Qed.

(** X25. [/add_ban_word] and [/remove_ban_word] write the file exactly when
    they change the list, once, and what they write is the store they
    leave: adding a word already there, or removing one that is not,
    writes nothing. *)
Theorem word_commands_save_what_they_change (c : Command) (w : World) :
  args c ≠ [] →
  let known := mem (command_word str_lower c) (ban_words (settings (data w))) in
  let add := add_ban_word str_lower env c in
  let remove := remove_ban_word str_lower env c in
  new_saves add w
    = (if known then [] else [SaveData (data (snd (add w)))])
  ∧ new_saves remove w
    = (if known then [SaveData (data (snd (remove w)))] else []).
Proof.
  intros Hargs. cbv zeta.
  unfold new_saves, new_events, command_word, add_ban_word, remove_ban_word.
  generalize (str_lower (String.concat " " (args c))). intros word.
  destruct (args c) as [|first rest]; [congruence|].
  exec_command.
  destruct (mem word (ban_words (settings (data w)))); cbn;
    split; branches;
    rewrite <- ?app_assoc, ?drop_old_events, ?drop_all; reflexivity.
Qed.

End Writing.

Lemma writing_commands_keep_settings_tidy_witness :
  tidy (settings (data (snd
    (add_ban_word ascii_lower (calm Malformed) shout (start strict))))).
Proof.
  apply (writing_commands_keep_settings_tidy ascii_lower (fun _ => None)
           (calm Malformed) shout (start strict)).
  split; [vm_compute; split; discriminate|].
  vm_compute. apply NoDup_singleton.
Defined.

Lemma word_commands_save_what_they_change_witness :
  new_saves (add_ban_word ascii_lower (calm Malformed) shout) (start strict)
  = [SaveData (data (snd
       (add_ban_word ascii_lower (calm Malformed) shout (start strict))))].
Proof.
  apply (word_commands_save_what_they_change ascii_lower (calm Malformed)
           shout (start strict)).
  discriminate.
Defined.

End CommandFacts.

(** ** The data file *)

Module ManagerFacts.
Import Manager.

(** *** One step at a time *)

Lemma ensure_file_there (f : Files) (c : file) :
  content (disk f) = Some c → ensure_file f = (Return tt, f).
Proof.
  intros Hc. unfold ensure_file, and_then, path_exists, the_disk, unit_.
  simpl. rewrite Hc. reflexivity.
Qed.

Lemma ensure_file_missing (f : Files) :
  content (disk f) = None → ensure_file f = _create_default_data_file f.
Proof.
  intros Hc. unfold ensure_file, and_then, path_exists, the_disk, unit_.
  simpl. rewrite Hc. reflexivity.
Qed.

Lemma create_default_run (f : Files) :
  _create_default_data_file f
  = if writable (disk f) then (Return tt, created f)
    else (Raise IOError, not_created f).
Proof.
  unfold _create_default_data_file, dump_to_file, created, not_created,
    holding.
  destruct (writable (disk f)) eqn:Hw; simpl.
  - unfold note. simpl. rewrite <- app_assoc. reflexivity.
  - reflexivity.
Qed.

Lemma all_in_dict (d : gmap string value) :
  all_in ["settings"; "users"; "stats"] (VDict d)
  = inr (bool_decide (is_Some (d !! "settings") ∧ is_Some (d !! "users")
                      ∧ is_Some (d !! "stats"))).
Proof.
  simpl.
  repeat (case_bool_decide; simpl); try reflexivity; tauto.
Qed.

Lemma all_in_only_type_error (keys : list string) (v : value) (e : exn) :
  all_in keys v = inl e → e = TypeError.
Proof.
  induction keys as [|k rest IH]; simpl; [discriminate|].
  destruct (py_in k v) as [e'|[|]] eqn:Hk; [|exact IH|discriminate].
  intros [= <-]. destruct v; simpl in Hk; congruence.
Qed.

Arguments all_in : simpl never.

Lemma load_from_file_run (f : Files) :
  load_from_file f
  = if readable (disk f) then
      match content (disk f) with
      | None => (Raise IOError, f)
      | Some Unparsable => (Raise JSONDecodeError, f)
      | Some (Document v) => (Return v, f)
      end
    else (Raise IOError, f).
Proof.
  unfold load_from_file, and_then, the_disk. simpl.
  destruct (readable (disk f)); simpl; [|reflexivity].
  destruct (content (disk f)) as [[|v]|]; reflexivity.
Qed.

Lemma load_body_valid (f : Files) (d : gmap string value) (s u t : value) :
  content (disk f) = Some (Document (VDict d)) → readable (disk f) = true →
  d !! "settings" = Some s → d !! "users" = Some u → d !! "stats" = Some t →
  load_body f
  = (Return tt, {| disk := disk f; self := loaded s u t;
                   journal := journal f |}).
Proof.
  intros Hc Hr Hs Hu Ht.
  unfold load_body. unfold and_then at 1.
  rewrite load_from_file_run, Hr, Hc.
  rewrite all_in_dict, bool_decide_true
    by (rewrite Hs, Hu, Ht; repeat split; eexists; reflexivity).
  unfold and_then, subscript, assign, unit_. rewrite Hs, Hu, Ht. reflexivity.
Qed.

Lemma load_body_unreadable (f : Files) :
  readable (disk f) = false → load_body f = (Raise IOError, f).
Proof.
  intros Hr. unfold load_body. unfold and_then at 1.
  rewrite load_from_file_run, Hr. reflexivity.
Qed.

Lemma load_body_unparsable (f : Files) :
  content (disk f) = Some Unparsable → readable (disk f) = true →
  load_body f = (Raise JSONDecodeError, f).
Proof.
  intros Hc Hr. unfold load_body. unfold and_then at 1.
  rewrite load_from_file_run, Hr, Hc. reflexivity.
Qed.

Lemma load_body_missing (f : Files) :
  content (disk f) = None → load_body f = (Raise IOError, f).
Proof.
  intros Hc. unfold load_body. unfold and_then at 1.
  rewrite load_from_file_run, Hc. destruct (readable (disk f)); reflexivity.
Qed.

Lemma load_body_type_error (f : Files) (v : value) :
  content (disk f) = Some (Document v) → readable (disk f) = true →
  indigestible v → load_body f = (Raise TypeError, f).
Proof.
  intros Hc Hr Hv. unfold load_body. unfold and_then at 1.
  rewrite load_from_file_run, Hr, Hc.
  destruct (all_in ["settings"; "users"; "stats"] v) as [e|[|]] eqn:Hall.
  - apply all_in_only_type_error in Hall. subst e. reflexivity.
  - destruct v; try reflexivity. destruct Hv.
  - destruct v; simpl in Hv; first [contradiction | congruence].
Qed.

Lemma load_body_rejected (f : Files) (v : value) :
  content (disk f) = Some (Document v) → readable (disk f) = true →
  all_in ["settings"; "users"; "stats"] v = inr false →
  load_body f = (Raise (ValueError "Invalid data structure"), f).
Proof.
  intros Hc Hr Hv. unfold load_body. unfold and_then at 1.
  rewrite load_from_file_run, Hr, Hc, Hv. reflexivity.
Qed.

(** Every document is accepted, rejected or not digestible. *)
Lemma document_cases (v : value) :
  (∃ d s u t, v = VDict d ∧ d !! "settings" = Some s ∧ d !! "users" = Some u
              ∧ d !! "stats" = Some t)
  ∨ all_in ["settings"; "users"; "stats"] v = inr false
  ∨ indigestible v.
Proof.
  destruct (all_in ["settings"; "users"; "stats"] v) as [e|[|]] eqn:Hall.
  - right. right. destruct v; simpl; try congruence.
    rewrite all_in_dict in Hall. discriminate.
  - destruct v as [| | | | |d];
      try (right; right; simpl; congruence).
    left. rewrite all_in_dict in Hall. injection Hall as Hall.
    apply bool_decide_eq_true in Hall as ([s Hs] & [u Hu] & [t Ht]).
    exists d, s, u, t. auto.
  - right. left. reflexivity.
Qed.

Lemma default_data_lookups :
  ∃ d, _default_data = VDict d ∧ d !! "settings" = Some default_settings
       ∧ d !! "users" = Some default_users ∧ d !! "stats" = Some default_stats.
Proof. eexists. split; [reflexivity|]. repeat split; vm_compute; reflexivity. Qed.

(** *** A whole load *)

Lemma load_valid (n : nat) (f : Files) (d : gmap string value)
    (s u t : value) :
  content (disk f) = Some (Document (VDict d)) → readable (disk f) = true →
  d !! "settings" = Some s → d !! "users" = Some u → d !! "stats" = Some t →
  _load_data (S n) f
  = Some (Return tt, {| disk := disk f; self := loaded s u t;
                        journal := journal f |}).
Proof.
  intros Hc Hr Hs Hu Ht. simpl.
  rewrite (ensure_file_there f _ Hc), (load_body_valid f d s u t) by assumption.
  reflexivity.
Qed.

Lemma load_created (n : nat) (f : Files) :
  readable (disk f) = true →
  _load_data (S n) (created f)
  = Some (Return tt, {| disk := holding _default_data (disk f);
                        self := defaults;
                        journal := journal (created f) |}).
Proof.
  intros Hr. destruct default_data_lookups as (d & Hd & Hs & Hu & Ht).
  rewrite (load_valid n (created f) d default_settings default_users
             default_stats); try assumption.
  - reflexivity.
  - simpl. rewrite Hd. reflexivity.
Qed.

Lemma load_missing (n : nat) (f : Files) :
  content (disk f) = None →
  _load_data (S n) f
  = Some (if writable (disk f) then
            if readable (disk f) then
              (Return tt, {| disk := holding _default_data (disk f);
                             self := defaults;
                             journal := journal (created f) |})
            else (Raise IOError, created f)
          else (Raise IOError, not_created f)).
Proof.
  intros Hc. destruct (writable (disk f)) eqn:Hw.
  - destruct (readable (disk f)) eqn:Hr.
    + cbn [_load_data]. rewrite (ensure_file_missing f Hc), create_default_run, Hw.
      pose proof (load_created 0 f Hr) as H. cbn [_load_data] in H.
      rewrite (ensure_file_there (created f) (Document _default_data))
        in H by reflexivity.
      destruct (load_body (created f)) as [[[]|e] f2] eqn:Hb.
      * exact H.
      * destruct (is_decode_or_value_error e); [|exact H].
        destruct (recover e f2) as [[[]|e'] f3]; [discriminate H | exact H].
    + cbn [_load_data]. rewrite (ensure_file_missing f Hc), create_default_run, Hw.
      rewrite load_body_unreadable by exact Hr. reflexivity.
  - cbn [_load_data]. rewrite (ensure_file_missing f Hc), create_default_run, Hw.
    reflexivity.
Qed.

Lemma load_unreadable (n : nat) (f : Files) (c : file) :
  content (disk f) = Some c → readable (disk f) = false →
  _load_data (S n) f = Some (Raise IOError, f).
Proof.
  intros Hc Hr. cbn [_load_data].
  rewrite (ensure_file_there f c Hc), load_body_unreadable by exact Hr.
  reflexivity.
Qed.

Lemma load_type_error (n : nat) (f : Files) (v : value) :
  content (disk f) = Some (Document v) → readable (disk f) = true →
  indigestible v → _load_data (S n) f = Some (Raise TypeError, f).
Proof.
  intros Hc Hr Hv. cbn [_load_data].
  rewrite (ensure_file_there f _ Hc), (load_body_type_error f v) by assumption.
  reflexivity.
Qed.

Lemma load_body_discarded (f : Files) (c : file) :
  content (disk f) = Some c → readable (disk f) = true →
  discarded (Some c) →
  load_body f = (Raise (load_error c), f)
  ∧ is_decode_or_value_error (load_error c) = true.
Proof.
  intros Hc Hr Hd. destruct c as [|v]; simpl.
  - split; [apply load_body_unparsable; assumption | reflexivity].
  - split; [apply (load_body_rejected f v); assumption | reflexivity].
Qed.

Lemma recover_run (e : exn) (f : Files) :
  recover e f
  = _create_default_data_file
      {| disk := disk f; self := self f;
         journal := journal f ++
           [Logged ERROR [Lit "Error loading data: "; FmtExn e;
                          Lit ", creating new file"]] |}.
Proof. reflexivity. Qed.

Lemma load_discarded (n : nat) (f : Files) (c : file) :
  content (disk f) = Some c → readable (disk f) = true →
  discarded (Some c) →
  (writable (disk f) = true →
   _load_data (S (S n)) f
   = Some (Return tt, {| disk := holding _default_data (disk f);
                         self := defaults;
                         journal := journal (created (complained c f)) |}))
  ∧ (writable (disk f) = false →
     _load_data (S n) f = Some (Raise IOError, not_created (complained c f))).
Proof.
  intros Hc Hr Hd.
  destruct (load_body_discarded f c Hc Hr Hd) as [Hb He].
  split; intros Hw.
  - change (_load_data (S (S n)) f) with
      (match ensure_file f with
       | (Raise e, f1) => Some (Raise e, f1)
       | (Return _, f1) =>
           match load_body f1 with
           | (Return _, f2) => Some (Return tt, f2)
           | (Raise e, f2) =>
               if is_decode_or_value_error e then
                 match recover e f2 with
                 | (Raise e', f3) => Some (Raise e', f3)
                 | (Return _, f3) => _load_data (S n) f3
                 end
               else Some (Raise e, f2)
           end
       end).
    rewrite (ensure_file_there f c Hc), Hb, He, recover_run.
    change {| disk := disk f; self := self f;
              journal := journal f ++
                [Logged ERROR [Lit "Error loading data: ";
                               FmtExn (load_error c);
                               Lit ", creating new file"]] |}
      with (complained c f).
    rewrite create_default_run.
    change (writable (disk (complained c f))) with (writable (disk f)).
    rewrite Hw. cbv beta match.
    rewrite (load_created n (complained c f)) by exact Hr. reflexivity.
  - cbn [_load_data].
    rewrite (ensure_file_there f c Hc), Hb, He, recover_run.
    change {| disk := disk f; self := self f;
              journal := journal f ++
                [Logged ERROR [Lit "Error loading data: ";
                               FmtExn (load_error c);
                               Lit ", creating new file"]] |}
      with (complained c f).
    rewrite create_default_run.
    change (writable (disk (complained c f))) with (writable (disk f)).
    rewrite Hw. reflexivity.
Qed.

(** A depth of 2 is enough on every disk, and more depth changes nothing. *)
Lemma load_data_finishes (n : nat) (f : Files) :
  ∃ r, _load_data 2 f = Some r ∧ _load_data (2 + n) f = Some r.
Proof.
  change (2 + n)%nat with (S (S n)).
  destruct (content (disk f)) as [c|] eqn:Hc.
  - destruct (readable (disk f)) eqn:Hr.
    + assert (Hcases : discarded (Some c) ∨
                (∃ v, c = Document v ∧ ¬ discarded (Some c))).
      { destruct c as [|v]; [left; exact I|].
        destruct (document_cases v) as [H|[H|H]].
        - right. exists v. split; [reflexivity|].
          destruct H as (d & s & u & t & -> & Hs & Hu & Ht).
          simpl. rewrite all_in_dict, bool_decide_true; [discriminate|].
          rewrite Hs, Hu, Ht. repeat split; eexists; reflexivity.
        - left. exact H.
        - right. exists v. split; [reflexivity|].
          destruct v; simpl in *; first [contradiction | assumption]. }
      destruct Hcases as [Hd|(v & -> & Hd)].
      * destruct (writable (disk f)) eqn:Hw.
        -- eexists. split;
             apply (proj1 (load_discarded _ f c Hc Hr Hd) Hw).
        -- eexists. split;
             apply (proj2 (load_discarded _ f c Hc Hr Hd) Hw).
      * destruct (document_cases v) as [H|[H|H]].
        -- destruct H as (d & s & u & t & -> & Hs & Hu & Ht).
           eexists. split; apply (load_valid _ f d s u t); assumption.
        -- contradiction.
        -- eexists. split; apply (load_type_error _ f v); assumption.
    + eexists. split; apply (load_unreadable _ f c); assumption.
  - eexists. split; apply load_missing; exact Hc.
Qed.

(** X27. A file that is missing, is not JSON or fails the structure check is
    replaced by the default file: when the disk can be written, the object
    holds the defaults, the file holds the defaults and was written once,
    and what the file held before is lost; when it cannot, the start fails
    with [IOError] after a critical log line and the file and the object
    are as they were. *)
Theorem discarded_file_is_replaced_by_defaults (n : nat) (d : Disk) :
  discarded (content d) → readable d = true →
  ∃ f, __init__ (2 + n) d
       = Some (if writable d then Return tt else Raise IOError, f)
       ∧ if writable d then
           disk f = holding _default_data d
           ∧ self f = defaults
           ∧ List.filter wrote (journal f) = [Wrote _default_data]
         else
           disk f = d ∧ self f = unset
           ∧ last (journal f)
             = Some (Logged CRITICAL [Lit "Failed to create data file: ";
                                      FmtExn IOError]).
Proof.
  intros Hd Hr. change (2 + n)%nat with (S (S n)). unfold __init__.
  fold (boot d).
  destruct (content d) as [c|] eqn:Hc; destruct (writable d) eqn:Hw.
  - eexists. split.
    + apply (proj1 (load_discarded n (boot d) c Hc Hr Hd) Hw).
    + repeat split.
  - eexists. split.
    + apply (proj2 (load_discarded (S n) (boot d) c Hc Hr Hd) Hw).
    + repeat split.
  - eexists. split.
    + rewrite (load_missing (S n) (boot d) Hc).
      change (writable (disk (boot d))) with (writable d).
      change (readable (disk (boot d))) with (readable d).
      rewrite Hw, Hr. reflexivity.
    + repeat split.
  - eexists. split.
    + rewrite (load_missing (S n) (boot d) Hc).
      change (writable (disk (boot d))) with (writable d).
      rewrite Hw. reflexivity.
    + repeat split.
Qed.

(** X28. A file that holds a JSON object with the keys [settings], [users] and
    [stats] is loaded as it is: the three values become the attributes
    whatever they are, the file is not written (it need not be writable),
    and nothing is logged. *)
Theorem valid_file_is_loaded_untouched (n : nat) (d : Disk)
    (m : gmap string value) (s u t : value) :
  content d = Some (Document (VDict m)) → readable d = true →
  m !! "settings" = Some s → m !! "users" = Some u → m !! "stats" = Some t →
  __init__ (1 + n) d
  = Some (Return tt, {| disk := d; self := loaded s u t; journal := [] |}).
Proof.
  intros Hc Hr Hs Hu Ht. change (1 + n)%nat with (S n).
  apply (load_valid n (boot d) m s u t); assumption.
Qed.

(** X29. A file that holds JSON of another shape stops the start with a
    [TypeError] that nothing catches: [null], a boolean or a number (the
    structure check itself fails), and a list or a string that passes the
    structure check because it has the three names as elements or as
    substrings. The file stays as it is. *)
Theorem indigestible_document_raises_type_error (n : nat) (d : Disk)
    (v : value) :
  content d = Some (Document v) → readable d = true → indigestible v →
  __init__ (1 + n) d = Some (Raise TypeError, boot d).
Proof.
  intros Hc Hr Hv. change (1 + n)%nat with (S n).
  apply (load_type_error n (boot d) v); assumption.
Qed.

Lemma load_outcome_cases (n : nat) (d : Disk) (o : outcome unit)
    (f : Files) :
  __init__ (2 + n) d = Some (o, f) →
  match o with
  | Return _ => ∃ v, content (disk f) = Some (Document v) ∧ holds (self f) v
  | Raise e => (e = IOError ∨ e = TypeError) ∧ self f = unset
  end
  ∧ (disk f = d ∨ disk f = holding _default_data d).
Proof.
  change (2 + n)%nat with (S (S n)). unfold __init__. fold (boot d).
  assert (Hdefault : holds defaults _default_data).
  { destruct default_data_lookups as (m & Hm & Hs & Hu & Ht).
    exists m. rewrite Hs, Hu, Ht. repeat split; try assumption;
      eexists; reflexivity. }
  destruct (content d) as [c|] eqn:Hc.
  - destruct (readable d) eqn:Hr.
    + destruct c as [|v].
      * destruct (writable d) eqn:Hw.
        -- rewrite (proj1 (load_discarded n (boot d) Unparsable Hc Hr I) Hw).
           intros [= <- <-]. split; [|right; reflexivity].
           exists _default_data. split; [reflexivity | exact Hdefault].
        -- rewrite (proj2 (load_discarded (S n) (boot d) Unparsable Hc Hr I) Hw).
           intros [= <- <-]. split; [|left; reflexivity].
           split; [left|]; reflexivity.
      * destruct (document_cases v) as [H|[H|H]].
        -- destruct H as (m & s & u & t & -> & Hs & Hu & Ht).
           rewrite (load_valid (S n) (boot d) m s u t) by assumption.
           intros [= <- <-]. split; [|left; reflexivity].
           exists (VDict m). split; [exact Hc|].
           exists m. simpl. rewrite Hs, Hu, Ht.
           repeat split; eexists; reflexivity.
        -- destruct (writable d) eqn:Hw.
           ++ rewrite (proj1 (load_discarded n (boot d) (Document v) Hc Hr H)
                         Hw).
              intros [= <- <-]. split; [|right; reflexivity].
              exists _default_data. split; [reflexivity | exact Hdefault].
           ++ rewrite (proj2 (load_discarded (S n) (boot d) (Document v) Hc Hr
                                H) Hw).
              intros [= <- <-]. split; [|left; reflexivity].
              split; [left|]; reflexivity.
        -- rewrite (load_type_error (S n) (boot d) v) by assumption.
           intros [= <- <-]. split; [|left; reflexivity].
           split; [right|]; reflexivity.
    + rewrite (load_unreadable (S n) (boot d) c) by assumption.
      intros [= <- <-]. split; [|left; reflexivity].
      split; [left|]; reflexivity.
  - rewrite (load_missing (S n) (boot d) Hc).
    change (writable (disk (boot d))) with (writable d).
    change (readable (disk (boot d))) with (readable d).
    destruct (writable d), (readable d); intros [= <- <-].
    + split; [|right; reflexivity].
      exists _default_data. split; [reflexivity | exact Hdefault].
    + split; [|right; reflexivity]. split; [left|]; reflexivity.
    + split; [|left; reflexivity]. split; [left|]; reflexivity.
    + split; [|left; reflexivity]. split; [left|]; reflexivity.
Qed.

(** X26. The start always comes to an end, after at most one call of
    [_load_data] by itself (a depth of 2 is enough on every disk, and more
    depth changes nothing). When it returns, the file holds a JSON object
    with the three keys and the attributes are its three values; when it
    raises, it is with [IOError] or [TypeError] and no attribute is set.
    Either way the file is what it was or the default file. *)
Theorem load_outcome (n : nat) (d : Disk) :
  ∃ o f, __init__ 2 d = Some (o, f) ∧ __init__ (2 + n) d = Some (o, f)
    ∧ match o with
      | Return _ =>
          ∃ v, content (disk f) = Some (Document v) ∧ holds (self f) v
      | Raise e => (e = IOError ∨ e = TypeError) ∧ self f = unset
      end
    ∧ (disk f = d ∨ disk f = holding _default_data d).
Proof.
  destruct (load_data_finishes n (boot d)) as ([o f] & H2 & Hn).
  exists o, f. split; [exact H2|]. split; [exact Hn|].
  apply (load_outcome_cases n d o f Hn).
Qed.

(** *** Saving *)



Lemma discarded_file_is_replaced_by_defaults_witness :
  ∃ f, __init__ 2 (holding half_a_store empty_disk) = Some (Return tt, f)
       ∧ disk f = holding _default_data empty_disk
       ∧ self f = defaults
       ∧ List.filter wrote (journal f) = [Wrote _default_data].
Proof.
  apply (discarded_file_is_replaced_by_defaults 0
           (holding half_a_store empty_disk)).
  - vm_compute. reflexivity.
  - reflexivity.
Defined.

Lemma valid_file_is_loaded_untouched_witness :
  __init__ 1 (read_only (Some (Document (snapshot VNone (VList []) (int 5)))))
  = Some (Return tt,
          {| disk := read_only
                       (Some (Document (snapshot VNone (VList []) (int 5))));
             self := loaded VNone (VList []) (int 5);
             journal := [] |}).
Proof.
  apply (valid_file_is_loaded_untouched 0
           (read_only (Some (Document (snapshot VNone (VList []) (int 5)))))
           {[ "settings" := VNone; "users" := VList []; "stats" := int 5 ]}
           VNone (VList []) (int 5)); reflexivity.
Defined.

Lemma indigestible_document_raises_type_error_witness :
  __init__ 1 (holding three_names empty_disk)
  = Some (Raise TypeError, boot (holding three_names empty_disk)).
Proof.
  apply (indigestible_document_raises_type_error 0
           (holding three_names empty_disk) three_names).
  - reflexivity.
  - reflexivity.
  - vm_compute. discriminate.
Defined.


End ManagerFacts.
